(** * The workbench store of bolt.new-plus

    A shallow embedding of [WorkbenchStore] (app/lib/stores/workbench.ts)
    and of the properties its documentation states.

    The store owns a handful of observable fields (the artifacts map, the
    artifact id list, the set of unsaved files, the current view) and
    otherwise sequences calls into collaborators: the editor store, the
    files store, the action runners, the webcontainer, the browser's
    File System Access API, the persistence layer and JSZip.  The fields
    are a record that is threaded through every method; a call into a
    collaborator is a node of a program tree whose reply is supplied by an
    arbitrary host, and every run yields the list of calls it made. *)

From Stdlib Require Import Ascii String.
From stdpp Require Import gmap strings list pretty.

Open Scope string_scope.
Open Scope list_scope.

(** ** Strings

    A [string] stands for a JavaScript string whose code units are below
    256.  The functions below are the string methods the store uses. *)

Module Str.

(** [s.startsWith(p)], returning the rest of [s]. *)
Fixpoint drop_prefix (p s : string) : option string :=
  match p, s with
  | EmptyString, _ => Some s
  | String a p', String b s' =>
      if Ascii.eqb a b then drop_prefix p' s' else None
  | String _ _, EmptyString => None
  end.

(** [s.split(sep)] for a separator of one character. *)
Fixpoint split (sep : ascii) (s : string) : list string :=
  match s with
  | EmptyString => [EmptyString]
  | String c s' =>
      if Ascii.eqb c sep then EmptyString :: split sep s'
      else match split sep s' with
           | seg :: rest => String c seg :: rest
           | [] => [String c EmptyString]
           end
  end.

(** [segs.join(sep)]. *)
Fixpoint join (sep : ascii) (segs : list string) : string :=
  match segs with
  | [] => EmptyString
  | [seg] => seg
  | seg :: rest => seg +:+ String sep (join sep rest)
  end.

(** [s.replace(/[...]/g, '')] for a character class given as a test. *)
Fixpoint remove_all (cls : ascii -> bool) (s : string) : string :=
  match s with
  | EmptyString => EmptyString
  | String c s' =>
      if cls c then remove_all cls s' else String c (remove_all cls s')
  end.

(** The class [\s] on code units below 256: tab, line feed, vertical
    tab, form feed, carriage return, space and no-break space. *)
Definition is_space (c : ascii) : bool :=
  let n := nat_of_ascii c in
  (((9 <=? n) && (n <=? 13)) || (n =? 32) || (n =? 160))%nat.

(** [s.replace(/\s+/g, r)]: every maximal run of white space becomes
    one copy of [r].  [in_run] tells that the previous character was
    white space. *)
Fixpoint replace_space_runs (r : string) (in_run : bool) (s : string) : string :=
  match s with
  | EmptyString => EmptyString
  | String c s' =>
      if is_space c then
        if in_run then replace_space_runs r true s'
        else r +:+ replace_space_runs r true s'
      else String c (replace_space_runs r false s')
  end.

(** [c.toLowerCase()] on one code unit below 256: the letters A-Z and
    the capital letters of Latin-1 (U+00C0-U+00DE but U+00D7). *)
Definition lower_char (c : ascii) : ascii :=
  let n := nat_of_ascii c in
  if (((65 <=? n) && (n <=? 90))
      || ((192 <=? n) && (n <=? 222) && negb (n =? 215)))%nat
  then ascii_of_nat (n + 32) else c.

Fixpoint toLowerCase (s : string) : string :=
  match s with
  | EmptyString => EmptyString
  | String c s' => String (lower_char c) (toLowerCase s')
  end.

(** [s.slice(-1) === '/'] *)
Fixpoint ends_with_slash (path : string) : bool :=
  match path with
  | EmptyString => false
  | String c EmptyString => Ascii.eqb c "/"
  | String _ rest => ends_with_slash rest
  end.

(** [s.substring(0, s.length - 1)] *)
Fixpoint drop_last (path : string) : string :=
  match path with
  | EmptyString => EmptyString
  | String _ EmptyString => EmptyString
  | String c rest => String c (drop_last rest)
  end.

(** [s.substring(0, s.lastIndexOf('/'))] when [s] has a slash. *)
Fixpoint before_last_slash (path : string) : option string :=
  match path with
  | EmptyString => None
  | String c rest =>
      match before_last_slash rest with
      | Some t => Some (String c t)
      | None => if Ascii.eqb c "/" then Some EmptyString else None
      end
  end.

(** [s.replace(/^\/+/, '')] *)
Fixpoint drop_leading_slashes (s : string) : string :=
  match s with
  | String c rest => if Ascii.eqb c "/" then drop_leading_slashes rest else s
  | EmptyString => EmptyString
  end.

(** [s.includes(c)] for one character. *)
Fixpoint has_char (c : ascii) (s : string) : bool :=
  match s with
  | EmptyString => false
  | String a rest => Ascii.eqb a c || has_char c rest
  end.

(** JavaScript truthiness of a string. *)
Definition truthy (s : string) : bool :=
  match s with EmptyString => false | _ => true end.

(** [a || b] on strings. *)
Definition or_else (a b : string) : string := if truthy a then a else b.

End Str.

(** [filePath.replace(/^\/home\/project\//, '')] *)
Definition relativePath (filePath : string) : string :=
  default filePath (Str.drop_prefix "/home/project/" filePath).

(** [relativePath.split('/')] *)
Definition pathSegments (relativePath : string) : list string :=
  Str.split "/" relativePath.

(** ** Data *)

(** A reference to an [ActionRunner] object. *)
Abbreviation Runner := nat.

Record ArtifactState := {
  id : string;
  title : string;
  closed : bool;
  runner : Runner
}.

(** [Partial<Pick<ArtifactState, 'title' | 'closed'>>] *)
Record ArtifactUpdateState := {
  new_title : option string;
  new_closed : option bool
}.

Inductive WorkbenchViewType := code | preview.

Record ArtifactCallbackData := {
  a_messageId : string;
  a_title : string;
  a_id : string
}.

(** Modelled from the spec: the declaration of an action
    (lib/runtime/message-parser and types/actions) is not among the
    sources.  The glossary has an action be "a single file-write or
    shell-command instruction"; the store reads the tag, and on a file
    action [filePath] and [content]. *)
Inductive BoltAction :=
| FileAction (filePath content : string)
| ShellAction (content : string).

Record ActionCallbackData := {
  artifactId : string;
  messageId : string;
  actionId : string;
  action : BoltAction
}.

(** The editor's view of a file; the store reads [value] and [filePath]. *)
Record EditorDocument := {
  value : string;
  doc_filePath : string
}.

(** An entry of the files store: [{ type: 'file', content, isBinary }] or
    [{ type: 'folder' }]. *)
Record File := {
  content : string;
  isBinary : bool
}.

Inductive Dirent :=
| DFile (file : File)
| DFolder.

(** [FileMap = Record<string, Dirent | undefined>], as the list that
    [Object.entries] enumerates. *)
Definition FileMap := list (string * option Dirent).

(** [dirent?.type === 'file' && !dirent.isBinary], with the content. *)
Definition text_file (dirent : option Dirent) : option string :=
  match dirent with
  | Some (DFile file) => if isBinary file then None else Some (content file)
  | _ => None
  end.

(** What the artifacts object holds under a key.  [addArtifact] stores an
    [ArtifactState]; [updateArtifact] stores [{ ...artifact, ...state }],
    which is an artifact when [artifact] is one and otherwise an object
    that has the fields of the updates only. *)
Inductive ArtifactObject :=
| Artifact (a : ArtifactState)
| Fragment (state : ArtifactUpdateState).

(** ** The store's own fields

    [artifacts] is a plain object ([map({})]): the finite map is the map
    of its own properties. *)

Record WorkbenchStore := {
  artifacts : gmap string ArtifactObject;
  showWorkbench : bool;
  currentView : WorkbenchViewType;
  unsavedFiles : gset string;
  artifactIdList : list string
}.

Definition set_artifacts (m : gmap string ArtifactObject) (wb : WorkbenchStore) :=
  {| artifacts := m; showWorkbench := showWorkbench wb;
     currentView := currentView wb; unsavedFiles := unsavedFiles wb;
     artifactIdList := artifactIdList wb |}.

Definition set_currentView (v : WorkbenchViewType) (wb : WorkbenchStore) :=
  {| artifacts := artifacts wb; showWorkbench := showWorkbench wb;
     currentView := v; unsavedFiles := unsavedFiles wb;
     artifactIdList := artifactIdList wb |}.

Definition set_unsavedFiles (u : gset string) (wb : WorkbenchStore) :=
  {| artifacts := artifacts wb; showWorkbench := showWorkbench wb;
     currentView := currentView wb; unsavedFiles := u;
     artifactIdList := artifactIdList wb |}.

Definition set_artifactIdList (l : list string) (wb : WorkbenchStore) :=
  {| artifacts := artifacts wb; showWorkbench := showWorkbench wb;
     currentView := currentView wb; unsavedFiles := unsavedFiles wb;
     artifactIdList := l |}.

(** The constructor.  [artifacts], [showWorkbench], [currentView] and
    [unsavedFiles] survive a hot module reload ([import.meta.hot.data]);
    [artifactIdList] always starts empty. *)
Definition new_WorkbenchStore (hot : option WorkbenchStore) : WorkbenchStore :=
  match hot with
  | Some data => set_artifactIdList [] data
  | None =>
      {| artifacts := ∅; showWorkbench := false; currentView := code;
         unsavedFiles := ∅; artifactIdList := [] |}
  end.

(** ** JavaScript values

    What [JSON.parse] yields and [JSON.stringify] takes, with [undefined]
    for a property that is absent. *)

#[warnings="-register-all"]
Inductive JsValue :=
| JUndefined
| JNull
| JBool (b : bool)
| JNum (n : Z)
| JStr (s : string)
| JArr (items : list JsValue)
| JObj (fields : list (string * JsValue)).

Module Js.

(** Truthiness: [!!v]. *)
Definition truthy (v : JsValue) : bool :=
  match v with
  | JUndefined | JNull => false
  | JBool b => b
  | JNum n => negb (n =? 0)%Z
  | JStr s => Str.truthy s
  | JArr _ | JObj _ => true
  end.

Fixpoint assoc (key : string) (fields : list (string * JsValue)) : JsValue :=
  match fields with
  | [] => JUndefined
  | (k, v) :: rest => if String.eqb k key then v else assoc key rest
  end.

(** [v.key] for a key that no prototype defines: a [TypeError] ([None])
    on [null] and [undefined], the field of an object, and [undefined]
    on everything else. *)
Definition get (key : string) (v : JsValue) : option JsValue :=
  match v with
  | JUndefined | JNull => None
  | JObj fields => Some (assoc key fields)
  | _ => Some JUndefined
  end.

(** [v === null || v === undefined]: reading any property throws. *)
Definition nullish (v : JsValue) : bool :=
  match v with JUndefined | JNull => true | _ => false end.

(** [Array.isArray(v)], with the elements. *)
Definition as_array (v : JsValue) : option (list JsValue) :=
  match v with JArr items => Some items | _ => None end.

(** The names of the properties of [Object.prototype], which every plain
    object inherits. *)
Definition Object_prototype : list string :=
  ["constructor"; "__defineGetter__"; "__defineSetter__"; "hasOwnProperty";
   "__lookupGetter__"; "__lookupSetter__"; "isPrototypeOf";
   "propertyIsEnumerable"; "toString"; "valueOf"; "__proto__";
   "toLocaleString"].

(** What [object[key]] finds in a plain object: an own property, or one
    that is inherited from [Object.prototype] (a function, or for
    [__proto__] the prototype itself), or [undefined]. *)
Inductive Property (A : Type) : Type :=
| Own (a : A)
| Inherited
| Undefined.

Arguments Own {A} a.
Arguments Inherited {A}.
Arguments Undefined {A}.

(** [object[key]], for the plain object whose own properties are
    [object]. *)
Definition read {A} (object : gmap string A) (key : string) : Property A :=
  match object !! key with
  | Some a => Own a
  | None => if bool_decide (key ∈ Object_prototype) then Inherited else Undefined
  end.

End Js.

(** ** JSZip

    The third-party archive library, as its version 3 documents it and
    implements it in [lib/object.js].  All folder objects obtained from
    one archive share its [files] table and differ in their [root]
    prefix only, so an archive is the table and a folder object is its
    root.  The table is an object without a prototype
    ([Object.create(null)]); it is held as the list of its properties in
    the order of their creation, and [entries] is the order in which
    JavaScript enumerates them. *)

Module JSZip.

Inductive ZipObject :=
| ZipDir
| ZipFile (data : string).

Definition is_dir (o : ZipObject) : bool :=
  match o with ZipDir => true | ZipFile _ => false end.

Definition Files := list (string * ZipObject).

(** [files[name]] *)
Fixpoint lookup (name : string) (files : Files) : option ZipObject :=
  match files with
  | [] => None
  | (n, o) :: rest => if String.eqb n name then Some o else lookup name rest
  end.

(** [files[name] = o]: an existing property keeps its place in the
    order of creation, a new one is the latest. *)
Fixpoint store (name : string) (o : ZipObject) (files : Files) : Files :=
  match files with
  | [] => [(name, o)]
  | (n, o') :: rest =>
      if String.eqb n name then (n, o) :: rest
      else (n, o') :: store name o rest
  end.

(** [forceTrailingSlash] *)
Definition forceTrailingSlash (path : string) : string :=
  if Str.ends_with_slash path then path else path +:+ "/".

(** [parentFolder]: drop one trailing slash, then cut at the last slash
    when it is not the first character; the empty string otherwise. *)
Definition parentFolder (path : string) : string :=
  let path := if Str.ends_with_slash path then Str.drop_last path else path in
  default EmptyString (Str.before_last_slash path).

(** [folderAdd(name, true)]: add the folder and, first, its parents,
    unless the folder is there already.  Each parent is shorter than
    its child, so a fuel of the length of the name is enough. *)
Fixpoint folderAdd (fuel : nat) (name : string) (files : Files) : Files :=
  match fuel with
  | O => files
  | S fuel' =>
      let name := forceTrailingSlash name in
      match lookup name files with
      | Some _ => files
      | None =>
          let parent := parentFolder name in
          let files :=
            if Str.truthy parent then folderAdd fuel' parent files else files in
          store name ZipDir files
      end
  end.

(** [fileAdd(name, data, o)] with [createFolders] at its default, true. *)
Definition fileAdd (name : string) (o : ZipObject) (files : Files) : Files * string :=
  let name := if is_dir o then forceTrailingSlash name else name in
  let parent := parentFolder name in
  let files :=
    if Str.truthy parent then folderAdd (String.length name) parent files
    else files in
  (store name o files, name).

(** [folder.file(name, data)] on the folder object of root [root]. *)
Definition file_put (root name data : string) (files : Files) : Files :=
  (fileAdd (root +:+ name) (ZipFile data) files).1.

(** [folder.file(name)]: the entry, unless it is absent or a folder. *)
Definition file_get (root name : string) (files : Files) : option string :=
  match lookup (root +:+ name) files with
  | Some (ZipFile data) => Some data
  | _ => None
  end.

(** [folder.folder(name)] for a string: the folder object itself for
    the empty name; otherwise [folderAdd] adds the folder, unless an
    entry of that name is there already, and a folder object rooted at
    that entry is returned.  The declared result is [JSZip | null]; the
    implementation never returns [null]. *)
Definition folder (root name : string) (files : Files) : Files * option string :=
  if Str.truthy name then
    let name := forceTrailingSlash (root +:+ name) in
    (folderAdd (String.length name) name files, Some name)
  else (files, Some root).

(** The value of a string of decimal digits. *)
Fixpoint decimal (s : string) (acc : N) : option N :=
  match s with
  | EmptyString => Some acc
  | String c rest =>
      let n := N_of_ascii c in
      if ((48 <=? n) && (n <=? 57))%N then decimal rest (10 * acc + (n - 48))%N
      else None
  end.

(** An array index: the canonical decimal form of an integer from 0 to
    2^32 - 2. *)
Definition array_index (name : string) : option N :=
  match name with
  | EmptyString => None
  | String "0" EmptyString => Some 0%N
  | String "0" _ => None
  | _ =>
      match decimal name 0 with
      | Some n => if (n <? 4294967295)%N then Some n else None
      | None => None
      end
  end.

Fixpoint insert_index (i : N) (e : string * ZipObject)
    (sorted : list (N * (string * ZipObject))) : list (N * (string * ZipObject)) :=
  match sorted with
  | [] => [(i, e)]
  | (j, e') :: rest =>
      if (i <? j)%N then (i, e) :: sorted else (j, e') :: insert_index i e rest
  end.

(** [Object.entries(files)], and the order of [forEach] and of the
    written archive: the properties whose names are array indices, in
    ascending order of the index, and then the others in the order of
    their creation. *)
Definition entries (files : Files) : Files :=
  (foldr (λ e sorted,
            match array_index e.1 with
            | Some i => insert_index i e sorted
            | None => sorted
            end) [] files).*2
  ++ List.filter (λ e, bool_decide (array_index e.1 = None)) files.

End JSZip.

(** ** Calls into the collaborators *)

(** A directory or file handle of the File System Access API, named by
    the chain of names that led to it from the target handle. *)
Abbreviation Handle := (list string).

Inductive ToastKind := toast_error | toast_success | toast_info.

(** A [File] handed to the import: its name, and the archive that
    [JSZip.loadAsync] reads from it, if it is one. *)
Record UploadedFile := {
  file_name : string;
  file_archive : option JSZip.Files
}.

Inductive Call :=
(* the editor store *)
| EdCurrentDocument
| EdSelectedFile
| EdDocuments
| EdUpdateFile (filePath newContent : string)
| EdSetSelectedFile (filePath : option string)
| EdSetDocuments (files : FileMap)
(* the files store *)
| FsFiles
| FsFilesCount
| FsGetFile (filePath : string)
| FsSaveFile (filePath : string) (content : option string)
(* action runners *)
| NewActionRunner
| RunnerAddAction (r : Runner) (data : ActionCallbackData)
| RunnerRunAction (r : Runner) (data : ActionCallbackData) (isStreaming : option bool)
(* the webcontainer *)
| WcWorkdir
| WcRm (path : string)
| WcMkdir (path : string) (recursive : bool)
| WcWriteFile (path content : string)
(* the File System Access API *)
| GetDirectoryHandle (parent : Handle) (name : string)
| GetFileHandle (parent : Handle) (name : string)
| CreateWritable (file : Handle)
| WritableWrite (file : Handle) (content : string)
| WritableClose (file : Handle)
(* the persistence layer *)
| Db
| DbGetAll
| DbDeleteById (id : JsValue)
| DbSetMessages (id messages urlId description : JsValue)
(* the browser *)
| DateNow
| SaveAs (archive : JSZip.Files) (filename : string)
| Toast (kind : ToastKind) (message : string)
| ReloadLater.

(** What each call answers.  The persistence calls reject with [None] or
    [false]; every other call is taken to succeed. *)
Definition Reply (c : Call) : Type :=
  match c with
  | EdCurrentDocument => option EditorDocument
  | EdSelectedFile => option string
  | EdDocuments => gmap string EditorDocument
  | FsFiles => FileMap
  | FsFilesCount => nat
  | FsGetFile _ => option File
  | NewActionRunner => Runner
  | WcWorkdir => string
  | Db => bool
  | DbGetAll => option (list JsValue)
  | DbDeleteById _ | DbSetMessages _ _ _ _ => bool
  | DateNow => string
  | _ => unit
  end.

(** The host: the collaborators' state and behaviour, and the pure
    library functions the store calls. *)
Class Host := {
  World : Type;
  io : ∀ c : Call, World → Reply c * World;
  nodePath_join : string → string → string;
  JSON_parse : string → option JsValue;
  JSON_stringify : JsValue → string
}.

(** ** Programs

    A method is a tree of calls.  It threads the store's fields and ends
    by returning or by throwing; the fields survive a throw, as the
    fields of an object do. *)

Inductive Prog (A : Type) : Type :=
| Ret (a : A)
| Vis (c : Call) (k : Reply c → Prog A).

Arguments Ret {A} a.
Arguments Vis {A} c k.

Inductive Exception :=
| Unreachable (message : string)
| Error (message : string)
| TypeError
| SyntaxError
| Rejected.

Inductive Outcome (A : Type) : Type :=
| Returned (a : A)
| Threw (e : Exception).

Arguments Returned {A} a.
Arguments Threw {A} e.

Definition M (A : Type) : Type :=
  WorkbenchStore → Prog (Outcome A * WorkbenchStore).

Fixpoint prog_bind {A B} (p : Prog A) (f : A → Prog B) : Prog B :=
  match p with
  | Ret a => f a
  | Vis c k => Vis c (λ r, prog_bind (k r) f)
  end.

Definition m_ret {A} (a : A) : M A := λ wb, Ret (Returned a, wb).

Definition m_bind {A B} (f : A → M B) (m : M A) : M B :=
  λ wb, prog_bind (m wb)
          (λ '(o, wb'), match o with
                        | Returned a => f a wb'
                        | Threw e => Ret (Threw e, wb')
                        end).

#[global] Instance M_ret : MRet M := @m_ret.
#[global] Instance M_bind : MBind M := @m_bind.

(** [throw e] *)
Definition throw {A} (e : Exception) : M A := λ wb, Ret (Threw e, wb).

(** [try { m } catch (error) { handler }] *)
Definition try_catch {A} (m : M A) (handler : Exception → M A) : M A :=
  λ wb, prog_bind (m wb)
          (λ '(o, wb'), match o with
                        | Returned a => Ret (Returned a, wb')
                        | Threw e => handler e wb'
                        end).

(** A call into a collaborator. *)
Definition call (c : Call) : M (Reply c) :=
  λ wb, Vis c (λ r, Ret (Returned r, wb)).

(** Reading and writing the store's own fields. *)
Definition get : M WorkbenchStore := λ wb, Ret (Returned wb, wb).
Definition modify (f : WorkbenchStore → WorkbenchStore) : M unit :=
  λ wb, Ret (Returned tt, f wb).

(** A value that may be a [TypeError] or a [SyntaxError]. *)
Definition or_throw {A} (e : Exception) (o : option A) : M A :=
  match o with Some a => mret a | None => throw e end.

(** Modelled from the spec: [unreachable] (utils/unreachable) is not
    among the sources.  It is declared to return [never] and is called
    where the store reports 'Artifact not found', so it raises an error
    that carries its message. *)
Definition unreachable {A} (message : string) : M A :=
  throw (Unreachable message).

(** Running a program against a host: the result, the final world and the
    calls made, in order. *)
Fixpoint run `{Host} {A} (p : Prog A) (w : World) : A * World * list Call :=
  match p with
  | Ret a => (a, w, [])
  | Vis c k =>
      let '(r, w1) := io c w in
      let '(a, w2, calls) := run (k r) w1 in
      (a, w2, c :: calls)
  end.

Definition exec `{Host} {A} (m : M A) (wb : WorkbenchStore) (w : World) :=
  run (m wb) w.

(** The parts of a run. *)
Definition outcome_of `{Host} {A}
    (r : Outcome A * WorkbenchStore * World * list Call) := r.1.1.1.
Definition store_of `{Host} {A}
    (r : Outcome A * WorkbenchStore * World * list Call) := r.1.1.2.
Definition world_of `{Host} {A}
    (r : Outcome A * WorkbenchStore * World * list Call) := r.1.2.
Definition calls_of `{Host} {A}
    (r : Outcome A * WorkbenchStore * World * list Call) := r.2.

(** ** The methods of [WorkbenchStore] *)

Section Methods.
Context `{Host}.

(** [#getArtifact(id)]: [artifacts[id]] on the plain object. *)
Definition getArtifact (id : string) : M (Js.Property ArtifactObject) :=
  wb ← get; mret (Js.read (artifacts wb) id).

(** [get firstArtifact()]: [artifactIdList[0]] is [undefined] on an
    empty list, and indexes the map as the key "undefined". *)
Definition firstArtifact : M (Js.Property ArtifactObject) :=
  wb ← get; getArtifact (default "undefined" (artifactIdList wb !! 0%nat)).

(** [artifact.runner]: an artifact has a runner; on every other object
    that [getArtifact] can find the property is [undefined]. *)
Definition runner_of (artifact : Js.Property ArtifactObject) : option Runner :=
  match artifact with
  | Js.Own (Artifact a) => Some (runner a)
  | _ => None
  end.

Definition setSelectedFile (filePath : option string) : M unit :=
  call (EdSetSelectedFile filePath).

Definition setCurrentDocumentContent (newContent : string) : M unit :=
  doc ← call EdCurrentDocument;
  let filePath := default EmptyString (doc_filePath <$> doc) in
  if negb (Str.truthy filePath) then mret tt
  else
    file ← call (FsGetFile filePath);
    let originalContent := content <$> file in
    let unsavedChanges :=
      match originalContent with
      | Some original => negb (String.eqb original newContent)
      | None => false
      end in
    call (EdUpdateFile filePath newContent);;
    currentDocument ← call EdCurrentDocument;
    match currentDocument with
    | Some currentDocument =>
        previous ← get;
        let previousUnsavedFiles := unsavedFiles previous in
        if unsavedChanges
           && bool_decide (doc_filePath currentDocument ∈ previousUnsavedFiles)
        then mret tt
        else
          let newUnsavedFiles :=
            if unsavedChanges
            then previousUnsavedFiles ∪ {[doc_filePath currentDocument]}
            else previousUnsavedFiles ∖ {[doc_filePath currentDocument]} in
          modify (set_unsavedFiles newUnsavedFiles)
    | None => mret tt
    end.

(** [documents] is a plain object too; [document.value] is [undefined]
    on a property that is inherited. *)
Definition saveFile (filePath : string) : M unit :=
  documents ← call EdDocuments;
  match Js.read documents filePath with
  | Js.Undefined => mret tt
  | document =>
      let value :=
        match document with Js.Own document => Some (value document) | _ => None end in
      call (FsSaveFile filePath value);;
      modify (λ wb, set_unsavedFiles (unsavedFiles wb ∖ {[filePath]}) wb)
  end.

Definition resetCurrentDocument : M unit :=
  currentDocument ← call EdCurrentDocument;
  match currentDocument with
  | None => mret tt
  | Some currentDocument =>
      file ← call (FsGetFile (doc_filePath currentDocument));
      match file with
      | None => mret tt
      | Some file => setCurrentDocumentContent (content file)
      end
  end.

(** [if (artifact) return]: a property that is inherited is truthy. *)
Definition addArtifact (data : ArtifactCallbackData) : M unit :=
  artifact ← getArtifact (a_messageId data);
  match artifact with
  | Js.Undefined =>
      wb ← get;
      (if bool_decide (a_messageId data ∈ artifactIdList wb) then mret tt
       else modify (set_artifactIdList (artifactIdList wb ++ [a_messageId data])));;
      r ← call NewActionRunner;
      modify (λ wb, set_artifacts
                      (<[a_messageId data :=
                           Artifact {| id := a_id data; title := a_title data;
                                       closed := false; runner := r |}]>
                         (artifacts wb))
                      wb)
  | _ => mret tt
  end.

(** [{ ...artifact, ...state }] on an artifact. *)
Definition spread (artifact : ArtifactState) (state : ArtifactUpdateState) :=
  {| id := id artifact;
     title := default (title artifact) (new_title state);
     closed := default (closed artifact) (new_closed state);
     runner := runner artifact |}.

(** [{ ...artifact, ...state }] on what [getArtifact] found.  The
    properties of [Object.prototype] have no enumerable property of
    their own, so the spread of one is the spread of [state]. *)
Definition spread_found (artifact : Js.Property ArtifactObject)
    (state : ArtifactUpdateState) : ArtifactObject :=
  match artifact with
  | Js.Own (Artifact a) => Artifact (spread a state)
  | Js.Own (Fragment earlier) =>
      Fragment
        {| new_title :=
             match new_title state with
             | Some t => Some t
             | None => new_title earlier
             end;
           new_closed :=
             match new_closed state with
             | Some c => Some c
             | None => new_closed earlier
             end |}
  | _ => Fragment state
  end.

Definition updateArtifact (data : ArtifactCallbackData)
    (state : ArtifactUpdateState) : M unit :=
  artifact ← getArtifact (a_messageId data);
  match artifact with
  | Js.Undefined => mret tt
  | _ =>
      modify (λ wb, set_artifacts
                      (<[a_messageId data := spread_found artifact state]>
                         (artifacts wb))
                      wb)
  end.

(** [artifact.runner.addAction(data)]: a [TypeError] when [runner] is
    [undefined]. *)
Definition addAction (data : ActionCallbackData) : M unit :=
  artifact ← getArtifact (messageId data);
  match artifact with
  | Js.Undefined => unreachable "Artifact not found"
  | _ =>
      r ← or_throw TypeError (runner_of artifact);
      call (RunnerAddAction r data)
  end.

(** [isStreaming] defaults to false at the call site. *)
Definition runAction (data : ActionCallbackData) (isStreaming : bool) : M unit :=
  artifact ← getArtifact (messageId data);
  match artifact with
  | Js.Undefined => unreachable "Artifact not found"
  | _ =>
      match action data with
      | FileAction filePath content =>
          workdir ← call WcWorkdir;
          let fullPath := nodePath_join workdir filePath in
          selected ← call EdSelectedFile;
          (if bool_decide (selected = Some fullPath) then mret tt
           else setSelectedFile (Some fullPath));;
          wb ← get;
          (match currentView wb with
           | code => mret tt
           | preview => modify (set_currentView code)
           end);;
          documents ← call EdDocuments;
          (match Js.read documents fullPath with
           | Js.Undefined =>
               r ← or_throw TypeError (runner_of artifact);
               call (RunnerRunAction r data (Some isStreaming))
           | _ => mret tt
           end);;
          call (EdUpdateFile fullPath content);;
          if isStreaming then mret tt
          else
            resetCurrentDocument;;
            r ← or_throw TypeError (runner_of artifact);
            call (RunnerRunAction r data None)
      | ShellAction _ =>
          r ← or_throw TypeError (runner_of artifact);
          call (RunnerRunAction r data None)
      end
  end.

End Methods.

(** ** Archives, synchronisation, backup and restore *)

Section Archives.
Context `{Host}.

(** [for (let i = 0; i < pathSegments.length - 1; i++)
       currentFolder = currentFolder.folder(pathSegments[i])],
    stopping at a [null] folder. *)
Fixpoint enterFolders (segments : list string) (currentFolder : string)
    (zip : JSZip.Files) : JSZip.Files * option string :=
  match segments with
  | [] => (zip, Some currentFolder)
  | segment :: rest =>
      match JSZip.folder currentFolder segment zip with
      | (zip, Some newFolder) => enterFolders rest newFolder zip
      | (zip, None) => (zip, None)
      end
  end.

(** The body of the loops of [downloadZip] and [exportProject] for one
    text file, under the folder object of root [base]; [None] when a
    folder came out [null]. *)
Definition zipTextFile (base filePath content : string) (zip : JSZip.Files)
    : option JSZip.Files :=
  let relativePath := relativePath filePath in
  let pathSegments := pathSegments relativePath in
  if (1 <? length pathSegments)%nat then
    match enterFolders (take (length pathSegments - 1) pathSegments) base zip with
    | (zip, Some currentFolder) =>
        Some (JSZip.file_put currentFolder
                (default EmptyString (last pathSegments)) content zip)
    | (_, None) => None
    end
  else Some (JSZip.file_put base relativePath content zip).

(** [for (const [filePath, dirent] of Object.entries(files))] *)
Fixpoint zipFiles (base : string) (files : FileMap) (zip : JSZip.Files)
    : option JSZip.Files :=
  match files with
  | [] => Some zip
  | (filePath, dirent) :: rest =>
      match text_file dirent with
      | Some content =>
          match zipTextFile base filePath content zip with
          | Some zip => zipFiles base rest zip
          | None => None
          end
      | None => zipFiles base rest zip
      end
  end.

Definition downloadZip : M unit :=
  files ← call FsFiles;
  zip ← or_throw TypeError (zipFiles EmptyString files []);
  call (SaveAs zip "project.zip").

(** The directory loop of [syncFiles]. *)
Fixpoint enterDirectories (segments : list string) (currentHandle : Handle)
    : M Handle :=
  match segments with
  | [] => mret currentHandle
  | segment :: rest =>
      call (GetDirectoryHandle currentHandle segment);;
      enterDirectories rest (currentHandle ++ [segment])
  end.

Fixpoint syncEntries (targetHandle : Handle) (files : FileMap)
    (syncedFiles : list string) : M (list string) :=
  match files with
  | [] => mret syncedFiles
  | (filePath, dirent) :: rest =>
      match text_file dirent with
      | Some content =>
          let relativePath := relativePath filePath in
          let pathSegments := pathSegments relativePath in
          currentHandle ←
            enterDirectories (take (length pathSegments - 1) pathSegments)
              targetHandle;
          let name := default EmptyString (last pathSegments) in
          let fileHandle := currentHandle ++ [name] in
          call (GetFileHandle currentHandle name);;
          call (CreateWritable fileHandle);;
          call (WritableWrite fileHandle content);;
          call (WritableClose fileHandle);;
          syncEntries targetHandle rest (syncedFiles ++ [relativePath])
      | None => syncEntries targetHandle rest syncedFiles
      end
  end.

Definition syncFiles (targetHandle : Handle) : M (list string) :=
  files ← call FsFiles;
  syncEntries targetHandle files [].

(** [artifact?.title]: the title of an artifact, or of a fragment that
    has one; [undefined] on everything else. *)
Definition title_of (artifact : Js.Property ArtifactObject) : option string :=
  match artifact with
  | Js.Own (Artifact a) => Some (title a)
  | Js.Own (Fragment state) => new_title state
  | _ => None
  end.

(** [this.firstArtifact?.title?.toLowerCase().replace(/\s+/g, '-')
     || 'project'] *)
Definition projectName_of (firstArtifact : Js.Property ArtifactObject) : string :=
  Str.or_else
    (default EmptyString
       ((λ title, Str.replace_space_runs "-" false (Str.toLowerCase title))
          <$> title_of firstArtifact))
    "project".

(** [iso.replace(/[:\-T]/g, '').split('.')[0]] *)
Definition datetime_of (iso : string) : string :=
  default EmptyString
    (head (Str.split "."
             (Str.remove_all
                (λ c, Ascii.eqb c ":" || Ascii.eqb c "-" || Ascii.eqb c "T")
                iso))).

Definition metadata_of (exportDate projectName : string) : JsValue :=
  JObj [("exportDate", JStr exportDate); ("version", JStr "1.0");
        ("projectName", JStr projectName)].

Definition exportProject : M unit :=
  try_catch
    (files ← call FsFiles;
     first ← firstArtifact;
     let projectName := projectName_of first in
     now ← call DateNow;
     let datetime := datetime_of now in
     let filename := "backup-" +:+ projectName +:+ "-" +:+ datetime +:+ ".zip" in
     let '(zip, codeFolder) := JSZip.folder EmptyString "code" [] in
     codeFolder ← or_throw (Error "Failed to create code folder") codeFolder;
     zip ← or_throw (Error "Failed to create folder") (zipFiles codeFolder files zip);
     db ← call Db;
     zip ← (if (db : bool) then
              chatHistory ← call DbGetAll;
              match chatHistory with
              | Some chatHistory =>
                  mret (JSZip.file_put EmptyString "chat_history.json"
                          (JSON_stringify (JArr chatHistory)) zip)
              | None =>
                  call (Toast toast_error "Failed to export chat history");;
                  mret zip
              end
            else mret zip);
     exportDate ← call DateNow;
     let zip := JSZip.file_put EmptyString "metadata.json"
                  (JSON_stringify (metadata_of exportDate projectName)) zip in
     call (SaveAs zip filename);;
     call (Toast toast_success "Project exported successfully"))
    (λ _, call (Toast toast_error "Failed to export project")).

(** The loop of [setDocuments]: select the first file. *)
Fixpoint selectFirstFile (files : FileMap) : M unit :=
  match files with
  | [] => mret tt
  | (filePath, Some (DFile _)) :: _ => setSelectedFile (Some filePath)
  | _ :: rest => selectFirstFile rest
  end.

Definition setDocuments (files : FileMap) : M unit :=
  call (EdSetDocuments files);;
  filesCount ← call FsFilesCount;
  if (0 <? (filesCount : nat))%nat then
    currentDocument ← call EdCurrentDocument;
    match currentDocument with
    | None => selectFirstFile files
    | Some _ => mret tt
    end
  else mret tt.

(** [for (const item of existingHistory) await deleteById(db, item.id)] *)
Fixpoint clearHistory (existingHistory : list JsValue) : M unit :=
  match existingHistory with
  | [] => mret tt
  | item :: rest =>
      id ← or_throw TypeError (Js.get "id" item);
      deleted ← call (DbDeleteById id);
      if (deleted : bool) then clearHistory rest else throw Rejected
  end.

(** [for (const item of chatHistoryJson) await setMessages(db, item.id,
    item.messages, item.urlId, item.description)] *)
Fixpoint restoreHistory (chatHistoryJson : list JsValue) : M unit :=
  match chatHistoryJson with
  | [] => mret tt
  | item :: rest =>
      id ← or_throw TypeError (Js.get "id" item);
      messages ← or_throw TypeError (Js.get "messages" item);
      urlId ← or_throw TypeError (Js.get "urlId" item);
      description ← or_throw TypeError (Js.get "description" item);
      stored ← call (DbSetMessages id messages urlId description);
      if (stored : bool) then restoreHistory rest else throw Rejected
  end.

(** The first inner [try] block of [importProjectBackup].  The logging
    of [chatHistoryJson.length] throws on [null]. *)
Definition restoreChatHistory (chatHistoryContent : string) : M unit :=
  chatHistoryJson ← or_throw SyntaxError (JSON_parse chatHistoryContent);
  (if Js.nullish chatHistoryJson then throw TypeError else mret tt);;
  match Js.as_array chatHistoryJson with
  | Some items =>
      db ← call Db;
      if (db : bool) then
        existingHistory ← call DbGetAll;
        existingHistory ← or_throw Rejected existingHistory;
        clearHistory existingHistory;;
        restoreHistory items
      else mret tt
  | None => mret tt
  end.

(** [for (const [path, zipEntry] of entries)], for the entries that
    [Object.entries(files)] gives: a failure of a write is caught and
    logged by the source, and the loop goes on. *)
Fixpoint restoreEntries (entries : JSZip.Files) : M unit :=
  match entries with
  | [] => mret tt
  | (path, JSZip.ZipDir) :: rest => restoreEntries rest
  | (path, JSZip.ZipFile content) :: rest =>
      let cleanPath := Str.drop_leading_slashes path in
      let fullPath := "/home/project/" +:+ cleanPath in
      let parentDir := default EmptyString (Str.before_last_slash fullPath) in
      (if String.eqb parentDir "/home/project" then mret tt
       else call (WcMkdir parentDir true));;
      call (WcWriteFile fullPath content);;
      restoreEntries rest
  end.

(** The second inner [try] block; [codeFolder.files] is the table of
    the whole archive. *)
Definition restoreCodeFiles (zip : JSZip.Files) : M unit :=
  call (WcRm "/home/project");;
  call (WcMkdir "/home/project" false);;
  restoreEntries (JSZip.entries zip);;
  files ← call FsFiles;
  setDocuments files;;
  call (Toast toast_success "Project restored successfully");;
  call ReloadLater.

Definition importProjectBackup (file : UploadedFile) : M unit :=
  try_catch
    (zip ← or_throw Rejected (file_archive file);
     let metadata := JSZip.file_get EmptyString "metadata.json" zip in
     let chatHistory := JSZip.file_get EmptyString "chat_history.json" zip in
     let '(zip, codeFolder) := JSZip.folder EmptyString "code" zip in
     match metadata, chatHistory, codeFolder with
     | Some metadata, Some chatHistory, Some codeFolder =>
         metadataJson ← or_throw SyntaxError (JSON_parse metadata);
         version ← or_throw TypeError (Js.get "version" metadataJson);
         if negb (Js.truthy version) then
           call (Toast toast_error "Invalid backup metadata")
         else
           exportDate ← or_throw TypeError (Js.get "exportDate" metadataJson);
           if negb (Js.truthy exportDate) then
             call (Toast toast_error "Invalid backup metadata")
           else
             call (Toast toast_info "Starting project restore...");;
             restored ←
               try_catch (restoreChatHistory chatHistory;; mret true)
                 (λ _, call (Toast toast_error "Failed to restore chat history");;
                       mret false);
             if (restored : bool) then
               try_catch (restoreCodeFiles zip)
                 (λ _, call (Toast toast_error
                   "Failed to restore project files. Check console for details."))
             else mret tt
     | _, _, _ => call (Toast toast_error "Invalid backup file format")
     end)
    (λ _, call (Toast toast_error "Failed to restore project backup")).

End Archives.

(** ** A reference host

    Collaborators that behave as plainly as their names promise, to run
    the methods on concrete data: an editor whose current document is
    the selected one, a files store that is a list of entries, runners
    numbered in the order of their creation, and a database that is a
    list of chats.  [JSON.parse] is given as a table of the texts it is
    asked about. *)

Module Ref.

Record State := {
  documents : gmap string EditorDocument;
  selectedFile : option string;
  files : FileMap;
  workdir : string;
  runners : nat;
  db : option (list JsValue);
  now : string
}.

Definition set_documents d (w : State) :=
  {| documents := d; selectedFile := selectedFile w; files := files w;
     workdir := workdir w; runners := runners w; db := db w; now := now w |}.

Definition set_selectedFile s (w : State) :=
  {| documents := documents w; selectedFile := s; files := files w;
     workdir := workdir w; runners := runners w; db := db w; now := now w |}.

Definition set_files f (w : State) :=
  {| documents := documents w; selectedFile := selectedFile w; files := f;
     workdir := workdir w; runners := runners w; db := db w; now := now w |}.

Definition set_runners n (w : State) :=
  {| documents := documents w; selectedFile := selectedFile w; files := files w;
     workdir := workdir w; runners := n; db := db w; now := now w |}.

Definition set_db d (w : State) :=
  {| documents := documents w; selectedFile := selectedFile w; files := files w;
     workdir := workdir w; runners := runners w; db := d; now := now w |}.

Fixpoint lookup_file (filePath : string) (files : FileMap) : option File :=
  match files with
  | [] => None
  | (p, dirent) :: rest =>
      if String.eqb p filePath then
        match dirent with Some (DFile f) => Some f | _ => None end
      else lookup_file filePath rest
  end.

Fixpoint write_file (filePath content : string) (files : FileMap) : FileMap :=
  match files with
  | [] => [(filePath, Some (DFile {| content := content; isBinary := false |}))]
  | (p, dirent) :: rest =>
      if String.eqb p filePath
      then (p, Some (DFile {| content := content; isBinary := false |})) :: rest
      else (p, dirent) :: write_file filePath content rest
  end.

Definition documents_of (files : FileMap) : gmap string EditorDocument :=
  foldr (λ '(p, dirent) docs,
           match dirent with
           | Some (DFile f) => <[p := {| value := content f; doc_filePath := p |}]> docs
           | _ => docs
           end) ∅ files.

Definition currentDocument (w : State) : option EditorDocument :=
  match selectedFile w with
  | Some p => if Str.truthy p then documents w !! p else None
  | None => None
  end.

Definition updateFile (filePath newContent : string) (w : State) : State :=
  match documents w !! filePath with
  | Some d =>
      set_documents
        (<[filePath := {| value := newContent; doc_filePath := doc_filePath d |}]>
           (documents w)) w
  | None => w
  end.

Definition same_id (a b : JsValue) : bool :=
  match a, b with
  | JStr s, JStr t => String.eqb s t
  | JNum n, JNum m => (n =? m)%Z
  | _, _ => false
  end.

Definition fields_of (v : JsValue) : list (string * JsValue) :=
  match v with JObj fields => fields | _ => [] end.

Definition io (c : Call) : State → Reply c * State :=
  match c return State → Reply c * State with
  | EdCurrentDocument => λ w, (currentDocument w, w)
  | EdSelectedFile => λ w, (selectedFile w, w)
  | EdDocuments => λ w, (documents w, w)
  | EdUpdateFile filePath newContent => λ w, (tt, updateFile filePath newContent w)
  | EdSetSelectedFile filePath => λ w, (tt, set_selectedFile filePath w)
  | EdSetDocuments files => λ w, (tt, set_documents (documents_of files) w)
  | FsFiles => λ w, (files w, w)
  | FsFilesCount =>
      λ w, (length (filter (λ e, is_Some (lookup_file e.1 [e])) (files w)), w)
  | FsGetFile filePath => λ w, (lookup_file filePath (files w), w)
  | FsSaveFile filePath content =>
      λ w, (tt, match content with
                | Some content => set_files (write_file filePath content (files w)) w
                | None => w
                end)
  | NewActionRunner => λ w, (runners w, set_runners (S (runners w)) w)
  | RunnerAddAction _ _ => λ w, (tt, w)
  | RunnerRunAction _ _ _ => λ w, (tt, w)
  | WcWorkdir => λ w, (workdir w, w)
  | WcRm path =>
      λ w, (tt, set_files
                  (filter (λ e, String.prefix path e.1 = false) (files w)) w)
  | WcMkdir path _ =>
      λ w, (tt, if bool_decide (path ∈ (files w).*1) then w
                else set_files (files w ++ [(path, Some DFolder)]) w)
  | WcWriteFile path content =>
      λ w, (tt, set_files (write_file path content (files w)) w)
  | GetDirectoryHandle _ _ => λ w, (tt, w)
  | GetFileHandle _ _ => λ w, (tt, w)
  | CreateWritable _ => λ w, (tt, w)
  | WritableWrite _ _ => λ w, (tt, w)
  | WritableClose _ => λ w, (tt, w)
  | Db => λ w, (bool_decide (is_Some (db w)), w)
  | DbGetAll => λ w, (db w, w)
  | DbDeleteById id =>
      λ w, (bool_decide (is_Some (db w)),
            set_db (filter (λ chat, same_id id (Js.assoc "id" (fields_of chat)) = false)
                    <$> db w) w)
  | DbSetMessages id messages urlId description =>
      λ w, (bool_decide (is_Some (db w)),
            set_db ((λ chats, chats ++
                       [JObj [("id", id); ("messages", messages);
                              ("urlId", urlId); ("description", description)]])
                    <$> db w) w)
  | DateNow => λ w, (now w, w)
  | SaveAs _ _ => λ w, (tt, w)
  | Toast _ _ => λ w, (tt, w)
  | ReloadLater => λ w, (tt, w)
  end.

Fixpoint parse (table : list (string * JsValue)) (text : string) : option JsValue :=
  match table with
  | [] => None
  | (t, v) :: rest => if String.eqb t text then Some v else parse rest text
  end.

(** A compact printer, without escapes. *)
Fixpoint print (v : JsValue) : string :=
  match v with
  | JUndefined | JNull => "null"
  | JBool true => "true"
  | JBool false => "false"
  | JNum n => pretty n
  | JStr s => "'" +:+ s +:+ "'"
  | JArr items => "[" +:+ Str.join "," (map print items) +:+ "]"
  | JObj fields =>
      "{" +:+ Str.join "," (map (λ '(k, v), k +:+ ":" +:+ print v) fields) +:+ "}"
  end.

End Ref.

Definition ref_host (table : list (string * JsValue)) : Host :=
  {| World := Ref.State; io := Ref.io;
     nodePath_join := λ a b, a +:+ "/" +:+ b;
     JSON_parse := Ref.parse table;
     JSON_stringify := Ref.print |}.

(** ** Statements *)

(** The invariant of the artifact registry: the id list has no
    duplicates and lists keys of the artifacts object only. *)
Definition artifacts_wf (wb : WorkbenchStore) : Prop :=
  NoDup (artifactIdList wb) ∧
  ∀ id, id ∈ artifactIdList wb → is_Some (artifacts wb !! id).

(** A run that throws 'Artifact not found' at once: no call is made and
    the store is as it was. *)
Definition artifact_not_found `{Host} {A} (m : M A)
    (wb : WorkbenchStore) (w : World) : Prop :=
  exec m wb w = (Threw (Unreachable "Artifact not found"), wb, w, []).

(** What [addArtifact] does: nothing when the artifacts object has a
    property of the name of the message, its own or an inherited one;
    otherwise the message is listed and an artifact is registered. *)
Definition addArtifact_spec `{Host} (data : ArtifactCallbackData)
    (wb : WorkbenchStore) (w : World) : Prop :=
  let r := exec (addArtifact data) wb w in
  let messageId := a_messageId data in
  outcome_of r = Returned tt ∧
  (is_Some (artifacts wb !! messageId) ∨ messageId ∈ Js.Object_prototype →
     store_of r = wb ∧ world_of r = w ∧ calls_of r = []) ∧
  (artifacts wb !! messageId = None → messageId ∉ Js.Object_prototype →
     artifactIdList (store_of r) = artifactIdList wb ++ [messageId] ∧
     artifacts (store_of r) =
       <[messageId := Artifact {| id := a_id data; title := a_title data;
                                  closed := false;
                                  runner := (io NewActionRunner w).1 |}]>
         (artifacts wb) ∧
     calls_of r = [NewActionRunner]) ∧
  artifacts_wf (store_of r) ∧
  (∀ again, a_messageId again = messageId →
     exec (addArtifact again) (store_of r) (world_of r)
     = (Returned tt, store_of r, world_of r, [])).

(** The world in which [setCurrentDocumentContent] reads the current
    document again: after the first reading, the lookup of [p] in the
    files store and the update of the editor. *)
Definition after_updateFile `{Host} (p newContent : string) (w : World) : World :=
  let w1 := (io EdCurrentDocument w).2 in
  let w2 := (io (FsGetFile p) w1).2 in
  (io (EdUpdateFile p newContent) w2).2.

(** After [setCurrentDocumentContent(newContent)], [p] is unsaved exactly
    when the files store has a saved content for it that differs from
    [newContent]; the other paths are as before. *)
Definition tracks_unsaved `{Host} (newContent p : string)
    (wb : WorkbenchStore) (w : World) : Prop :=
  let r := exec (setCurrentDocumentContent newContent) wb w in
  let saved := (io (FsGetFile p) (io EdCurrentDocument w).2).1 in
  (p ∈ unsavedFiles (store_of r) ↔
     ∃ file, saved = Some file ∧ content file ≠ newContent) ∧
  (∀ other, other ≠ p →
     (other ∈ unsavedFiles (store_of r) ↔ other ∈ unsavedFiles wb)).

(** The calls that reach an action runner. *)
Definition is_runner_call (c : Call) : bool :=
  match c with
  | NewActionRunner | RunnerAddAction _ _ | RunnerRunAction _ _ _ => true
  | _ => false
  end.

(** What [runAction] does for an action of a registered artifact: the two
    branches of the dispatch on the action's tag.  The editor has a
    document for a path when its documents object has a property of that
    name, its own or an inherited one. *)
Definition runAction_spec `{Host} (data : ActionCallbackData) (isStreaming : bool)
    (artifact : ArtifactState) (wb : WorkbenchStore) (w : World) : Prop :=
  let r := exec (runAction data isStreaming) wb w in
  outcome_of r = Returned tt ∧
  artifacts (store_of r) = artifacts wb ∧
  artifactIdList (store_of r) = artifactIdList wb ∧
  (∀ c, c ∈ calls_of r → is_runner_call c = true →
     ∃ streaming, c = RunnerRunAction (runner artifact) data streaming) ∧
  match action data with
  | ShellAction _ =>
      store_of r = wb ∧
      calls_of r = [RunnerRunAction (runner artifact) data None]
  | FileAction filePath content =>
      let fullPath := nodePath_join (io WcWorkdir w).1 filePath in
      let w1 := (io WcWorkdir w).2 in
      let selected := (io EdSelectedFile w1).1 in
      let w2 := (io EdSelectedFile w1).2 in
      let w3 := if bool_decide (selected = Some fullPath) then w2
                else (io (EdSetSelectedFile (Some fullPath)) w2).2 in
      let documents := (io EdDocuments w3).1 in
      (selected = Some fullPath ∨
       EdSetSelectedFile (Some fullPath) ∈ calls_of r) ∧
      currentView (store_of r) = code ∧
      EdUpdateFile fullPath content ∈ calls_of r ∧
      ((∃ streaming,
          RunnerRunAction (runner artifact) data streaming ∈ calls_of r) ↔
       ((documents !! fullPath = None ∧ fullPath ∉ Js.Object_prototype)
        ∨ isStreaming = false))
  end.

(** A run that returns, reaches no runner and leaves the registry and the
    current view alone. *)
Definition quiet `{Host} (wb : WorkbenchStore)
    (r : Outcome () * WorkbenchStore * World * list Call) : Prop :=
  outcome_of r = Returned tt ∧
  artifacts (store_of r) = artifacts wb ∧
  artifactIdList (store_of r) = artifactIdList wb ∧
  currentView (store_of r) = currentView wb ∧
  Forall (λ c, is_runner_call c = false) (calls_of r).

(** *** The words of the documentation about files

    The statements about the files of the store do not go through the
    helpers of the methods: they say what a non-binary file, a path
    without its prefix and the segments of a path are in terms of the
    constructors and of the concatenation of strings. *)

(** The entries of the files store that are of type 'file' and not
    binary, each with its content, in the order of the store. *)
Definition non_binary_files (files : FileMap) : list (string * string) :=
  files ≫= (λ entry,
              match entry.2 with
              | Some (DFile {| content := content; isBinary := false |}) =>
                  [(entry.1, content)]
              | _ => []
              end).

(** [relative] is [filePath] with a leading '/home/project/' removed. *)
Definition prefix_removed (filePath relative : string) : Prop :=
  filePath = "/home/project/" +:+ relative
  ∨ (relative = filePath ∧ ∀ rest, filePath ≠ "/home/project/" +:+ rest).

Definition no_slash (segment : string) : Prop :=
  "/"%char ∉ list_ascii_of_string segment.

(** The segments of a path: the strings without a slash that give the
    path when they are joined by slashes. *)
Definition segments_of (path : string) (segments : list string) : Prop :=
  segments ≠ [] ∧ Forall no_slash segments ∧ String.concat "/" segments = path.

(** A path of a file of the project: '/home/project/' and then segments
    that are not empty, separated by slashes. *)
Definition project_file (filePath : string) (segments : list string) : Prop :=
  segments ≠ [] ∧
  Forall (λ segment, segment ≠ EmptyString ∧ no_slash segment) segments ∧
  filePath = "/home/project/" +:+ String.concat "/" segments.

(** The entries of the files store hold each path once, as the entries
    of an object do, and its non-binary files are files of the project. *)
Definition files_in_project (files : FileMap) : Prop :=
  NoDup files.*1 ∧
  Forall (λ entry, ∃ segments, project_file entry.1 segments)
         (non_binary_files files).

(** The directory handles that a run asked for, with [create: true]. *)
Definition directories_of (calls : list Call) : list Handle :=
  omap (λ c, match c with
             | GetDirectoryHandle parent name => Some (parent ++ [name])
             | _ => None
             end) calls.

(** The contents that a run wrote, each with the handle of its file. *)
Definition writes_of (calls : list Call) : list (Handle * string) :=
  omap (λ c, match c with
             | WritableWrite file content => Some (file, content)
             | _ => None
             end) calls.

(** The directories above a file of the given segments: every proper,
    non-empty prefix, outermost first. *)
Definition intermediate_directories (targetHandle : Handle)
    (segments : list string) : list Handle :=
  (λ n, targetHandle ++ take (S n) segments) <$> seq 0 (length segments - 1).

(** The calls that write one file of the given segments: the directories
    on the way, outermost first, and then the file. *)
Fixpoint directory_calls (currentHandle : Handle) (segments : list string) : list Call :=
  match segments with
  | [] => []
  | segment :: rest =>
      GetDirectoryHandle currentHandle segment
      :: directory_calls (currentHandle ++ [segment]) rest
  end.

Definition entry_calls (targetHandle : Handle) (segments : list string)
    (content : string) : list Call :=
  let directories := take (length segments - 1) segments in
  let name := default EmptyString (last segments) in
  let fileHandle := targetHandle ++ segments in
  directory_calls targetHandle directories
  ++ [GetFileHandle (targetHandle ++ directories) name;
      CreateWritable fileHandle;
      WritableWrite fileHandle content;
      WritableClose fileHandle].

(** What [syncFiles] returns and does: [paths] are the paths of the
    non-binary files without the prefix, one for each file and in the
    order of the store, and [segments] are the segments of each. *)
Definition syncFiles_spec `{Host} (targetHandle : Handle)
    (wb : WorkbenchStore) (w : World) : Prop :=
  let r := exec (syncFiles targetHandle) wb w in
  let entries := non_binary_files (io FsFiles w).1 in
  ∃ (paths : list string) (segments : list (list string)),
    Forall2 (λ entry path, prefix_removed entry.1 path) entries paths ∧
    Forall2 segments_of paths segments ∧
    outcome_of r = Returned paths ∧
    store_of r = wb ∧
    calls_of r =
      FsFiles :: mjoin (zip_with (entry_calls targetHandle) segments entries.*2) ∧
    writes_of (calls_of r) =
      zip_with (λ segments content, (targetHandle ++ segments, content))
               segments entries.*2 ∧
    directories_of (calls_of r) =
      segments ≫= intermediate_directories targetHandle.

(** The file entries of an archive, with their data, in the order of
    their creation. *)
Definition files_of (zip : JSZip.Files) : list (string * string) :=
  omap (λ '(name, o), match o with
                      | JSZip.ZipFile data => Some (name, data)
                      | JSZip.ZipDir => None
                      end) zip.

(** [name] is the entry of a folder above the file [filePath] of the
    project, in an archive that holds the files of the project under
    [base]: [base], a proper and non-empty prefix of the segments of the
    file joined by slashes, and a slash. *)
Definition folder_above (base filePath name : string) : Prop :=
  ∃ (segments : list string) (n : nat),
    Forall no_slash segments ∧
    filePath = "/home/project/" +:+ String.concat "/" segments ∧
    (0 < n < length segments)%nat ∧
    name = base +:+ String.concat "/" (take n segments) +:+ "/".

(** The archive that [downloadZip] saves: one file entry for each
    non-binary file, named by the path without the prefix and holding the
    content, and one folder entry for each folder above such a file. *)
Definition downloadZip_spec `{Host} (wb : WorkbenchStore) (w : World) : Prop :=
  let r := exec downloadZip wb w in
  let entries := non_binary_files (io FsFiles w).1 in
  ∃ zip,
    outcome_of r = Returned tt ∧ store_of r = wb ∧
    calls_of r = [FsFiles; SaveAs zip "project.zip"] ∧
    NoDup zip.*1 ∧
    length (files_of zip) = length entries ∧
    (∀ name data,
       JSZip.lookup name zip = Some (JSZip.ZipFile data) ↔
       (("/home/project/" +:+ name)%string, data) ∈ entries) ∧
    (∀ name,
       JSZip.lookup name zip = Some JSZip.ZipDir ↔
       ∃ filePath data,
         (filePath, data) ∈ entries ∧ folder_above EmptyString filePath name).

(** *** The helpers of the methods, for the proofs *)

(** The entries that the loops over the files store keep. *)
Definition text_entries (files : FileMap) : list (string * string) :=
  omap (λ '(filePath, dirent), (λ content, (filePath, content)) <$> text_file dirent)
       files.

Definition is_project_path (filePath : string) : bool :=
  match Str.drop_prefix "/home/project/" filePath with
  | Some rel => forallb Str.truthy (pathSegments rel)
  | None => false
  end.

Definition FileMap_wf (files : FileMap) : Prop :=
  NoDup files.*1 ∧
  Forall (λ entry, is_project_path entry.1 = true) (text_entries files).

(** The folder names above a file: for the segments a, b, c the names
    'a/' and 'a/b/', under the root [base]. *)
Definition folder_prefix (segments : list string) : string :=
  foldr (λ segment rest, segment +:+ "/" +:+ rest) EmptyString segments.

Definition folder_names (base : string) (segments : list string) : list string :=
  (λ n, base +:+ folder_prefix (take (S n) segments))
    <$> seq 0 (length segments - 1).

(** The invariant of an archive built by the store: the names that end
    with a slash are the folders, and no name occurs twice. *)
Definition zip_inv (zip : JSZip.Files) : Prop :=
  Forall (λ e, Str.ends_with_slash e.1 = JSZip.is_dir e.2) zip ∧ NoDup zip.*1.

(** [zip'] has the files of [zip] and at least its folders. *)
Definition same_files (zip zip' : JSZip.Files) : Prop :=
  zip_inv zip' ∧ files_of zip' = files_of zip ∧
  ∀ name, JSZip.lookup name zip = Some JSZip.ZipDir →
          JSZip.lookup name zip' = Some JSZip.ZipDir.

(** A segment of a path: not empty and without a slash. *)
Definition segment_ok (segment : string) : Prop :=
  segment ≠ EmptyString ∧ Str.has_char "/" segment = false.

(** The root of a folder object of an archive: the archive itself, or
    a folder that the archive holds. *)
Definition root_ok (root : string) (zip : JSZip.Files) : Prop :=
  root = EmptyString ∨
  ∃ r, root = r +:+ "/" ∧ Str.ends_with_slash r = false ∧
       JSZip.lookup root zip = Some JSZip.ZipDir.

(** The folders of [zip'] are folders of [zip] or are among [names]. *)
Definition new_folders_in (zip zip' : JSZip.Files) (names : list string) : Prop :=
  ∀ name, JSZip.lookup name zip' = Some JSZip.ZipDir →
          JSZip.lookup name zip = Some JSZip.ZipDir ∨ name ∈ names.

(** *** Backup *)

(** The project name in the words of the documentation: the first
    artifact's title lowercased with white-space runs replaced by '-', or
    'project' when there is no artifact. *)
Definition documented_projectName (first : option ArtifactObject) : string :=
  match first with
  | Some (Artifact a) => Str.replace_space_runs "-" false (Str.toLowerCase (title a))
  | _ => "project"
  end.

(** The project name of a title: the title in lower case with every run
    of white space replaced by '-', and 'project' when that is empty. *)
Definition name_of_title (title : string) : string :=
  let name := Str.replace_space_runs "-" false (Str.toLowerCase title) in
  if String.eqb name EmptyString then "project" else name.

(** The archive that [exportProject] saves, and its name. *)
Definition exportProject_spec `{Host} (wb : WorkbenchStore) (w : World) : Prop :=
  let r := exec exportProject wb w in
  let entries := non_binary_files (io FsFiles w).1 in
  let firstId := default "undefined" (artifactIdList wb !! 0%nat) in
  let w1 := (io FsFiles w).2 in
  let now := (io DateNow w1).1 in
  let w2 := (io DateNow w1).2 in
  let db := (io Db w2).1 in
  let chatHistory := if db then (io DbGetAll (io Db w2).2).1 else None in
  ∃ projectName zip exportDate,
    match artifacts wb !! firstId with
    | Some (Artifact first) => projectName = name_of_title (title first)
    | Some (Fragment {| new_title := Some title |}) =>
        projectName = name_of_title title
    | _ => projectName = "project"
    end ∧
    outcome_of r = Returned tt ∧ store_of r = wb ∧
    (∀ archive name,
       SaveAs archive name ∈ calls_of r ↔
       archive = zip ∧
       name = "backup-" +:+ projectName +:+ "-" +:+ datetime_of now +:+ ".zip") ∧
    Toast toast_success "Project exported successfully" ∈ calls_of r ∧
    NoDup zip.*1 ∧
    JSZip.lookup "code/" zip = Some JSZip.ZipDir ∧
    (∀ name data,
       JSZip.lookup name zip = Some (JSZip.ZipFile data) ↔
       (∃ relative,
          name = "code/" +:+ relative ∧
          (("/home/project/" +:+ relative)%string, data) ∈ entries)
       ∨ (name = "metadata.json" ∧
          data = JSON_stringify
                   (JObj [("exportDate", JStr exportDate); ("version", JStr "1.0");
                          ("projectName", JStr projectName)]))
       ∨ (name = "chat_history.json" ∧
          ∃ chats, chatHistory = Some chats ∧ data = JSON_stringify (JArr chats))).

(** A run of the import that stops with one error notification and
    nothing else: no call to the database, the webcontainer or the
    editor. *)
Definition rejected_with `{Host} (message : string) (file : UploadedFile)
    (wb : WorkbenchStore) (w : World) : Prop :=
  let r := exec (importProjectBackup file) wb w in
  outcome_of r = Returned tt ∧ store_of r = wb ∧
  calls_of r = [Toast toast_error message].

(** ** Concrete data *)

Module Demo.

Definition files : FileMap :=
  [("/home/project/src", Some DFolder);
   ("/home/project/src/App.tsx",
    Some (DFile {| content := "export default App"; isBinary := false |}));
   ("/home/project/logo.png",
    Some (DFile {| content := EmptyString; isBinary := true |}));
   ("/home/project/package.json",
    Some (DFile {| content := "{}"; isBinary := false |}))].

Definition chat : JsValue :=
  JObj [("id", JStr "chat-1"); ("urlId", JStr "todo-app");
        ("description", JStr "Todo App"); ("messages", JArr [])].

Definition host : Host := ref_host [].

Definition world : @World host :=
  {| Ref.documents := Ref.documents_of files;
     Ref.selectedFile := Some "/home/project/src/App.tsx";
     Ref.files := files;
     Ref.workdir := "/home/project";
     Ref.runners := 0;
     Ref.db := Some [chat];
     Ref.now := "2024-01-02T03:04:05.678Z" |}.

Definition artifact_data : ArtifactCallbackData :=
  {| a_messageId := "msg-1"; a_title := "Todo App"; a_id := "todo-app" |}.

Definition artifact : ArtifactState :=
  {| id := "todo-app"; title := "Todo App"; closed := false; runner := 0 |}.

(** A store with one artifact, registered under 'msg-1'. *)
Definition store : WorkbenchStore :=
  {| artifacts := {["msg-1" := Artifact artifact]}; showWorkbench := true;
     currentView := preview; unsavedFiles := ∅;
     artifactIdList := ["msg-1"] |}.

Definition shell_action : ActionCallbackData :=
  {| artifactId := "todo-app"; messageId := "msg-1"; actionId := "0";
     action := ShellAction "npm install" |}.

Definition file_action : ActionCallbackData :=
  {| artifactId := "todo-app"; messageId := "msg-1"; actionId := "1";
     action := FileAction "src/App.tsx" "export default Todo" |}.

(** An action of a message that has no artifact. *)
Definition stray_action : ActionCallbackData :=
  {| artifactId := "other"; messageId := "msg-2"; actionId := "0";
     action := ShellAction "ls" |}.

(** A message whose id is the name of a property of [Object.prototype],
    and an action of it. *)
Definition inherited_data : ArtifactCallbackData :=
  {| a_messageId := "constructor"; a_title := "Notes"; a_id := "notes" |}.

Definition inherited_action : ActionCallbackData :=
  {| artifactId := "notes"; messageId := "constructor"; actionId := "0";
     action := ShellAction "ls" |}.

(** A store in which the path 'constructor' is marked unsaved. *)
Definition marked : WorkbenchStore :=
  {| artifacts := ∅; showWorkbench := true; currentView := code;
     unsavedFiles := {["constructor"]}; artifactIdList := [] |}.

(** A store whose first artifact has an empty title. *)
Definition untitled : WorkbenchStore :=
  {| artifacts := {["msg-1" := Artifact {| id := "a"; title := EmptyString;
                                           closed := false; runner := 0 |}]};
     showWorkbench := true; currentView := code; unsavedFiles := ∅;
     artifactIdList := ["msg-1"] |}.

Definition quote (s : string) : string :=
  String "034" (s +:+ String "034" EmptyString).

(** The text of a metadata.json. *)
Definition metadata_text : string :=
  "{" +:+ quote "exportDate" +:+ ":" +:+ quote "2024-01-02T03:04:05.678Z" +:+ ","
  +:+ quote "version" +:+ ":" +:+ quote "1.0" +:+ ","
  +:+ quote "projectName" +:+ ":" +:+ quote "project" +:+ "}".

(** The file name that the documentation promises for an export at the
    instant [now]. *)
Definition documented_filename (wb : WorkbenchStore) (now : string) : string :=
  "backup-"
  +:+ documented_projectName
        (artifacts wb !! default "undefined" (artifactIdList wb !! 0%nat))
  +:+ "-" +:+ datetime_of now +:+ ".zip".

Definition json_table : list (string * JsValue) :=
  [(metadata_text, metadata_of "2024-01-02T03:04:05.678Z" "project");
   ("[]", JArr [])].

(** A backup archive with metadata.json and chat_history.json and
    without a code folder. *)
Definition backup_without_code : UploadedFile :=
  {| file_name := "backup.zip";
     file_archive :=
       Some [("metadata.json", JSZip.ZipFile metadata_text);
             ("chat_history.json", JSZip.ZipFile "[]")] |}.

(** The host that reads the two texts of that archive. *)
Definition restore_host : Host := ref_host json_table.

Definition restore_world : @World restore_host := world.

(** A host whose database is open and fails to be read. *)
Definition unreadable_host : Host :=
  {| World := Ref.State;
     io := λ c, match c return Ref.State → Reply c * Ref.State with
                | DbGetAll => λ w, (None, w)
                | c => Ref.io c
                end;
     nodePath_join := λ a b, a +:+ "/" +:+ b;
     JSON_parse := Ref.parse [];
     JSON_stringify := Ref.print |}.

Definition unreadable_world : @World unreadable_host := world.

(** A files store with a file of the project and a file of the same
    name outside of it. *)
Definition overlapping : @World host :=
  Ref.set_files
    [("/home/project/notes.txt",
      Some (DFile {| content := "inside"; isBinary := false |}));
     ("notes.txt",
      Some (DFile {| content := "outside"; isBinary := false |}))]
    world.

(** A files store with one file, whose path has an empty segment. *)
Definition empty_segment : @World host :=
  Ref.set_files
    [("/home/project/docs//notes.txt",
      Some (DFile {| content := "inside"; isBinary := false |}))]
    world.

End Demo.

(** ** More of the store

    The methods of [WorkbenchStore] that compose the ones above. *)

Section Documents.
Context `{Host}.

Definition set_showWorkbench (show : bool) (wb : WorkbenchStore) :=
  {| artifacts := artifacts wb; showWorkbench := show;
     currentView := currentView wb; unsavedFiles := unsavedFiles wb;
     artifactIdList := artifactIdList wb |}.

Definition setShowWorkbench (show : bool) : M unit :=
  modify (set_showWorkbench show).

Definition saveCurrentDocument : M unit :=
  currentDocument ← call EdCurrentDocument;
  match currentDocument with
  | None => mret tt
  | Some currentDocument => saveFile (doc_filePath currentDocument)
  end.

(** [for (const filePath of paths) await this.saveFile(filePath)] *)
Fixpoint saveFiles (paths : list string) : M unit :=
  match paths with
  | [] => mret tt
  | filePath :: rest => saveFile filePath;; saveFiles rest
  end.

(** [saveAllFiles] walks the set that [unsavedFiles] holds when the
    loop starts; [saveFile] replaces the set of the atom by a copy and
    leaves the one being walked alone.  JavaScript enumerates a set in
    the order of insertion, which a [gset] does not record: that order
    is the argument [enumerate]. *)
Definition saveAllFiles (enumerate : gset string → list string) : M unit :=
  wb ← get; saveFiles (enumerate (unsavedFiles wb)).

(** A run of [addArtifact], one call for each artifact that the message
    parser opens. *)
Fixpoint addArtifacts (opened : list ArtifactCallbackData) : M unit :=
  match opened with
  | [] => mret tt
  | data :: rest => addArtifact data;; addArtifacts rest
  end.

End Documents.

(** ** More statements *)

(** [dirent?.type === 'file'] *)
Definition is_file (dirent : option Dirent) : bool :=
  match dirent with Some (DFile _) => true | _ => false end.

(** The first entry of type 'file' of a file map, binary or not. *)
Definition first_file (files : FileMap) : option string :=
  fst <$> List.find (λ entry, is_file entry.2) files.

(** What [setDocuments] does: the editor takes the files, and a file is
    selected when the files store counts a file and the editor has no
    current document. *)
Definition setDocuments_spec `{Host} (files : FileMap)
    (wb : WorkbenchStore) (w : World) : Prop :=
  let r := exec (setDocuments files) wb w in
  let w1 := (io (EdSetDocuments files) w).2 in
  let filesCount := (io FsFilesCount w1).1 in
  let currentDocument := (io EdCurrentDocument (io FsFilesCount w1).2).1 in
  outcome_of r = Returned tt ∧ store_of r = wb ∧
  calls_of r =
    [EdSetDocuments files; FsFilesCount]
    ++ (if (0 <? filesCount)%nat then
          EdCurrentDocument ::
          match currentDocument, first_file files with
          | None, Some filePath => [EdSetSelectedFile (Some filePath)]
          | _, _ => []
          end
        else []).

(** Reading the editor store and the files store changes nothing. *)
Definition reads_change_nothing `{Host} : Prop :=
  ∀ w, (io EdCurrentDocument w).2 = w ∧ (io EdDocuments w).2 = w ∧
       ∀ filePath, (io (FsGetFile filePath) w).2 = w.

(** Saving a file to the files store leaves the editor's documents as
    they are. *)
Definition saving_keeps_documents `{Host} : Prop :=
  ∀ w filePath content,
    (io EdDocuments (io (FsSaveFile filePath content) w).2).1 = (io EdDocuments w).1.

(** The saves of a run, in order: the path and what was handed to the
    files store as the content, a string or [undefined]. *)
Definition saves_of (calls : list Call) : list (string * option string) :=
  omap (λ c, match c with
             | FsSaveFile filePath content => Some (filePath, content)
             | _ => None
             end) calls.

(** What saving a path hands to the files store, given the documents of
    the editor: the value of the document held under the path;
    [undefined] when no document is held under it and the path is the
    name of a property of [Object.prototype]; and for any other path
    there is no save. *)
Definition saved_as (documents : gmap string EditorDocument) (filePath : string)
    : option (string * option string) :=
  match documents !! filePath with
  | Some document => Some (filePath, Some (value document))
  | None =>
      if bool_decide (filePath ∈ Js.Object_prototype) then Some (filePath, None)
      else None
  end.

(** The runs of an action by a runner in a run of the store, in order,
    each with the streaming flag it was given. *)
Definition runs_of (calls : list Call)
    : list (Runner * ActionCallbackData * option bool) :=
  omap (λ c, match c with
             | RunnerRunAction r data isStreaming => Some (r, data, isStreaming)
             | _ => None
             end) calls.

(** The registry lists exactly the registered artifacts, each once. *)
Definition registry_exact (wb : WorkbenchStore) : Prop :=
  NoDup (artifactIdList wb) ∧
  ∀ id, id ∈ artifactIdList wb ↔ is_Some (artifacts wb !! id).

(** What [saveCurrentDocument] saves, and the mark it removes. *)
Definition saveCurrentDocument_spec `{Host} (wb : WorkbenchStore) (w : World) : Prop :=
  let r := exec saveCurrentDocument wb w in
  let documents := (io EdDocuments (io EdCurrentDocument w).2).1 in
  let saved :=
    currentDocument ← (io EdCurrentDocument w).1;
    saved_as documents (doc_filePath currentDocument) in
  outcome_of r = Returned tt ∧
  saves_of (calls_of r) = option_list saved ∧
  unsavedFiles (store_of r) =
    match saved with
    | Some (filePath, _) => unsavedFiles wb ∖ {[filePath]}
    | None => unsavedFiles wb
    end ∧
  (saved = None → store_of r = wb) ∧
  artifacts (store_of r) = artifacts wb ∧
  artifactIdList (store_of r) = artifactIdList wb ∧
  currentView (store_of r) = currentView wb.

(** What [saveAllFiles] saves, and the marks it leaves. *)
Definition saveAllFiles_spec `{Host} (enumerate : gset string → list string)
    (wb : WorkbenchStore) (w : World) : Prop :=
  let r := exec (saveAllFiles enumerate) wb w in
  let documents := (io EdDocuments w).1 in
  outcome_of r = Returned tt ∧
  saves_of (calls_of r) =
    omap (saved_as documents) (enumerate (unsavedFiles wb)) ∧
  (∀ filePath,
     filePath ∈ unsavedFiles (store_of r) ↔
     filePath ∈ unsavedFiles wb ∧ documents !! filePath = None
     ∧ filePath ∉ Js.Object_prototype) ∧
  artifacts (store_of r) = artifacts wb ∧
  artifactIdList (store_of r) = artifactIdList wb ∧
  currentView (store_of r) = currentView wb.

(** What [resetCurrentDocument] does to the current document, of path
    [filePath], whose saved content is [saved]. *)
Definition resetCurrentDocument_spec `{Host} (filePath saved : string)
    (wb : WorkbenchStore) (w : World) : Prop :=
  let r := exec resetCurrentDocument wb w in
  outcome_of r = Returned tt ∧
  calls_of r =
    [EdCurrentDocument; FsGetFile filePath;
     EdCurrentDocument; FsGetFile filePath;
     EdUpdateFile filePath saved; EdCurrentDocument] ∧
  unsavedFiles (store_of r) = unsavedFiles wb ∖ {[filePath]} ∧
  artifacts (store_of r) = artifacts wb ∧
  artifactIdList (store_of r) = artifactIdList wb ∧
  currentView (store_of r) = currentView wb.

(** The runs that [runAction] asks of the runner of the artifact.  The
    editor has a document for a path when its documents object has a
    property of that name, its own or an inherited one. *)
Definition runner_calls_spec `{Host} (data : ActionCallbackData) (isStreaming : bool)
    (artifact : ArtifactState) (wb : WorkbenchStore) (w : World) : Prop :=
  let r := exec (runAction data isStreaming) wb w in
  runs_of (calls_of r) =
    match action data with
    | ShellAction _ => [(runner artifact, data, None)]
    | FileAction filePath _ =>
        let fullPath := nodePath_join (io WcWorkdir w).1 filePath in
        let w1 := (io WcWorkdir w).2 in
        let selected := (io EdSelectedFile w1).1 in
        let w2 := (io EdSelectedFile w1).2 in
        let w3 := if bool_decide (selected = Some fullPath) then w2
                  else (io (EdSetSelectedFile (Some fullPath)) w2).2 in
        match (io EdDocuments w3).1 !! fullPath with
        | None =>
            if bool_decide (fullPath ∈ Js.Object_prototype) then []
            else [(runner artifact, data, Some isStreaming)]
        | Some _ => []
        end
        ++ (if isStreaming then [] else [(runner artifact, data, None)])
    end.

(** What a streamed [runAction] leaves alone. *)
Definition streaming_spec `{Host} (data : ActionCallbackData)
    (wb : WorkbenchStore) (w : World) : Prop :=
  let r := exec (runAction data true) wb w in
  outcome_of r = Returned tt ∧
  unsavedFiles (store_of r) = unsavedFiles wb ∧
  showWorkbench (store_of r) = showWorkbench wb ∧
  artifacts (store_of r) = artifacts wb ∧
  artifactIdList (store_of r) = artifactIdList wb ∧
  currentView (store_of r) = code ∧
  EdCurrentDocument ∉ calls_of r.

(** [addAction] right after [addArtifact] for the same message: the
    action is added to the runner of the artifact that was registered
    before, or of the one that this [addArtifact] registers.  When the
    artifacts object has a property of that name that is not an
    artifact (a fragment left by [updateArtifact], or a property of
    [Object.prototype]), nothing is registered and reading its runner
    fails. *)
Definition added_to_runner `{Host} (opened : ArtifactCallbackData)
    (data : ActionCallbackData) (wb : WorkbenchStore) (w : World) : Prop :=
  let r := exec (addArtifact opened;; addAction data) wb w in
  let new := {| id := a_id opened; title := a_title opened; closed := false;
                runner := (io NewActionRunner w).1 |} in
  match artifacts wb !! messageId data with
  | Some (Artifact known) =>
      outcome_of r = Returned tt ∧ store_of r = wb ∧
      calls_of r = [RunnerAddAction (runner known) data]
  | Some (Fragment _) =>
      outcome_of r = Threw TypeError ∧ store_of r = wb ∧ calls_of r = []
  | None =>
      if bool_decide (messageId data ∈ Js.Object_prototype) then
        outcome_of r = Threw TypeError ∧ store_of r = wb ∧ calls_of r = []
      else
        outcome_of r = Returned tt ∧
        artifacts (store_of r) = <[messageId data := Artifact new]> (artifacts wb) ∧
        calls_of r = [NewActionRunner; RunnerAddAction (runner new) data]
  end.

(** The registry after a run of [addArtifact] calls.  A message whose id
    is the name of a property of [Object.prototype] is not registered:
    [addArtifact] finds the inherited property and returns. *)
Definition registry_extended `{Host} (opened : list ArtifactCallbackData)
    (wb : WorkbenchStore) (w : World) : Prop :=
  let r := exec (addArtifacts opened) wb w in
  outcome_of r = Returned tt ∧
  registry_exact (store_of r) ∧
  artifactIdList wb `prefix_of` artifactIdList (store_of r) ∧
  (∀ id, id ∈ artifactIdList (store_of r) ↔
         id ∈ artifactIdList wb
         ∨ (id ∈ a_messageId <$> opened ∧ id ∉ Js.Object_prototype)) ∧
  (∀ id a, artifacts wb !! id = Some a →
           artifacts (store_of r) !! id = Some a).

(** [firstArtifact] after a run of [addArtifact] calls in the store
    that the constructor makes without hot data. *)
Definition first_is_first_opened `{Host} (first : ArtifactCallbackData)
    (rest : list ArtifactCallbackData) (w : World) : Prop :=
  let r := exec (addArtifacts (first :: rest);; firstArtifact)
             (new_WorkbenchStore None) w in
  outcome_of r =
    Returned (Js.Own (Artifact {| id := a_id first; title := a_title first;
                                  closed := false;
                                  runner := (io NewActionRunner w).1 |})).

(** [addArtifact] and then [firstArtifact] in the store that the
    constructor makes from the hot data [hot]. *)
Definition order_forgotten `{Host} (hot : WorkbenchStore)
    (data : ArtifactCallbackData) (w : World) : Prop :=
  let r := exec (addArtifact data;; firstArtifact)
             (new_WorkbenchStore (Some hot)) w in
  outcome_of r = Returned Js.Undefined ∧
  artifactIdList (store_of r) = [] ∧
  artifacts (store_of r) = artifacts hot.

(** A string of decimal digits. *)
Fixpoint digits (s : string) : bool :=
  match s with
  | EmptyString => true
  | String c rest =>
      (let n := nat_of_ascii c in (48 <=? n) && (n <=? 57))%nat && digits rest
  end.

(** An instant as [toISOString] writes it: the date, 'T', the time, and
    after a dot the milliseconds and the zone. *)
Definition iso_instant (year month day hour minute second rest : string) : string :=
  year +:+ "-" +:+ month +:+ "-" +:+ day +:+ "T"
  +:+ hour +:+ ":" +:+ minute +:+ ":" +:+ second +:+ "." +:+ rest.

(** The calls to the webcontainer's file system and to the persistence
    layer. *)
Definition is_wc_call (c : Call) : bool :=
  match c with
  | WcRm _ | WcMkdir _ _ | WcWriteFile _ _ => true
  | _ => false
  end.

Definition is_db_call (c : Call) : bool :=
  match c with
  | Db | DbGetAll | DbDeleteById _ | DbSetMessages _ _ _ _ => true
  | _ => false
  end.


(** A backup that passes the checks of [importProjectBackup]: an archive
    with a chat_history.json and a metadata.json that is an object with
    a version and an export date. *)
Definition valid_backup `{Host} (file : UploadedFile) (zip : JSZip.Files)
    (chatHistory : string) : Prop :=
  file_archive file = Some zip ∧
  JSZip.file_get EmptyString "chat_history.json" zip = Some chatHistory ∧
  ∃ metadata fields,
    JSZip.file_get EmptyString "metadata.json" zip = Some metadata ∧
    JSON_parse metadata = Some (JObj fields) ∧
    Js.truthy (Js.assoc "version" fields) = true ∧
    Js.truthy (Js.assoc "exportDate" fields) = true.

(** The deletions of the stored chats and the writes of the chats of a
    backup, one call for each item that has the properties read. *)
Definition delete_calls (existingHistory : list JsValue) : list Call :=
  omap (λ item, DbDeleteById <$> Js.get "id" item) existingHistory.

Definition store_calls (chatHistoryJson : list JsValue) : list Call :=
  omap (λ item,
          id ← Js.get "id" item;
          messages ← Js.get "messages" item;
          urlId ← Js.get "urlId" item;
          description ← Js.get "description" item;
          Some (DbSetMessages id messages urlId description))
       chatHistoryJson.

(** The calls that restore one file entry of an archive. *)
Definition restore_calls (entry : string * string) : list Call :=
  let fullPath := "/home/project/" +:+ Str.drop_leading_slashes entry.1 in
  let parentDir := default EmptyString (Str.before_last_slash fullPath) in
  (if String.eqb parentDir "/home/project" then []
   else [WcMkdir parentDir true])
  ++ [WcWriteFile fullPath entry.2].

(** The calls of an import to the database: the start of the full
    sequence that clears the stored chats and then stores the chats
    [items] of the backup, and all of it when the import succeeds with a
    database. *)
Definition chats_replaced `{Host} (file : UploadedFile) (items : list JsValue)
    (wb : WorkbenchStore) (w : World) : Prop :=
  let r := exec (importProjectBackup file) wb w in
  let w1 := (io (Toast toast_info "Starting project restore...") w).2 in
  let db := (io Db w1).1 in
  let existingHistory := default [] (io DbGetAll (io Db w1).2).1 in
  let all := [Db; DbGetAll] ++ delete_calls existingHistory ++ store_calls items in
  List.filter is_db_call (calls_of r) `prefix_of` all ∧
  (db = false → List.filter is_db_call (calls_of r) = [Db]) ∧
  (db = true →
   Toast toast_success "Project restored successfully" ∈ calls_of r →
   List.filter is_db_call (calls_of r) = all).


(** ** More concrete data *)

Module Cases.

(** A store in which three paths are marked unsaved; the editor of
    [Demo.world] has a document for the first only, and the third is
    the name of a property of [Object.prototype]. *)
Definition unsaved : WorkbenchStore :=
  {| artifacts := ∅; showWorkbench := true; currentView := code;
     unsavedFiles := {["/home/project/src/App.tsx"; "/home/project/gone.txt";
                       "toString"]};
     artifactIdList := [] |}.

(** The editor holds an edit of App.tsx that the files store does not
    have yet. *)
Definition edited : @World Demo.host :=
  Ref.updateFile "/home/project/src/App.tsx" "export default Todo" Demo.world.

Definition second_artifact : ArtifactCallbackData :=
  {| a_messageId := "msg-2"; a_title := "Notes"; a_id := "notes" |}.

(** The action of [Demo.file_action] for a file that the editor has no
    document of. *)
Definition new_file_action : ActionCallbackData :=
  {| artifactId := "todo-app"; messageId := "msg-1"; actionId := "2";
     action := FileAction "src/New.tsx" "export {}" |}.

(** The text of a chat_history.json with one chat; the host below
    reads it as the chat of [Demo.world]. *)
Definition chats_text : string := "[chat-1]".

Definition json_table : list (string * JsValue) :=
  [(Demo.metadata_text, metadata_of "2024-01-02T03:04:05.678Z" "project");
   (chats_text, JArr [Demo.chat])].

(** A backup archive with one chat, two files under 'code', one of
    them in a sub-folder, and one file beside the code folder. *)
Definition archive : JSZip.Files :=
  [("metadata.json", JSZip.ZipFile Demo.metadata_text);
   ("chat_history.json", JSZip.ZipFile chats_text);
   ("code/", JSZip.ZipDir);
   ("code/package.json", JSZip.ZipFile "{}");
   ("code/src/", JSZip.ZipDir);
   ("code/src/App.tsx", JSZip.ZipFile "export default App");
   ("notes.txt", JSZip.ZipFile "beside the code")].

Definition backup : UploadedFile :=
  {| file_name := "backup.zip"; file_archive := Some archive |}.

Definition restore_host : Host := ref_host json_table.

Definition restore_world : @World restore_host := Demo.world.

End Cases.

(** * Properties *)

(** ** Runs of composed programs *)

Section Runs.
Context `{Host}.

Lemma run_bind {A B} (p : Prog A) (f : A → Prog B) (w : World) :
  run (prog_bind p f) w =
  let '(a, w1, t1) := run p w in
  let '(b, w2, t2) := run (f a) w1 in
  (b, w2, t1 ++ t2).
Proof.
  revert w; induction p as [a | c k IH]; intros w; simpl.
  - by destruct (run (f a) w) as [[b w2] t2].
  - destruct (io c w) as [r w1]. rewrite IH.
    destruct (run (k r) w1) as [[a w2] t1].
    by destruct (run (f a) w2) as [[b w3] t2].
Qed.

Lemma exec_bind {A B} (m : M A) (f : A → M B) wb w :
  exec (m ≫= f) wb w =
  match exec m wb w with
  | (Returned a, wb1, w1, t1) =>
      match exec (f a) wb1 w1 with
      | (o, wb2, w2, t2) => (o, wb2, w2, t1 ++ t2)
      end
  | (Threw e, wb1, w1, t1) => (Threw e, wb1, w1, t1)
  end.
Proof.
  unfold exec, mbind, M_bind, m_bind. rewrite run_bind.
  destruct (run (m wb) w) as [[[[a|e] wb1] w1] t1]; simpl.
  - by destruct (run (f a wb1) w1) as [[[o wb2] w2] t2].
  - by rewrite app_nil_r.
Qed.

Lemma exec_try_catch {A} (m : M A) (handler : Exception → M A) wb w :
  exec (try_catch m handler) wb w =
  match exec m wb w with
  | (Returned a, wb1, w1, t1) => (Returned a, wb1, w1, t1)
  | (Threw e, wb1, w1, t1) =>
      match exec (handler e) wb1 w1 with
      | (o, wb2, w2, t2) => (o, wb2, w2, t1 ++ t2)
      end
  end.
Proof.
  unfold exec, try_catch. rewrite run_bind.
  destruct (run (m wb) w) as [[[[a|e] wb1] w1] t1]; simpl.
  - by rewrite app_nil_r.
  - by destruct (run (handler e wb1) w1) as [[[o wb2] w2] t2].
Qed.

Lemma exec_ret {A} (a : A) wb w : exec (mret a) wb w = (Returned a, wb, w, []).
Proof. done. Qed.

Lemma exec_call c wb w :
  exec (call c) wb w = (Returned (io c w).1, wb, (io c w).2, [c]).
Proof. unfold exec, call. simpl. by destruct (io c w). Qed.

Lemma exec_call_bind {B} c (f : Reply c → M B) wb w :
  exec (call c ≫= f) wb w =
  match exec (f (io c w).1) wb (io c w).2 with
  | (o, wb2, w2, t2) => (o, wb2, w2, c :: t2)
  end.
Proof. by rewrite exec_bind, exec_call. Qed.

Lemma exec_ret_bind {A B} (a : A) (f : A → M B) wb w :
  exec (mret a ≫= f) wb w = exec (f a) wb w.
Proof.
  rewrite exec_bind, exec_ret.
  by destruct (exec (f a) wb w) as [[[o wb2] w2] t2].
Qed.

Lemma exec_get wb w : exec get wb w = (Returned wb, wb, w, []).
Proof. done. Qed.

Lemma exec_get_bind {B} (f : WorkbenchStore → M B) wb w :
  exec (get ≫= f) wb w = exec (f wb) wb w.
Proof.
  rewrite exec_bind, exec_get.
  by destruct (exec (f wb) wb w) as [[[o wb2] w2] t2].
Qed.

Lemma exec_modify f wb w : exec (modify f) wb w = (Returned tt, f wb, w, []).
Proof. done. Qed.

Lemma exec_throw {A} e wb w : exec (@throw A e) wb w = (Threw e, wb, w, []).
Proof. done. Qed.

Lemma exec_getArtifact_bind {B} id (f : Js.Property ArtifactObject → M B) wb w :
  exec (getArtifact id ≫= f) wb w = exec (f (Js.read (artifacts wb) id)) wb w.
Proof.
  unfold getArtifact. rewrite exec_bind, exec_get_bind, exec_ret.
  by destruct (exec (f _) wb w) as [[[o wb2] w2] t2].
Qed.

(** Reading a plain object. *)
Lemma read_own {A} (object : gmap string A) key a :
  object !! key = Some a → Js.read object key = Js.Own a.
Proof. unfold Js.read. by intros ->. Qed.

Lemma read_inherited {A} (object : gmap string A) key :
  object !! key = None → key ∈ Js.Object_prototype →
  Js.read object key = Js.Inherited.
Proof. unfold Js.read. intros -> Hin. by rewrite bool_decide_eq_true_2. Qed.

Lemma read_undefined {A} (object : gmap string A) key :
  object !! key = None → key ∉ Js.Object_prototype →
  Js.read object key = Js.Undefined.
Proof. unfold Js.read. intros -> Hin. by rewrite bool_decide_eq_false_2. Qed.

Lemma read_undefined_inv {A} (object : gmap string A) key :
  Js.read object key = Js.Undefined ↔
  object !! key = None ∧ key ∉ Js.Object_prototype.
Proof.
  unfold Js.read. destruct (object !! key); [by split; [|intros [? _]]|].
  case_bool_decide; by split; [|intros [_ ?]].
Qed.

End Runs.

Arguments exec : simpl never.
Arguments relativePath : simpl never.
Arguments pathSegments : simpl never.

(** One step of a run: a call followed by the rest of the method. *)
Ltac exec_step :=
  match goal with
  | |- context [@exec _ ?B (@mbind _ _ ?A ?B' ?f (call ?c)) ?wb ?w] =>
      change (@exec _ B (@mbind _ _ A B' f (call c)) wb w)
        with (@exec _ B (@mbind M _ (Reply c) B f (call c)) wb w);
      rewrite (@exec_call_bind _ B c f wb w)
  | |- context [exec (call ?c) ?wb ?w] =>
      change (exec (call c) wb w) with (@exec _ (Reply c) (call c) wb w);
      rewrite (exec_call c wb w)
  | |- context [@exec _ ?B (@mbind _ _ ?A ?B' ?f (getArtifact ?id)) ?wb ?w] =>
      change (@exec _ B (@mbind _ _ A B' f (getArtifact id)) wb w)
        with (@exec _ B (@mbind M _ (Js.Property ArtifactObject) B f (getArtifact id)) wb w);
      rewrite (@exec_getArtifact_bind _ B id f wb w)
  | |- context [@exec _ ?B (@mbind _ _ ?A ?B' ?f get) ?wb ?w] =>
      change (@exec _ B (@mbind _ _ A B' f get) wb w)
        with (@exec _ B (@mbind M _ WorkbenchStore B f get) wb w);
      rewrite (@exec_get_bind _ B f wb w)
  | |- context [@exec _ ?B (@mbind _ _ ?A ?B' ?f (mret ?a)) ?wb ?w] =>
      change (@exec _ B (@mbind _ _ A B' f (mret a)) wb w)
        with (@exec _ B (@mbind M _ A B f (mret a)) wb w);
      rewrite (@exec_ret_bind _ A B a f wb w)
  | |- context [@exec _ ?A (mret ?a) ?wb ?w] =>
      rewrite (@exec_ret _ A a wb w)
  | |- context [exec (modify ?f) ?wb ?w] =>
      rewrite (exec_modify f wb w)
  | |- context [@exec _ ?A (throw ?e) ?wb ?w] =>
      rewrite (@exec_throw _ A e wb w)
  end.

(** A reply of type [unit] is [tt]. *)
Ltac unit_reply :=
  match goal with
  | |- Returned ?u = Returned tt => by destruct u
  end.

(** A sequence whose first part is not a single call. *)
Ltac exec_seq :=
  match goal with
  | |- context [@exec _ ?B (@mbind _ _ ?A ?B' ?f ?m) ?wb ?w] =>
      change (@exec _ B (@mbind _ _ A B' f m) wb w)
        with (@exec _ B (@mbind M _ A B f m) wb w);
      rewrite (@exec_bind _ A B m f wb w)
  end.

(** ** Artifacts *)

Section Artifacts.
Context `{Host}.

Lemma new_WorkbenchStore_wf hot : artifacts_wf (new_WorkbenchStore hot).
Proof.
  destruct hot; split; simpl; try apply NoDup_nil_2;
    intros ? Hin; by apply elem_of_nil in Hin.
Qed.

Lemma exec_addArtifact_known data wb w :
  is_Some (artifacts wb !! a_messageId data)
  ∨ a_messageId data ∈ Js.Object_prototype →
  exec (addArtifact data) wb w = (Returned tt, wb, w, []).
Proof.
  intros Hknown. unfold addArtifact. exec_step.
  destruct (artifacts wb !! a_messageId data) as [a|] eqn:Ha.
  - by rewrite (read_own _ _ a).
  - destruct Hknown as [[a Hsome]|Hin]; [done|].
    by rewrite read_inherited.
Qed.

Lemma exec_addArtifact_fresh data wb w :
  artifacts wb !! a_messageId data = None →
  a_messageId data ∉ Js.Object_prototype →
  exec (addArtifact data) wb w =
  (Returned tt,
   set_artifacts
     (<[a_messageId data := Artifact {| id := a_id data; title := a_title data;
                                        closed := false;
                                        runner := (io NewActionRunner w).1 |}]>
        (artifacts wb))
     (if bool_decide (a_messageId data ∈ artifactIdList wb) then wb
      else set_artifactIdList (artifactIdList wb ++ [a_messageId data]) wb),
   (io NewActionRunner w).2, [NewActionRunner]).
Proof.
  intros Hnone Hordinary. unfold addArtifact. exec_step.
  rewrite read_undefined by done.
  exec_step. rewrite exec_bind.
  case_bool_decide; [rewrite exec_ret | rewrite exec_modify]; simpl;
    exec_step; by rewrite exec_modify.
Qed.

Lemma fresh_not_listed data wb :
  artifacts_wf wb → artifacts wb !! a_messageId data = None →
  a_messageId data ∉ artifactIdList wb.
Proof.
  intros [_ Hreg] Hnone Hin. apply Hreg in Hin as [a Ha]. congruence.
Qed.

(** X17.  In a store whose registry is well formed, [addArtifact] leaves
    everything as it is when the artifacts object has a property of the
    name of the message, be it an artifact registered before or a
    property inherited from [Object.prototype] (so a second call for
    the same message changes nothing); otherwise it appends the message
    id to [artifactIdList] and registers a new artifact with the given
    id and title, [closed = false] and a fresh runner.  The registry
    stays well formed: in particular [artifactIdList] never holds a
    duplicate. *)
Theorem addArtifact_registers_once data wb w :
  artifacts_wf wb → addArtifact_spec data wb w.
Proof.
  intros Hwf. unfold addArtifact_spec. cbn zeta.
  destruct (decide (is_Some (artifacts wb !! a_messageId data)
                    ∨ a_messageId data ∈ Js.Object_prototype)) as [Hknown|Hfresh].
  - rewrite exec_addArtifact_known by done.
    unfold outcome_of, store_of, world_of, calls_of; simpl.
    split_and!; try done.
    + intros Hnone Hordinary. destruct Hknown as [[a Ha]|Hin]; [congruence|done].
    + intros again Heq. apply exec_addArtifact_known. by rewrite Heq.
  - assert (¬ is_Some (artifacts wb !! a_messageId data)) as Hnone
      by (intros ?; apply Hfresh; by left).
    assert (a_messageId data ∉ Js.Object_prototype) as Hordinary
      by (intros ?; apply Hfresh; by right).
    clear Hfresh.
    assert (artifacts wb !! a_messageId data = None) as Hlook.
    { destruct (artifacts wb !! a_messageId data) eqn:Hl; [|done].
      exfalso. apply Hnone. eauto. }
    rewrite exec_addArtifact_fresh by done.
    pose proof (fresh_not_listed data wb Hwf Hlook) as Hfresh.
    rewrite bool_decide_eq_false_2 by done.
    unfold outcome_of, store_of, world_of, calls_of; simpl.
    split_and!; try done.
    + intros [[a Ha]|Hin]; [congruence|done].
    + destruct Hwf as [Hnodup Hreg]. split; simpl.
      * apply NoDup_app. split_and!; [done | | apply NoDup_singleton].
        intros x Hx Hx'. apply list_elem_of_singleton in Hx'. by subst.
      * intros k Hk. apply elem_of_app in Hk as [Hk | Hk].
        -- destruct (decide (a_messageId data = k)) as [-> | Hne].
           ++ rewrite lookup_insert_eq. eauto.
           ++ rewrite lookup_insert_ne by done. by apply Hreg.
        -- apply list_elem_of_singleton in Hk as ->.
           rewrite lookup_insert_eq. eauto.
    + intros again Heq. apply exec_addArtifact_known. simpl. left.
      rewrite Heq, lookup_insert_eq. eauto.
Qed.

Lemma exec_updateArtifact data state wb w :
  exec (updateArtifact data state) wb w =
  (Returned tt,
   match Js.read (artifacts wb) (a_messageId data) with
   | Js.Undefined => wb
   | artifact =>
       set_artifacts
         (<[a_messageId data := spread_found artifact state]> (artifacts wb)) wb
   end, w, []).
Proof.
  unfold updateArtifact. exec_step.
  destruct (Js.read (artifacts wb) (a_messageId data));
    [by rewrite exec_modify | by rewrite exec_modify | by rewrite exec_ret].
Qed.

Lemma updateArtifact_wf data state wb w :
  artifacts_wf wb → artifacts_wf (store_of (exec (updateArtifact data state) wb w)).
Proof.
  intros [Hnodup Hreg]. rewrite exec_updateArtifact. unfold store_of; simpl.
  destruct (Js.read (artifacts wb) (a_messageId data)); [| |done].
  all: split; [done|]; simpl; intros k Hk;
    (destruct (decide (a_messageId data = k)) as [-> | Hne];
     [rewrite lookup_insert_eq; eauto
     | rewrite lookup_insert_ne by done; by apply Hreg]).
Qed.

(** X19.  [updateArtifact] makes no call and touches nothing but the
    property of the artifacts object under the message id.  An artifact
    registered there keeps its id and its runner and takes the title
    and the closed flag of the update, where the update has them; the
    keys of the object stay as they are.  Without a property of that
    name, own or inherited, nothing changes.  For a name that is
    inherited from [Object.prototype] and not a key, the guard passes:
    the object gets a new key, which holds the fields of the update
    and is no artifact. *)
Theorem updateArtifact_touches_title_and_closed data state wb w :
  let r := exec (updateArtifact data state) wb w in
  let messageId := a_messageId data in
  outcome_of r = Returned tt ∧ world_of r = w ∧ calls_of r = [] ∧
  artifactIdList (store_of r) = artifactIdList wb ∧
  unsavedFiles (store_of r) = unsavedFiles wb ∧
  currentView (store_of r) = currentView wb ∧
  showWorkbench (store_of r) = showWorkbench wb ∧
  (∀ other, other ≠ messageId →
     artifacts (store_of r) !! other = artifacts wb !! other) ∧
  (∀ a, artifacts wb !! messageId = Some (Artifact a) →
     dom (artifacts (store_of r)) = dom (artifacts wb) ∧
     ∃ a', artifacts (store_of r) !! messageId = Some (Artifact a') ∧
           id a' = id a ∧ runner a' = runner a ∧
           title a' = default (title a) (new_title state) ∧
           closed a' = default (closed a) (new_closed state)) ∧
  (artifacts wb !! messageId = None → messageId ∉ Js.Object_prototype →
     store_of r = wb) ∧
  (artifacts wb !! messageId = None → messageId ∈ Js.Object_prototype →
     artifacts (store_of r) !! messageId = Some (Fragment state)).
Proof.
  cbn zeta. rewrite exec_updateArtifact.
  unfold outcome_of, store_of, world_of, calls_of; simpl.
  unfold Js.read.
  destruct (artifacts wb !! a_messageId data) as [found|] eqn:Hlook; simpl.
  - split_and!; try done.
    + intros other Hne. by rewrite lookup_insert_ne.
    + intros a [= ->]. simpl. split.
      * rewrite dom_insert_L. apply elem_of_dom_2 in Hlook.
        apply set_eq. intros k. rewrite elem_of_union, elem_of_singleton.
        split; [intros [-> | ?]; done | by right].
      * exists (spread a state). by rewrite lookup_insert_eq.
  - case_bool_decide as Hin; simpl.
    + split_and!; try done.
      * intros other Hne. by rewrite lookup_insert_ne.
      * intros _ _. by rewrite lookup_insert_eq.
    + split_and!; done.
Qed.

(** X18.  For a message whose id is neither a key of the artifacts
    object nor the name of a property of [Object.prototype],
    [addAction] and [runAction] throw 'Artifact not found' through
    [unreachable] before any call: nothing reaches a runner, and the
    artifacts map and [artifactIdList] are as they were. *)
Theorem unknown_artifact_is_rejected data isStreaming wb w :
  artifacts wb !! messageId data = None →
  messageId data ∉ Js.Object_prototype →
  artifact_not_found (addAction data) wb w ∧
  artifact_not_found (runAction data isStreaming) wb w.
Proof.
  intros Hnone Hordinary. unfold artifact_not_found, addAction, runAction.
  split; exec_step; by rewrite read_undefined.
Qed.

End Artifacts.

(** ** Unsaved files *)

Section Unsaved.
Context `{Host}.

(** X20.  [saveFile] reads the documents of the editor.  When they
    have no property of the name of the path, own or inherited, only
    that reading happened and the store is as it was.  When they hold a
    document under the path, its value is saved to the files store and
    the path leaves [unsavedFiles].  When the path is the name of a
    property of [Object.prototype] and no document is held under it,
    the guard passes all the same: [undefined] is handed to the files
    store and the path leaves [unsavedFiles].  In every case no other
    path enters or leaves [unsavedFiles], and the other fields stay as
    they are. *)
Theorem saveFile_frame filePath wb w :
  let r := exec (saveFile filePath) wb w in
  let documents := (io EdDocuments w).1 in
  outcome_of r = Returned tt ∧
  (documents !! filePath = None → filePath ∉ Js.Object_prototype →
     store_of r = wb ∧ calls_of r = [EdDocuments] ∧
     world_of r = (io EdDocuments w).2) ∧
  (∀ document, documents !! filePath = Some document →
     calls_of r = [EdDocuments; FsSaveFile filePath (Some (value document))] ∧
     filePath ∉ unsavedFiles (store_of r)) ∧
  (documents !! filePath = None → filePath ∈ Js.Object_prototype →
     calls_of r = [EdDocuments; FsSaveFile filePath None] ∧
     filePath ∉ unsavedFiles (store_of r)) ∧
  artifacts (store_of r) = artifacts wb ∧
  artifactIdList (store_of r) = artifactIdList wb ∧
  currentView (store_of r) = currentView wb ∧
  showWorkbench (store_of r) = showWorkbench wb ∧
  (∀ other, other ≠ filePath →
     (other ∈ unsavedFiles (store_of r) ↔ other ∈ unsavedFiles wb)).
Proof.
  cbn zeta. unfold saveFile. exec_step.
  destruct ((io EdDocuments w).1 !! filePath) as [d|] eqn:Hdoc;
    [rewrite (read_own _ _ _ Hdoc)
    |destruct (decide (filePath ∈ Js.Object_prototype)) as [Hin|Hin];
     [rewrite (read_inherited _ _ Hdoc Hin)
     |rewrite (read_undefined _ _ Hdoc Hin)]];
    cbv beta iota zeta.
  - exec_step. rewrite exec_modify.
    unfold outcome_of, store_of, world_of, calls_of; simpl.
    split_and!; try done.
    + intros document [= <-]. split; [done|].
      rewrite elem_of_difference, elem_of_singleton. by intros [_ Hn].
    + intros other Hne. rewrite elem_of_difference, elem_of_singleton.
      split; [by intros [? _] | done].
  - exec_step. rewrite exec_modify.
    unfold outcome_of, store_of, world_of, calls_of; simpl.
    split_and!; try done.
    + intros _ _. split; [done|].
      rewrite elem_of_difference, elem_of_singleton. by intros [_ Hn].
    + intros other Hne. rewrite elem_of_difference, elem_of_singleton.
      split; [by intros [? _] | done].
  - rewrite exec_ret.
    unfold outcome_of, store_of, world_of, calls_of; simpl.
    split_and!; done.
Qed.

(** The run of [setCurrentDocumentContent] in full. *)
Lemma exec_setCurrentDocumentContent newContent wb w :
  let w1 := (io EdCurrentDocument w).2 in
  let filePath := default EmptyString (doc_filePath <$> (io EdCurrentDocument w).1) in
  let saved := (io (FsGetFile filePath) w1).1 in
  let w2 := (io (FsGetFile filePath) w1).2 in
  let w3 := (io (EdUpdateFile filePath newContent) w2).2 in
  let unsavedChanges :=
    match content <$> saved with
    | Some original => negb (String.eqb original newContent)
    | None => false
    end in
  exec (setCurrentDocumentContent newContent) wb w =
  if negb (Str.truthy filePath) then (Returned tt, wb, w1, [EdCurrentDocument])
  else
    (Returned tt,
     match (io EdCurrentDocument w3).1 with
     | Some currentDocument =>
         if unsavedChanges
            && bool_decide (doc_filePath currentDocument ∈ unsavedFiles wb)
         then wb
         else set_unsavedFiles
                (if unsavedChanges
                 then unsavedFiles wb ∪ {[doc_filePath currentDocument]}
                 else unsavedFiles wb ∖ {[doc_filePath currentDocument]}) wb
     | None => wb
     end,
     (io EdCurrentDocument w3).2,
     [EdCurrentDocument; FsGetFile filePath;
      EdUpdateFile filePath newContent; EdCurrentDocument]).
Proof.
  cbn zeta. unfold setCurrentDocumentContent. exec_step. cbv beta zeta.
  destruct (negb (Str.truthy _)); [by rewrite exec_ret|].
  do 3 exec_step.
  destruct (io EdCurrentDocument _).1 as [cd|]; [|by rewrite exec_ret].
  exec_step.
  destruct (_ && _); [by rewrite exec_ret | by rewrite exec_modify].
Qed.

(** C8.  With a current document at the non-empty path [p], which the
    editor store keeps current through [updateFile]: after
    [setCurrentDocumentContent(newContent)] the path [p] is in
    [unsavedFiles] exactly when the files store holds a saved content
    for [p] that differs from [newContent], and no other path enters or
    leaves [unsavedFiles]. *)
Theorem setCurrentDocumentContent_tracks_unsaved newContent wb w p doc :
  (io EdCurrentDocument w).1 = Some doc →
  doc_filePath doc = p →
  p ≠ EmptyString →
  doc_filePath <$> (io EdCurrentDocument (after_updateFile p newContent w)).1 = Some p →
  tracks_unsaved newContent p wb w.
Proof.
  intros Hdoc Hp Hne Hkept. unfold tracks_unsaved, after_updateFile in *.
  rewrite exec_setCurrentDocumentContent. cbn zeta.
  rewrite Hdoc. simpl. rewrite Hp.
  assert (Str.truthy p = true) as -> by (by destruct p).
  simpl. unfold store_of; simpl.
  match goal with
  | |- context [match ?x with Some _ => _ | None => wb end] =>
      change (doc_filePath <$> x = Some p) in Hkept;
      destruct x as [cd|]; [|done]
  end.
  injection Hkept as Hcdp. rewrite Hcdp.
  match goal with
  | |- context [content <$> ?x] => destruct x as [file|]
  end; simpl.
  - destruct (String.eqb_spec (content file) newContent) as [Heq | Hneq]; simpl.
    + split.
      * rewrite elem_of_difference, elem_of_singleton. split.
        -- by intros [_ ?].
        -- intros (f & [= <-] & Hf). done.
      * intros other Hother. rewrite elem_of_difference, elem_of_singleton.
        split; [by intros [? _] | done].
    + case_bool_decide as Hin; simpl.
      * split; [|done]. split; [|done]. intros _. by exists file.
      * split.
        -- rewrite elem_of_union, elem_of_singleton.
           split; [|by right]. intros _. by exists file.
        -- intros other Hother. rewrite elem_of_union, elem_of_singleton.
           split; [intros [? | ?]; done | by left].
  - split.
    + rewrite elem_of_difference, elem_of_singleton. split.
      * by intros [_ ?].
      * by intros (f & [=] & _).
    + intros other Hother. rewrite elem_of_difference, elem_of_singleton.
      split; [by intros [? _] | done].
Qed.

End Unsaved.

(** ** The dispatch of actions *)

Section Dispatch.
Context `{Host}.

Lemma setCurrentDocumentContent_quiet newContent wb w :
  quiet wb (exec (setCurrentDocumentContent newContent) wb w).
Proof.
  rewrite exec_setCurrentDocumentContent. cbn zeta.
  destruct (negb (Str.truthy _)).
  - unfold quiet, outcome_of, store_of, calls_of; simpl.
    split_and!; try done. by repeat constructor.
  - unfold quiet, outcome_of, store_of, calls_of; simpl.
    split_and!; try done;
      try (match goal with
           | |- context [match ?x with Some _ => _ | None => wb end] =>
               destruct x; [destruct (_ && _)|]; done
           end).
    by repeat constructor.
Qed.

Lemma resetCurrentDocument_quiet wb w :
  quiet wb (exec resetCurrentDocument wb w).
Proof.
  unfold resetCurrentDocument. exec_step.
  destruct (io EdCurrentDocument w).1 as [cd|].
  - exec_step. destruct (io (FsGetFile _) _).1 as [file|].
    + destruct (setCurrentDocumentContent_quiet (content file) wb
                  (io (FsGetFile (doc_filePath cd)) (io EdCurrentDocument w).2).2)
        as (Ho & Ha & Hl & Hv & Hc).
      destruct (exec (setCurrentDocumentContent _) _ _) as [[[o wb2] w2] t2].
      unfold quiet, outcome_of, store_of, calls_of in *; simpl in *.
      split_and!; try done. by repeat constructor.
    + rewrite exec_ret. unfold quiet, outcome_of, store_of, calls_of; simpl.
      split_and!; try done. by repeat constructor.
  - rewrite exec_ret. unfold quiet, outcome_of, store_of, calls_of; simpl.
    split_and!; try done. by repeat constructor.
Qed.

(** The end of the file branch: nothing more when streaming, else the
    reset of the current document and the second call of the runner. *)
Local Ltac finish_run :=
  match goal with b : bool |- _ => destruct b end;
  [ exec_step; do 3 eexists; simpl;
    split; [reflexivity|]; split_and!; [constructor | done..]
  | exec_seq;
    match goal with
    | |- context [exec resetCurrentDocument ?b ?v] =>
        let Ho := fresh "Ho" in let Ha := fresh "Ha" in
        let Hl := fresh "Hl" in let Hv := fresh "Hv" in
        let Hc := fresh "Hc" in
        destruct (resetCurrentDocument_quiet b v) as (Ho & Ha & Hl & Hv & Hc);
        destruct (exec resetCurrentDocument b v) as [[[? ?] ?] ?];
        unfold outcome_of, store_of, calls_of in *; simpl in *; subst;
        do 2 exec_step; do 3 eexists; simpl;
        split;
        [ match goal with
          | |- (Returned ?u, _, _, _) = _ => destruct u; reflexivity
          end |];
        split_and!; [eassumption | congruence ..]
    end ].

(** The run of [runAction] on a file action, call by call. *)
Lemma runAction_file_run data isStreaming artifact filePath content wb w :
  artifacts wb !! messageId data = Some (Artifact artifact) →
  action data = FileAction filePath content →
  let fullPath := nodePath_join (io WcWorkdir w).1 filePath in
  let w1 := (io WcWorkdir w).2 in
  let selected := (io EdSelectedFile w1).1 in
  let w2 := (io EdSelectedFile w1).2 in
  let w3 := if bool_decide (selected = Some fullPath) then w2
            else (io (EdSetSelectedFile (Some fullPath)) w2).2 in
  let documents := (io EdDocuments w3).1 in
  ∃ wb' w' reset,
    exec (runAction data isStreaming) wb w =
    (Returned tt, wb', w',
     [WcWorkdir; EdSelectedFile]
     ++ (if bool_decide (selected = Some fullPath) then []
         else [EdSetSelectedFile (Some fullPath)])
     ++ [EdDocuments]
     ++ (match Js.read documents fullPath with
         | Js.Undefined => [RunnerRunAction (runner artifact) data (Some isStreaming)]
         | _ => []
         end)
     ++ [EdUpdateFile fullPath content]
     ++ (if isStreaming then []
         else reset ++ [RunnerRunAction (runner artifact) data None])) ∧
    Forall (λ c, is_runner_call c = false) reset ∧
    artifacts wb' = artifacts wb ∧
    artifactIdList wb' = artifactIdList wb ∧
    currentView wb' = code.
Proof.
  intros Hart Hact. cbn zeta. unfold runAction.
  exec_step. rewrite (read_own _ _ _ Hart), Hact. cbn [runner_of or_throw].
  do 2 exec_step. cbv beta. exec_seq.
  cbv beta iota zeta delta [Reply].
  destruct (bool_decide _) eqn:Hsel; cbv beta iota;
    [exec_step | unfold setSelectedFile; exec_step]; cbv beta iota;
    (exec_step; cbv beta iota; exec_seq;
     destruct (currentView wb) eqn:Hview;
     exec_step; cbv beta iota; exec_step; exec_seq;
     cbv beta iota zeta delta [Reply];
     match goal with
     | |- context [exec (match ?x with
                         | Js.Own _ => _ | Js.Inherited => _ | Js.Undefined => _
                         end) _ _] =>
         destruct x as [d| |]
     end; cbv beta iota; repeat (exec_step; cbv beta iota)).
  all: finish_run.
Qed.

(** C1.  For an action whose message has a registered artifact,
    [runAction] dispatches on the action's tag and on nothing else.  A
    file action takes the file-write branch: the file at the workdir
    joined with the action's path is selected (unless it is selected
    already), the view becomes 'code', the editor document is updated
    with the action's content, and the action goes to the artifact's
    runner exactly when the document did not exist yet or the call is
    not streaming.  Any other action goes unchanged to the artifact's
    runner, and that is the only call made.  In both branches every
    call to a runner is a [runAction] of this action on this artifact's
    runner. *)
Theorem runAction_dispatches_on_tag data isStreaming artifact wb w :
  artifacts wb !! messageId data = Some (Artifact artifact) →
  runAction_spec data isStreaming artifact wb w.
Proof.
  intros Hart. unfold runAction_spec. cbn zeta.
  destruct (action data) as [filePath content | content] eqn:Hact.
  - destruct (runAction_file_run data isStreaming artifact filePath content
                wb w Hart Hact) as (wb' & w' & reset & -> & Hreset & Ha & Hl & Hv).
    unfold outcome_of, store_of, calls_of. cbn [fst snd].
    cbv beta iota zeta delta [Reply].
    rewrite Forall_forall in Hreset.
    rewrite <- read_undefined_inv.
    destruct (bool_decide _) eqn:Hsel;
      [apply bool_decide_eq_true in Hsel | clear Hsel];
      (match goal with
       | |- context [Js.read ?m ?k] => destruct (Js.read m k)
       end);
      destruct isStreaming; cbn [app];
      (split_and!;
       [ done | done | done
       | intros c; rewrite ?elem_of_cons, ?elem_of_app, ?elem_of_cons, ?elem_of_nil;
         intros Hin Hrun; destruct_or!; subst; try discriminate; eauto;
         by (apply Hreset in Hin; congruence)
       | first [ by left
               | right; rewrite ?elem_of_cons, ?elem_of_app, ?elem_of_cons, ?elem_of_nil;
                 by eauto 10 ]
       | done
       | rewrite ?elem_of_cons, ?elem_of_app, ?elem_of_cons, ?elem_of_nil; by eauto 10
       | split;
         [ first
             [ by (intros _; eauto)
             | intros [s Hin]; exfalso; revert Hin;
               rewrite ?elem_of_cons, ?elem_of_app, ?elem_of_cons, ?elem_of_nil;
               intros Hin; destruct_or!; try discriminate; done ]
         | first
             [ by intros [? | ?]
             | intros _; eexists;
               rewrite ?elem_of_cons, ?elem_of_app, ?elem_of_cons, ?elem_of_nil;
               by eauto 10 ] ] ]).
  - unfold runAction. exec_step. rewrite (read_own _ _ _ Hart), Hact.
    cbn [runner_of or_throw]. do 2 exec_step.
    unfold outcome_of, store_of, calls_of. cbn [fst snd].
    split_and!; try done.
    + by destruct (io _ _).1.
    + intros c Hin _. apply list_elem_of_singleton in Hin. eauto.
Qed.

End Dispatch.

(** ** Strings and paths *)

Section Paths.

Lemma split_nonempty sep s : Str.split sep s ≠ [].
Proof.
  destruct s as [|c s]; simpl; [done|].
  destruct (Ascii.eqb c sep); [done|]. by destruct (Str.split sep s).
Qed.

Lemma pathSegments_nonempty rel : pathSegments rel ≠ [].
Proof. apply split_nonempty. Qed.

Lemma take_init_last (l : list string) :
  l ≠ [] → take (length l - 1) l ++ [default EmptyString (last l)] = l.
Proof.
  induction l as [|x l IH]; [done|]. intros _.
  destruct l as [|y l]; [done|].
  change (last (x :: y :: l)) with (last (y :: l)).
  replace (length (x :: y :: l) - 1) with (S (length (y :: l) - 1))
    by (simpl; lia).
  simpl take. simpl app. f_equal. by apply IH.
Qed.

Lemma str_app_cons c s t : String c s +:+ t = String c (s +:+ t).
Proof. reflexivity. Qed.

Lemma str_app_assoc a b c : (a +:+ b) +:+ c = a +:+ b +:+ c.
Proof.
  induction a as [|x a IH]; [done|]. rewrite !str_app_cons. by f_equal.
Qed.

Lemma str_app_empty s : s +:+ EmptyString = s.
Proof. induction s as [|x s IH]; [done|]. rewrite str_app_cons. by f_equal. Qed.

Lemma drop_prefix_Some p s rest :
  Str.drop_prefix p s = Some rest → s = p +:+ rest.
Proof.
  revert s; induction p as [|a p IH]; intros s; simpl.
  - by intros [= ->].
  - destruct s as [|b s]; [done|].
    destruct (Ascii.eqb_spec a b) as [-> | _]; [|done].
    intros Hd. by rewrite (IH _ Hd).
Qed.

Lemma drop_prefix_app p rest : Str.drop_prefix p (p +:+ rest) = Some rest.
Proof.
  induction p as [|a p IH]; simpl; [done|]. by rewrite Ascii.eqb_refl.
Qed.

Lemma is_project_path_inv filePath :
  is_project_path filePath = true →
  filePath = "/home/project/" +:+ relativePath filePath ∧
  Forall (λ seg, seg ≠ EmptyString) (pathSegments (relativePath filePath)).
Proof.
  unfold is_project_path, relativePath.
  destruct (Str.drop_prefix _ filePath) as [rel|] eqn:Hd; [|done].
  intros Hall. split; [by apply drop_prefix_Some|].
  simpl. pose proof (proj1 (forallb_forall _ _) Hall) as Hall'.
  apply Forall_forall.
  intros seg Hin Hempty. apply list_elem_of_In, Hall' in Hin. by subst.
Qed.

Lemma relativePath_inj p q :
  is_project_path p = true → is_project_path q = true →
  relativePath p = relativePath q → p = q.
Proof.
  intros [Hp _]%is_project_path_inv [Hq _]%is_project_path_inv Heq.
  rewrite Hp, Hq. by rewrite Heq.
Qed.

(** Joining what was split gives the string back. *)
Lemma join_split sep s : Str.join sep (Str.split sep s) = s.
Proof.
  induction s as [|c s IH]; [done|]. simpl.
  destruct (Ascii.eqb_spec c sep) as [-> | Hne].
  - pose proof (split_nonempty sep s) as Hnil.
    destruct (Str.split sep s) as [|seg rest] eqn:Hs; [done|].
    simpl in *. by rewrite IH.
  - pose proof (split_nonempty sep s) as Hnil.
    destruct (Str.split sep s) as [|seg rest] eqn:Hs; [done|].
    simpl in *. destruct rest; simpl in *; by rewrite <- IH.
Qed.

Lemma split_no_separator sep s :
  Forall (λ seg, Str.has_char sep seg = false) (Str.split sep s).
Proof.
  induction s as [|c s IH]; simpl; [by repeat constructor|].
  destruct (Ascii.eqb c sep) eqn:Hc.
  - by constructor.
  - destruct (Str.split sep s) as [|seg rest]; [by repeat constructor; simpl; rewrite Hc|].
    inversion IH; subst. constructor; [|done]. simpl. by rewrite Hc.
Qed.

(** Splitting what was joined gives the segments back, when no
    segment holds the separator. *)
Lemma split_no_sep sep a : Str.has_char sep a = false → Str.split sep a = [a].
Proof.
  induction a as [|c a IH]; [done|]. simpl.
  intros [Hc Ha]%orb_false_iff. rewrite Hc, IH by done. done.
Qed.

Lemma split_app sep a b :
  Str.has_char sep a = false →
  Str.split sep (a +:+ String sep b) = a :: Str.split sep b.
Proof.
  induction a as [|c a IH]; intros Ha.
  - simpl. by rewrite Ascii.eqb_refl.
  - simpl in Ha. apply orb_false_iff in Ha as [Hc Ha].
    rewrite str_app_cons. simpl. by rewrite Hc, IH.
Qed.

Lemma split_join sep segments :
  segments ≠ [] → Forall (λ seg, Str.has_char sep seg = false) segments →
  Str.split sep (Str.join sep segments) = segments.
Proof.
  induction segments as [|seg rest IH]; [done|]. intros _ Hall.
  apply Forall_cons in Hall as [Hseg Hrest].
  destruct rest as [|seg' rest]; [by apply split_no_sep|].
  change (Str.join sep (seg :: seg' :: rest))
    with (seg +:+ String sep (Str.join sep (seg' :: rest))).
  rewrite split_app by done. f_equal. by apply IH.
Qed.

(** The functions of the methods and the words of the statements. *)
Lemma join_concat sep segments :
  Str.join sep segments = String.concat (String sep EmptyString) segments.
Proof.
  induction segments as [|seg rest IH]; [done|].
  destruct rest as [|seg' rest]; [done|].
  change (Str.join sep (seg :: seg' :: rest))
    with (seg +:+ String sep (Str.join sep (seg' :: rest))).
  by rewrite IH.
Qed.

Lemma has_char_not_elem c s :
  Str.has_char c s = false ↔ c ∉ list_ascii_of_string s.
Proof.
  induction s as [|a s IH]; simpl.
  - split; [intros _ Hin; by apply elem_of_nil in Hin | done].
  - rewrite orb_false_iff, not_elem_of_cons, IH.
    destruct (Ascii.eqb_spec a c) as [-> | Hne]; split; intros [? ?]; done.
Qed.

Lemma segments_of_pathSegments path : segments_of path (pathSegments path).
Proof.
  split_and!.
  - apply pathSegments_nonempty.
  - eapply Forall_impl; [apply (split_no_separator "/" path)|].
    intros seg Hseg. by apply has_char_not_elem.
  - unfold pathSegments. rewrite <- (join_concat "/"). apply join_split.
Qed.

Lemma pathSegments_concat segments :
  segments ≠ [] → Forall no_slash segments →
  pathSegments (String.concat "/" segments) = segments.
Proof.
  intros Hne Hall. unfold pathSegments. rewrite <- (join_concat "/").
  apply split_join; [done|].
  eapply Forall_impl; [exact Hall|]. intros seg Hseg. by apply has_char_not_elem.
Qed.

Lemma relativePath_project rest :
  relativePath ("/home/project/" +:+ rest) = rest.
Proof. unfold relativePath. by rewrite drop_prefix_app. Qed.

Lemma relativePath_prefix_removed filePath :
  prefix_removed filePath (relativePath filePath).
Proof.
  unfold prefix_removed, relativePath.
  destruct (Str.drop_prefix "/home/project/" filePath) as [rest|] eqn:Hd; simpl.
  - left. by apply drop_prefix_Some.
  - right. split; [done|]. intros rest ->. by rewrite drop_prefix_app in Hd.
Qed.

Lemma text_entries_non_binary files : text_entries files = non_binary_files files.
Proof.
  induction files as [|[filePath dirent] rest IH]; [done|].
  unfold text_entries, non_binary_files in *.
  rewrite bind_cons. cbn [omap list_omap fst snd]. rewrite IH.
  destruct dirent as [[[content []]|]|]; done.
Qed.

Lemma project_file_path filePath segments :
  project_file filePath segments →
  is_project_path filePath = true ∧
  pathSegments (relativePath filePath) = segments.
Proof.
  intros (Hne & Hall & ->). rewrite relativePath_project.
  assert (pathSegments (String.concat "/" segments) = segments) as Hsegs.
  { apply pathSegments_concat; [done|].
    eapply Forall_impl; [exact Hall|]. by intros seg [_ ?]. }
  split; [|done]. unfold is_project_path. rewrite drop_prefix_app, Hsegs.
  apply forallb_forall. intros seg Hin%list_elem_of_In.
  rewrite Forall_forall in Hall. destruct (Hall _ Hin) as [Hseg _].
  by destruct seg.
Qed.

Lemma files_in_project_wf files : files_in_project files → FileMap_wf files.
Proof.
  intros [Hnodup Hall]. split; [done|]. rewrite text_entries_non_binary.
  eapply Forall_impl; [exact Hall|].
  intros entry [segments Hp]. by apply project_file_path in Hp as [? _].
Qed.

End Paths.

(** ** Synchronising to a directory *)

Section Sync.
Context `{Host}.

Lemma exec_enterDirectories segments currentHandle wb w :
  ∃ w', exec (enterDirectories segments currentHandle) wb w =
        (Returned (currentHandle ++ segments), wb, w',
         directory_calls currentHandle segments).
Proof.
  revert currentHandle w.
  induction segments as [|segment rest IH]; intros currentHandle w; simpl.
  - exists w. by rewrite app_nil_r.
  - exec_step.
    destruct (IH (currentHandle ++ [segment])
                (io (GetDirectoryHandle currentHandle segment) w).2)
      as [w' ->].
    exists w'. by rewrite <- app_assoc.
Qed.

Lemma text_entries_cons filePath dirent rest :
  text_entries ((filePath, dirent) :: rest) =
  match text_file dirent with
  | Some content => (filePath, content) :: text_entries rest
  | None => text_entries rest
  end.
Proof. unfold text_entries. simpl. by destruct (text_file dirent). Qed.

Lemma entry_calls_last targetHandle segments content :
  segments ≠ [] →
  entry_calls targetHandle segments content =
  let directories := take (length segments - 1) segments in
  let name := default EmptyString (last segments) in
  let fileHandle := (targetHandle ++ directories) ++ [name] in
  directory_calls targetHandle directories
  ++ [GetFileHandle (targetHandle ++ directories) name;
      CreateWritable fileHandle;
      WritableWrite fileHandle content;
      WritableClose fileHandle].
Proof.
  intros Hne. unfold entry_calls. cbn zeta.
  by rewrite <- (app_assoc targetHandle), (take_init_last _ Hne).
Qed.

Lemma exec_syncEntries targetHandle files syncedFiles wb w :
  ∃ w', exec (syncEntries targetHandle files syncedFiles) wb w =
        (Returned (syncedFiles ++ ((relativePath ∘ fst) <$> text_entries files)),
         wb, w',
         text_entries files ≫=
           (λ entry, entry_calls targetHandle
                       (pathSegments (relativePath entry.1)) entry.2)).
Proof.
  revert syncedFiles w.
  induction files as [|[filePath dirent] rest IH]; intros syncedFiles w.
  - exists w. simpl. by rewrite app_nil_r.
  - rewrite text_entries_cons. simpl syncEntries.
    destruct (text_file dirent) as [content|]; [|apply IH].
    exec_seq.
    match goal with
    | |- context [exec (enterDirectories ?segments ?h) ?b ?v] =>
        destruct (exec_enterDirectories segments h b v) as [w1 Hdirs]
    end.
    rewrite Hdirs.
    cbv beta iota. do 4 exec_step.
    match goal with
    | |- context [exec (syncEntries _ _ ?acc) _ ?v] =>
        destruct (IH acc v) as [w' ->]
    end.
    exists w'. rewrite fmap_cons, bind_cons.
    cbn [fst snd compose].
    rewrite (entry_calls_last targetHandle (pathSegments (relativePath filePath)))
      by apply pathSegments_nonempty.
    cbn zeta. rewrite <- !app_assoc. done.
Qed.

Lemma writes_of_app l1 l2 : writes_of (l1 ++ l2) = writes_of l1 ++ writes_of l2.
Proof. apply omap_app. Qed.

Lemma directories_of_app l1 l2 :
  directories_of (l1 ++ l2) = directories_of l1 ++ directories_of l2.
Proof. apply omap_app. Qed.

Lemma writes_of_directory_calls h segments :
  writes_of (directory_calls h segments) = [].
Proof. revert h; induction segments; intros h; simpl; auto. Qed.

Lemma directories_of_directory_calls h segments :
  directories_of (directory_calls h segments) =
  (λ n, h ++ take (S n) segments) <$> seq 0 (length segments).
Proof.
  revert h; induction segments as [|segment rest IH]; intros h; [done|].
  change (directories_of (directory_calls h (segment :: rest)))
    with ((h ++ [segment])
          :: directories_of (directory_calls (h ++ [segment]) rest)).
  rewrite IH. cbn [length seq fmap list_fmap]. f_equal. rewrite <- fmap_S_seq, <- list_fmap_compose.
  apply list_fmap_ext. intros _ n _. simpl. by rewrite <- app_assoc.
Qed.

Lemma writes_of_entry_calls targetHandle segments content :
  writes_of (entry_calls targetHandle segments content) =
  [(targetHandle ++ segments, content)].
Proof.
  unfold entry_calls. cbn zeta.
  by rewrite writes_of_app, writes_of_directory_calls.
Qed.

Lemma directories_of_entry_calls targetHandle segments content :
  directories_of (entry_calls targetHandle segments content) =
  intermediate_directories targetHandle segments.
Proof.
  unfold entry_calls, intermediate_directories. cbn zeta.
  rewrite directories_of_app, directories_of_directory_calls. cbn.
  rewrite app_nil_r, length_take.
  rewrite Nat.min_l by lia.
  apply list_fmap_ext. intros i n Hn. f_equal.
  apply lookup_seq in Hn as [-> Hlt]. simpl.
  rewrite take_take. f_equal. lia.
Qed.

Lemma mjoin_cons {A} (x : list A) (l : list (list A)) :
  mjoin (x :: l) = x ++ mjoin l.
Proof. reflexivity. Qed.

(** One list for each entry, and the two lists side by side. *)
Lemma bind_zip_with {A B C D} (f : A → B) (g : A → C) (h : B → C → list D)
    (l : list A) :
  l ≫= (λ x, h (f x) (g x)) = mjoin (zip_with h (f <$> l) (g <$> l)).
Proof.
  induction l as [|x l IH]; [done|].
  rewrite bind_cons, !fmap_cons. cbn [zip_with]. rewrite mjoin_cons. by f_equal.
Qed.

Lemma writes_of_zip targetHandle (segments : list (list string))
    (contents : list string) :
  writes_of (mjoin (zip_with (entry_calls targetHandle) segments contents)) =
  zip_with (λ segments content, (targetHandle ++ segments, content))
           segments contents.
Proof.
  revert contents. induction segments as [|segs segments IH]; [done|].
  intros [|content contents]; [done|].
  cbn [zip_with]. by rewrite mjoin_cons, writes_of_app, writes_of_entry_calls, IH.
Qed.

Lemma directories_of_zip targetHandle (segments : list (list string))
    (contents : list string) :
  length segments = length contents →
  directories_of (mjoin (zip_with (entry_calls targetHandle) segments contents)) =
  segments ≫= intermediate_directories targetHandle.
Proof.
  revert contents. induction segments as [|segs segments IH]; [done|].
  intros [|content contents]; [done|]. intros [= Hlen].
  cbn [zip_with].
  by rewrite mjoin_cons, bind_cons, directories_of_app,
       directories_of_entry_calls, IH.
Qed.

(** C5.  [syncFiles] returns exactly the paths, without a leading
    '/home/project/', of the entries of the files store that are of
    type 'file' and not binary, in the order of the store.  For each of
    them, and for nothing else, it writes the content to the file whose
    handle is reached from the target handle along the segments of
    that path, after asking for every directory on the way with
    [create: true]; the store's fields are as they were. *)
Theorem syncFiles_writes_text_files targetHandle wb w :
  syncFiles_spec targetHandle wb w.
Proof.
  unfold syncFiles_spec, syncFiles. cbn zeta. exec_step.
  destruct (exec_syncEntries targetHandle (io FsFiles w).1 [] wb (io FsFiles w).2)
    as [w' ->].
  rewrite <- text_entries_non_binary.
  set (entries := text_entries (io FsFiles w).1).
  exists ((relativePath ∘ fst) <$> entries),
         ((pathSegments ∘ relativePath ∘ fst) <$> entries).
  unfold outcome_of, store_of, calls_of. cbn [fst snd app].
  assert (entries ≫= (λ entry, entry_calls targetHandle
                                 (pathSegments (relativePath entry.1)) entry.2)
          = mjoin (zip_with (entry_calls targetHandle)
                     ((pathSegments ∘ relativePath ∘ fst) <$> entries)
                     entries.*2)) as Hcalls
    by apply (bind_zip_with (pathSegments ∘ relativePath ∘ fst) snd).
  split_and!; try done.
  - apply Forall2_fmap_r, Forall_Forall2_diag, Forall_forall.
    intros entry _. apply relativePath_prefix_removed.
  - apply Forall2_fmap, Forall_Forall2_diag, Forall_forall.
    intros entry _. apply segments_of_pathSegments.
  - by rewrite Hcalls.
  - rewrite Hcalls.
    change (writes_of (FsFiles :: ?l)) with (writes_of l).
    apply writes_of_zip.
  - rewrite Hcalls.
    change (directories_of (FsFiles :: ?l)) with (directories_of l).
    apply directories_of_zip. by rewrite !length_fmap.
Qed.

End Sync.

(** ** Archives *)

Section Zip.
Import JSZip.

Lemma ends_with_slash_app a b :
  b ≠ EmptyString → Str.ends_with_slash (a +:+ b) = Str.ends_with_slash b.
Proof.
  intros Hb. induction a as [|c a IH]; [done|].
  simpl. rewrite IH. destruct (a +:+ b) eqn:Hab; [|done].
  destruct a; simpl in Hab; [by subst | done].
Qed.

Lemma no_slash_no_trailing_slash s :
  Str.has_char "/" s = false → Str.ends_with_slash s = false.
Proof.
  induction s as [|c s IH]; [done|]. simpl.
  intros [Hc Hs]%orb_false_iff. destruct s; [done|]. by apply IH.
Qed.

Lemma forceTrailingSlash_ends path :
  Str.ends_with_slash (forceTrailingSlash path) = true.
Proof.
  unfold forceTrailingSlash.
  destruct (Str.ends_with_slash path) eqn:He; [done|].
  by rewrite ends_with_slash_app.
Qed.

Lemma forceTrailingSlash_segment root segment :
  segment_ok segment →
  forceTrailingSlash (root +:+ segment) = root +:+ segment +:+ "/".
Proof.
  intros [Hne Hno]. unfold forceTrailingSlash.
  rewrite ends_with_slash_app by done.
  rewrite no_slash_no_trailing_slash by done.
  apply str_app_assoc.
Qed.

Lemma lookup_store_eq name o zip : lookup name (store name o zip) = Some o.
Proof.
  induction zip as [|[n o'] zip IH]; simpl.
  - by rewrite String.eqb_refl.
  - destruct (String.eqb_spec n name) as [-> | Hne]; simpl.
    + by rewrite String.eqb_refl.
    + by destruct (String.eqb_spec n name).
Qed.

Lemma lookup_store_ne name other o zip :
  name ≠ other → lookup other (store name o zip) = lookup other zip.
Proof.
  intros Hne. induction zip as [|[n o'] zip IH]; simpl.
  - by destruct (String.eqb_spec name other).
  - destruct (String.eqb_spec n name) as [-> | Hn]; simpl.
    + by destruct (String.eqb_spec name other).
    + by rewrite IH.
Qed.

Lemma lookup_Some_elem name o zip :
  lookup name zip = Some o → (name, o) ∈ zip.
Proof.
  induction zip as [|[n o'] zip IH]; simpl; [done|].
  destruct (String.eqb_spec n name) as [-> | Hn].
  - intros [= ->]. apply list_elem_of_here.
  - intros Hl. apply list_elem_of_further. by apply IH.
Qed.

Lemma lookup_None_keys name zip :
  lookup name zip = None ↔ name ∉ zip.*1.
Proof.
  induction zip as [|[n o'] zip IH]; simpl.
  - split; [intros _ Hin; by apply elem_of_nil in Hin | done].
  - rewrite not_elem_of_cons. destruct (String.eqb_spec n name) as [-> | Hn].
    + split; [done | by intros [? _]].
    + rewrite IH. split; [by intros ? | by intros [_ ?]].
Qed.

Lemma store_fresh name o zip :
  lookup name zip = None → store name o zip = zip ++ [(name, o)].
Proof.
  induction zip as [|[n o'] zip IH]; simpl; [done|].
  destruct (String.eqb_spec n name) as [-> | Hn]; [done|].
  intros Hl. by rewrite IH.
Qed.

Lemma store_same name o zip :
  lookup name zip = Some o → store name o zip = zip.
Proof.
  induction zip as [|[n o'] zip IH]; simpl; [done|].
  destruct (String.eqb_spec n name) as [-> | Hn].
  - by intros [= ->].
  - intros Hl. by rewrite IH.
Qed.

Lemma files_of_app zip1 zip2 :
  files_of (zip1 ++ zip2) = files_of zip1 ++ files_of zip2.
Proof. apply omap_app. Qed.

Lemma same_files_refl zip : zip_inv zip → same_files zip zip.
Proof. by intros Hinv. Qed.

Lemma same_files_trans zip1 zip2 zip3 :
  same_files zip1 zip2 → same_files zip2 zip3 → same_files zip1 zip3.
Proof.
  intros (_ & Hf12 & Hd12) (Hinv & Hf23 & Hd23).
  split_and!; [done | congruence | auto].
Qed.

(** Storing a folder under a name that ends with a slash. *)
Lemma store_folder name zip :
  zip_inv zip → Str.ends_with_slash name = true →
  same_files zip (store name ZipDir zip) ∧
  lookup name (store name ZipDir zip) = Some ZipDir.
Proof.
  intros [Hall Hnodup] Hname. split; [|apply lookup_store_eq].
  destruct (lookup name zip) as [o|] eqn:Hl.
  - assert (o = ZipDir) as ->.
    { apply lookup_Some_elem in Hl.
      rewrite Forall_forall in Hall. apply Hall in Hl. simpl in Hl.
      rewrite Hname in Hl. by destruct o. }
    rewrite store_same by done. by apply same_files_refl.
  - rewrite store_fresh by done. split_and!.
    + split.
      * apply Forall_app. split; [done|]. by repeat constructor.
      * rewrite fmap_app. apply NoDup_app. split_and!; [done | | apply NoDup_singleton].
        intros x Hx Hx'. apply list_elem_of_singleton in Hx' as ->.
        by apply lookup_None_keys in Hl.
    + rewrite files_of_app. simpl. by rewrite app_nil_r.
    + intros k Hk. destruct (decide (name = k)) as [<- | Hne]; [congruence|].
      rewrite <- store_fresh by done. by rewrite lookup_store_ne.
Qed.

Lemma folderAdd_same_files fuel name zip :
  zip_inv zip → same_files zip (folderAdd fuel name zip).
Proof.
  revert name zip. induction fuel as [|fuel IH]; intros name zip Hinv; simpl.
  - by apply same_files_refl.
  - destruct (lookup (forceTrailingSlash name) zip); [by apply same_files_refl|].
    destruct (Str.truthy (parentFolder (forceTrailingSlash name))).
    + eapply same_files_trans; [by apply IH|].
      apply store_folder; [apply (IH _ _ Hinv) | apply forceTrailingSlash_ends].
    + by apply store_folder; [| apply forceTrailingSlash_ends].
Qed.

(** The fuel of [folderAdd] is enough: a parent folder is shorter than
    its child, so any fuel of at least the length of the name gives the
    same archive. *)
Lemma length_append a b :
  String.length (a +:+ b) = (String.length a + String.length b)%nat.
Proof. induction a as [|c a IH]; [done|]. rewrite str_app_cons. simpl. lia. Qed.

Lemma length_drop_last s :
  String.length (Str.drop_last s) = (String.length s - 1)%nat.
Proof.
  induction s as [|c s IH]; [done|]. destruct s as [|d s]; [done|].
  change (Str.drop_last (String c (String d s)))
    with (String c (Str.drop_last (String d s))).
  simpl in *. lia.
Qed.

Lemma before_last_slash_shorter s t :
  Str.before_last_slash s = Some t → (String.length t < String.length s)%nat.
Proof.
  revert t. induction s as [|c s IH]; intros t; simpl; [done|].
  destruct (Str.before_last_slash s) as [u|].
  - intros [= <-]. specialize (IH u eq_refl). simpl. lia.
  - destruct (Ascii.eqb c "/"); [|done]. intros [= <-]. simpl. lia.
Qed.

Lemma length_forceTrailingSlash s :
  (String.length (forceTrailingSlash s) ≤ S (String.length s))%nat.
Proof.
  unfold forceTrailingSlash. destruct (Str.ends_with_slash s); [lia|].
  rewrite length_append. simpl. lia.
Qed.

Lemma parentFolder_shorter name :
  Str.truthy (parentFolder name) = true →
  (String.length (forceTrailingSlash (parentFolder name))
   ≤ String.length name - (if Str.ends_with_slash name then 1 else 0))%nat.
Proof.
  unfold parentFolder.
  destruct (Str.ends_with_slash name) eqn:Hends.
  - destruct (Str.before_last_slash (Str.drop_last name)) as [t|] eqn:Ht; [|done].
    intros _. simpl. apply before_last_slash_shorter in Ht.
    rewrite length_drop_last in Ht.
    pose proof (length_forceTrailingSlash t). lia.
  - destruct (Str.before_last_slash name) as [t|] eqn:Ht; [|done].
    intros _. simpl. apply before_last_slash_shorter in Ht.
    pose proof (length_forceTrailingSlash t). lia.
Qed.

Lemma folderAdd_fuel fuel fuel' name zip :
  (String.length (forceTrailingSlash name) ≤ fuel)%nat →
  (String.length (forceTrailingSlash name) ≤ fuel')%nat →
  folderAdd fuel name zip = folderAdd fuel' name zip.
Proof.
  revert fuel' name zip.
  induction fuel as [|fuel IH]; intros fuel' name zip Hfuel Hfuel'.
  - pose proof (forceTrailingSlash_ends name) as Hends.
    destruct (forceTrailingSlash name); [done | simpl in Hfuel; lia].
  - destruct fuel' as [|fuel'].
    { pose proof (forceTrailingSlash_ends name) as Hends.
      destruct (forceTrailingSlash name); [done | simpl in Hfuel'; lia]. }
    simpl. destruct (lookup (forceTrailingSlash name) zip); [done|].
    destruct (Str.truthy (parentFolder (forceTrailingSlash name))) eqn:Hparent;
      [|done].
    pose proof (parentFolder_shorter _ Hparent) as Hshort.
    rewrite forceTrailingSlash_ends in Hshort.
    rewrite (IH fuel'); [done | lia | lia].
Qed.

Lemma fileAdd_fuel name fuel zip :
  Str.truthy (parentFolder name) = true →
  (String.length name ≤ fuel)%nat →
  folderAdd fuel (parentFolder name) zip
  = folderAdd (String.length name) (parentFolder name) zip.
Proof.
  intros Hparent Hfuel. pose proof (parentFolder_shorter _ Hparent) as Hshort.
  apply folderAdd_fuel; destruct (Str.ends_with_slash name); lia.
Qed.

Lemma forceTrailingSlash_idem name :
  forceTrailingSlash (forceTrailingSlash name) = forceTrailingSlash name.
Proof. unfold forceTrailingSlash at 1. by rewrite forceTrailingSlash_ends. Qed.

(** [folderAdd] gives a folder of the name, which it adds unless an
    entry of that name is there. *)
Lemma folderAdd_folder fuel name zip :
  zip_inv zip → (0 < fuel)%nat →
  same_files zip (folderAdd fuel name zip) ∧
  lookup (forceTrailingSlash name) (folderAdd fuel name zip) = Some ZipDir.
Proof.
  intros Hinv Hfuel. split; [by apply folderAdd_same_files|].
  destruct fuel as [|fuel]; [lia|]. simpl.
  destruct (lookup (forceTrailingSlash name) zip) as [o|] eqn:Hl;
    [|apply lookup_store_eq].
  rewrite Hl. f_equal. apply lookup_Some_elem in Hl.
  destruct Hinv as [Hall _]. rewrite Forall_forall in Hall.
  apply Hall in Hl. simpl in Hl. rewrite forceTrailingSlash_ends in Hl.
  by destruct o.
Qed.

Lemma folder_segment root segment zip :
  segment_ok segment → zip_inv zip →
  ∃ zip', folder root segment zip = (zip', Some (root +:+ segment +:+ "/")) ∧
          same_files zip zip' ∧
          lookup (root +:+ segment +:+ "/") zip' = Some ZipDir.
Proof.
  intros Hseg Hinv. unfold folder.
  assert (Str.truthy segment = true) as -> by (destruct Hseg; by destruct segment).
  rewrite forceTrailingSlash_segment by done.
  destruct (folderAdd_folder (String.length (root +:+ segment +:+ "/"))
              (root +:+ segment +:+ "/") zip Hinv) as [Hsame Hl].
  { rewrite !length_append. simpl. lia. }
  rewrite <- (forceTrailingSlash_segment root segment Hseg) in Hl at 1.
  rewrite forceTrailingSlash_idem, forceTrailingSlash_segment in Hl by done.
  by eexists.
Qed.

(** Storing a file under a new name that does not end with a slash. *)
Lemma file_put_new root name data zip :
  zip_inv zip →
  Str.ends_with_slash (root +:+ name) = false →
  root +:+ name ∉ (files_of zip).*1 →
  zip_inv (file_put root name data zip) ∧
  files_of (file_put root name data zip) = files_of zip ++ [(root +:+ name, data)] ∧
  ∀ folder, lookup folder zip = Some ZipDir →
            lookup folder (file_put root name data zip) = Some ZipDir.
Proof.
  intros Hinv Hname Hnew. unfold file_put, fileAdd. cbn [is_dir fst].
  set (zip1 := if Str.truthy (parentFolder (root +:+ name))
               then folderAdd (String.length (root +:+ name))
                      (parentFolder (root +:+ name)) zip
               else zip).
  assert (same_files zip zip1) as ([Hall Hnodup] & Hfiles & Hdirs).
  { unfold zip1. destruct (Str.truthy _);
      [by apply folderAdd_same_files | by apply same_files_refl]. }
  assert (lookup (root +:+ name) zip1 = None) as Hfresh.
  { destruct (lookup (root +:+ name) zip1) as [o|] eqn:Hl; [|done].
    exfalso. apply lookup_Some_elem in Hl.
    rewrite Forall_forall in Hall. pose proof (Hall _ Hl) as Ho. simpl in Ho.
    rewrite Hname in Ho. destruct o as [|d]; [done|].
    apply Hnew. rewrite <- Hfiles.
    apply list_elem_of_fmap. exists (root +:+ name, d). split; [done|].
    unfold files_of. apply list_elem_of_omap.
    by exists (root +:+ name, ZipFile d). }
  rewrite store_fresh by done. split_and!.
  - split.
    + apply Forall_app. split; [done|]. by repeat constructor.
    + rewrite fmap_app. apply NoDup_app.
      split_and!; [done | | apply NoDup_singleton].
      intros x Hx Hx'. apply list_elem_of_singleton in Hx' as ->.
      by apply lookup_None_keys in Hfresh.
  - rewrite files_of_app, Hfiles. done.
  - intros folder Hfolder. apply Hdirs in Hfolder.
    destruct (decide (root +:+ name = folder)) as [<- | Hne]; [congruence|].
    rewrite <- store_fresh by done. by rewrite lookup_store_ne.
Qed.

Lemma enterFolders_segments `{Host} segments root zip :
  Forall segment_ok segments → zip_inv zip →
  ∃ zip', enterFolders segments root zip
          = (zip', Some (root +:+ folder_prefix segments)) ∧
          same_files zip zip' ∧
          ∀ n, n < length segments →
               lookup (root +:+ folder_prefix (take (S n) segments)) zip'
               = Some ZipDir.
Proof.
  intros Hsegs. revert root zip.
  induction Hsegs as [|segment rest Hseg Hrest IH]; intros root zip Hinv.
  - exists zip. simpl. split_and!.
    + by rewrite str_app_empty.
    + by apply same_files_refl.
    + intros n Hn. simpl in Hn. lia.
  - destruct (folder_segment root segment zip Hseg Hinv)
      as (zip1 & Hfolder & Hsame1 & Hl1).
    destruct (IH (root +:+ segment +:+ "/") zip1 (proj1 Hsame1))
      as (zip' & Henter & Hsame' & Hdirs).
    exists zip'. simpl. rewrite Hfolder, Henter. split_and!.
    + f_equal. f_equal. by rewrite <- !str_app_assoc.
    + by eapply same_files_trans.
    + intros [|n] Hn; simpl.
      * rewrite str_app_empty. by apply Hsame'.
      * simpl in Hn. rewrite <- !str_app_assoc.
        rewrite !str_app_assoc. specialize (Hdirs n ltac:(lia)).
        by rewrite !str_app_assoc in Hdirs.
Qed.

Lemma folder_prefix_last segments :
  segments ≠ [] →
  folder_prefix (take (length segments - 1) segments)
    +:+ default EmptyString (last segments)
  = Str.join "/" segments.
Proof.
  induction segments as [|x l IH]; [done|]. intros _.
  destruct l as [|y l]; [done|].
  change (last (x :: y :: l)) with (last (y :: l)).
  replace (length (x :: y :: l) - 1) with (S (length (y :: l) - 1))
    by (simpl; lia).
  cbn [take folder_prefix foldr]. fold (folder_prefix (take (length (y :: l) - 1) (y :: l))).
  rewrite !str_app_assoc. rewrite IH by done. done.
Qed.

Lemma last_segment_ok segments :
  segments ≠ [] → Forall segment_ok segments →
  segment_ok (default EmptyString (last segments)).
Proof.
  intros Hne Hall. destruct (last segments) as [seg|] eqn:Hlast.
  - simpl. rewrite Forall_forall in Hall. apply Hall.
    rewrite last_lookup in Hlast. by eapply list_elem_of_lookup_2.
  - by apply last_None in Hlast.
Qed.

Lemma project_path_segments_ok filePath :
  is_project_path filePath = true →
  Forall segment_ok (pathSegments (relativePath filePath)).
Proof.
  intros [_ Hne]%is_project_path_inv.
  pose proof (split_no_separator "/" (relativePath filePath)) as Hno.
  unfold pathSegments in *. rewrite Forall_forall in *.
  intros seg Hin. split; auto.
Qed.

(** One text file of the project goes under its relative path, below
    the folders of its segments. *)
Lemma zipTextFile_project_file `{Host} base filePath content zip :
  is_project_path filePath = true → zip_inv zip →
  base +:+ relativePath filePath ∉ (files_of zip).*1 →
  ∃ zip', zipTextFile base filePath content zip = Some zip' ∧
          zip_inv zip' ∧
          files_of zip' = files_of zip ++ [(base +:+ relativePath filePath, content)] ∧
          (∀ folder, lookup folder zip = Some ZipDir →
                     lookup folder zip' = Some ZipDir) ∧
          ∀ folder,
            folder ∈ folder_names base (pathSegments (relativePath filePath)) →
            lookup folder zip' = Some ZipDir.
Proof.
  intros Hpath Hinv Hnew. unfold zipTextFile. cbn zeta.
  pose proof (project_path_segments_ok filePath Hpath) as Hsegs.
  pose proof (pathSegments_nonempty (relativePath filePath)) as Hne.
  pose proof (last_segment_ok _ Hne Hsegs) as Hlast.
  pose proof (folder_prefix_last _ Hne) as Hjoin.
  assert (Str.join "/" (pathSegments (relativePath filePath))
          = relativePath filePath) as Hj by apply join_split.
  rewrite Hj in Hjoin. clear Hj.
  set (segments := pathSegments (relativePath filePath)) in *.
  assert (Str.ends_with_slash (base +:+ relativePath filePath) = false) as Hslash.
  { rewrite <- Hjoin, <- str_app_assoc.
    rewrite ends_with_slash_app by apply Hlast.
    apply no_slash_no_trailing_slash, Hlast. }
  destruct (1 <? length segments)%nat eqn:Hlen.
  - destruct (enterFolders_segments (take (length segments - 1) segments)
                base zip) as (zip1 & -> & (Hinv1 & Hfiles1 & Hdirs1) & Hfolders);
      [by apply Forall_take | done |].
    assert ((base +:+ folder_prefix (take (length segments - 1) segments))
              +:+ default "" (last segments)
            = base +:+ relativePath filePath) as Hname.
    { by rewrite str_app_assoc, Hjoin. }
    destruct (file_put_new
                (base +:+ folder_prefix (take (length segments - 1) segments))
                (default "" (last segments)) content zip1)
      as (Hinv' & Hfiles' & Hdirs'); [done | by rewrite Hname | |].
    { rewrite Hname, Hfiles1. done. }
    eexists. split; [done|]. rewrite Hname in Hfiles'.
    split_and!; [done | by rewrite Hfiles', Hfiles1 | by auto |].
    intros folder Hin. unfold folder_names in Hin.
    apply list_elem_of_fmap in Hin as (n & -> & Hn).
    apply elem_of_seq in Hn. apply Hdirs'.
    specialize (Hfolders n). rewrite length_take in Hfolders.
    rewrite take_take in Hfolders.
    replace (S n `min` (length segments - 1)) with (S n) in Hfolders by lia.
    apply Hfolders. lia.
  - destruct (file_put_new base (relativePath filePath) content zip)
      as (Hinv' & Hfiles' & Hdirs'); [done..|].
    eexists. split; [done|]. split_and!; [done..|].
    intros folder Hin. unfold folder_names in Hin.
    apply list_elem_of_fmap in Hin as (n & -> & Hn).
    apply elem_of_seq in Hn. apply Nat.ltb_ge in Hlen. lia.
Qed.

Lemma zipFiles_project_files `{Host} base files zip :
  zip_inv zip →
  Forall (λ entry, is_project_path entry.1 = true) (text_entries files) →
  NoDup ((files_of zip).*1
         ++ ((λ entry, base +:+ relativePath entry.1) <$> text_entries files)) →
  ∃ zip', zipFiles base files zip = Some zip' ∧
          zip_inv zip' ∧
          files_of zip' =
            files_of zip
            ++ ((λ entry, (base +:+ relativePath entry.1, entry.2))
                  <$> text_entries files) ∧
          (∀ folder, lookup folder zip = Some ZipDir →
                     lookup folder zip' = Some ZipDir) ∧
          ∀ entry folder,
            entry ∈ text_entries files →
            folder ∈ folder_names base (pathSegments (relativePath entry.1)) →
            lookup folder zip' = Some ZipDir.
Proof.
  revert zip. induction files as [|[filePath dirent] rest IH]; intros zip Hinv Hpaths Hnodup.
  - exists zip. simpl. rewrite app_nil_r.
    split_and!; [done.. |]. intros ?? Hin. by apply elem_of_nil in Hin.
  - rewrite text_entries_cons in *. simpl zipFiles.
    destruct (text_file dirent) as [content|]; [|by apply IH].
    apply Forall_cons in Hpaths as [Hpath Hpaths]. simpl in Hpath.
    rewrite fmap_cons in Hnodup. cbn [fst] in Hnodup.
    destruct (zipTextFile_project_file base filePath content zip Hpath Hinv)
      as (zip1 & -> & Hinv1 & Hfiles1 & Hdirs1 & Hfolders1).
    { apply NoDup_app in Hnodup as (_ & Hdisj & _).
      intros Hin. apply (Hdisj _ Hin). apply list_elem_of_here. }
    destruct (IH zip1 Hinv1 Hpaths) as (zip' & -> & Hinv' & Hfiles' & Hdirs' & Hfolders').
    { rewrite Hfiles1, fmap_app, <- app_assoc. done. }
    exists zip'. split; [done|]. split_and!; [done | | by auto |].
    + rewrite Hfiles', Hfiles1, <- app_assoc. done.
    + intros entry folder Hin Hfolder.
      apply elem_of_cons in Hin as [-> | Hin].
      * apply Hdirs'. by apply Hfolders1.
      * by eapply Hfolders'.
Qed.

Lemma text_entries_paths files :
  NoDup files.*1 → NoDup (text_entries files).*1.
Proof.
  induction files as [|[filePath dirent] rest IH]; [done|].
  rewrite text_entries_cons. simpl. intros Hnodup.
  apply NoDup_cons in Hnodup as [Hnotin Hnodup].
  destruct (text_file dirent) as [content|]; [|by apply IH].
  simpl. apply NoDup_cons. split; [|by apply IH].
  intros Hin. apply Hnotin. clear -Hin.
  induction rest as [|[p d] rest IH]; [done|].
  rewrite text_entries_cons in Hin. simpl.
  destruct (text_file d).
  - simpl in Hin. apply elem_of_cons in Hin as [-> | Hin];
      [apply list_elem_of_here | apply list_elem_of_further; auto].
  - apply list_elem_of_further; auto.
Qed.

Lemma wf_archive_names base files :
  FileMap_wf files →
  NoDup ((λ entry, base +:+ relativePath entry.1) <$> text_entries files).
Proof.
  intros [Hnodup Hpaths]. apply text_entries_paths in Hnodup.
  assert (∀ l : list (string * string),
            (λ entry, base +:+ relativePath entry.1) <$> l
            = (λ p, base +:+ relativePath p) <$> l.*1) as ->
    by (intros l; by rewrite <- list_fmap_compose).
  apply NoDup_fmap_2_strong; [|done].
  intros p q Hp Hq Heq. apply String.app_inj in Heq.
  rewrite Forall_forall in Hpaths.
  apply list_elem_of_fmap in Hp as (ep & -> & Hp).
  apply list_elem_of_fmap in Hq as (eq & -> & Hq).
  apply relativePath_inj; auto.
Qed.

Lemma zip_inv_nil : zip_inv [].
Proof. split; [constructor | apply NoDup_nil_2]. Qed.

(** *** The folders of an archive are the folders above its files *)

Lemma before_last_slash_none s :
  Str.has_char "/" s = false → Str.before_last_slash s = None.
Proof.
  induction s as [|c s IH]; [done|]. simpl.
  intros [Hc Hs]%orb_false_iff. by rewrite IH, Hc.
Qed.

Lemma before_last_slash_app a b :
  Str.has_char "/" b = false →
  Str.before_last_slash (a +:+ b) = Str.before_last_slash a.
Proof.
  intros Hb. induction a as [|c a IH].
  - simpl. by apply before_last_slash_none.
  - rewrite str_app_cons. simpl. by rewrite IH.
Qed.

Lemma before_last_slash_slash r : Str.before_last_slash (r +:+ "/") = Some r.
Proof.
  induction r as [|c r IH]; [done|]. rewrite str_app_cons. simpl. by rewrite IH.
Qed.

Lemma drop_last_app s c : Str.drop_last (s +:+ String c EmptyString) = s.
Proof.
  induction s as [|a s IH]; [done|]. rewrite str_app_cons.
  destruct s as [|b s]; [done|].
  change (Str.drop_last (String a (String b s +:+ String c "")))
    with (String a (Str.drop_last (String b s +:+ String c ""))).
  by rewrite IH.
Qed.

Lemma parentFolder_folder root segment :
  segment_ok segment →
  parentFolder (root +:+ segment +:+ "/")
  = default EmptyString (Str.before_last_slash root).
Proof.
  intros [Hne Hno]. unfold parentFolder.
  rewrite <- str_app_assoc, ends_with_slash_app by done.
  change (Str.ends_with_slash "/") with true. cbv iota.
  by rewrite drop_last_app, before_last_slash_app.
Qed.

Lemma parentFolder_file root name :
  segment_ok name →
  parentFolder (root +:+ name) = default EmptyString (Str.before_last_slash root).
Proof.
  intros [Hne Hno]. unfold parentFolder.
  rewrite ends_with_slash_app, no_slash_no_trailing_slash by done.
  by rewrite before_last_slash_app.
Qed.

Lemma parent_there fuel root zip :
  root_ok root zip →
  (if Str.truthy (default EmptyString (Str.before_last_slash root))
   then folderAdd fuel (default EmptyString (Str.before_last_slash root)) zip
   else zip) = zip.
Proof.
  intros [-> | (r & -> & Hr & Hl)]; [done|].
  rewrite before_last_slash_slash. cbn [default from_option]. unfold Datatypes.id.
  destruct (Str.truthy r); [|done].
  destruct fuel as [|fuel]; [done|]. simpl.
  unfold forceTrailingSlash. rewrite Hr. by rewrite Hl.
Qed.

Lemma folder_exact root segment zip :
  segment_ok segment → root_ok root zip →
  (folder root segment zip).1 =
  match lookup (root +:+ segment +:+ "/") zip with
  | Some _ => zip
  | None => store (root +:+ segment +:+ "/") ZipDir zip
  end.
Proof.
  intros Hseg Hroot. unfold folder.
  assert (Str.truthy segment = true) as -> by (destruct Hseg; by destruct segment).
  rewrite forceTrailingSlash_segment by done. cbn [fst].
  assert (∃ n, String.length (root +:+ segment +:+ "/") = S n) as [n ->].
  { rewrite !length_append. simpl. exists (String.length root + String.length segment)%nat. lia. }
  simpl.
  rewrite <- (forceTrailingSlash_segment root segment Hseg).
  rewrite forceTrailingSlash_idem, forceTrailingSlash_segment by done.
  destruct (lookup (root +:+ segment +:+ "/") zip); [done|].
  by rewrite parentFolder_folder, parent_there.
Qed.

Lemma file_put_exact root name data zip :
  segment_ok name → root_ok root zip →
  file_put root name data zip = store (root +:+ name) (ZipFile data) zip.
Proof.
  intros Hname Hroot. unfold file_put, fileAdd. cbn [is_dir fst].
  by rewrite parentFolder_file, parent_there.
Qed.

Lemma store_lookup_cases name o zip other v :
  lookup other (store name o zip) = Some v →
  (other = name ∧ v = o) ∨ lookup other zip = Some v.
Proof.
  destruct (decide (name = other)) as [<- | Hne].
  - rewrite lookup_store_eq. intros [= <-]. by left.
  - rewrite lookup_store_ne by done. by right.
Qed.

Lemma root_ok_child root segment zip :
  segment_ok segment →
  lookup (root +:+ segment +:+ "/") zip = Some ZipDir →
  root_ok (root +:+ segment +:+ "/") zip.
Proof.
  intros [Hne Hno] Hl. right. exists (root +:+ segment).
  split_and!; [by rewrite str_app_assoc | | done].
  rewrite ends_with_slash_app by done. by apply no_slash_no_trailing_slash.
Qed.

Lemma root_ok_mono root zip zip' :
  (∀ name, lookup name zip = Some ZipDir → lookup name zip' = Some ZipDir) →
  root_ok root zip → root_ok root zip'.
Proof.
  intros Hmono [-> | (r & -> & Hr & Hl)]; [by left|].
  right. exists r. auto.
Qed.

Lemma enterFolders_new_folders `{Host} segments root zip :
  Forall segment_ok segments → zip_inv zip → root_ok root zip →
  root_ok (root +:+ folder_prefix segments) (enterFolders segments root zip).1 ∧
  new_folders_in zip (enterFolders segments root zip).1
    ((λ n, root +:+ folder_prefix (take (S n) segments))
       <$> seq 0 (length segments)).
Proof.
  intros Hsegs. revert root zip.
  induction Hsegs as [|segment rest Hseg Hrest IH]; intros root zip Hinv Hroot.
  - simpl. rewrite str_app_empty. split; [done|]. intros name Hl. by left.
  - destruct (folder_segment root segment zip Hseg Hinv)
      as (zip1 & Hfolder & (Hinv1 & _ & Hmono1) & Hl1).
    pose proof (folder_exact root segment zip Hseg Hroot) as Hexact.
    rewrite Hfolder in Hexact. cbn [fst] in Hexact.
    destruct (IH (root +:+ segment +:+ "/") zip1 Hinv1
                (root_ok_child root segment zip1 Hseg Hl1)) as [Hroot' Hnew].
    simpl enterFolders. rewrite Hfolder. split.
    + cbn [folder_prefix foldr]. fold (folder_prefix rest).
      rewrite !str_app_assoc in Hroot'. exact Hroot'.
    + intros name Hl. apply Hnew in Hl as [Hl | Hin].
      * rewrite Hexact in Hl.
        destruct (lookup (root +:+ segment +:+ "/") zip); [by left|].
        apply store_lookup_cases in Hl as [[-> _] | Hl]; [|by left].
        right. cbn [length seq fmap list_fmap]. left.
      * right. cbn [length seq fmap list_fmap]. right.
        rewrite <- fmap_S_seq, <- list_fmap_compose.
        apply list_elem_of_fmap in Hin as (n & -> & Hn).
        apply list_elem_of_fmap. exists n. split; [|done].
        cbn [compose take folder_prefix foldr].
        fold (folder_prefix (take (S n) rest)).
        by rewrite !str_app_assoc.
Qed.

Lemma zipTextFile_new_folders `{Host} base filePath content zip zip' :
  is_project_path filePath = true → zip_inv zip → root_ok base zip →
  zipTextFile base filePath content zip = Some zip' →
  new_folders_in zip zip'
    (folder_names base (pathSegments (relativePath filePath))).
Proof.
  intros Hpath Hinv Hroot. unfold zipTextFile. cbn zeta.
  pose proof (project_path_segments_ok filePath Hpath) as Hsegs.
  pose proof (pathSegments_nonempty (relativePath filePath)) as Hne.
  pose proof (last_segment_ok _ Hne Hsegs) as Hlast.
  set (segments := pathSegments (relativePath filePath)) in *.
  destruct (1 <? length segments)%nat eqn:Hlen.
  - destruct (enterFolders_segments (take (length segments - 1) segments)
                base zip) as (zip1 & Henter & _ & _);
      [by apply Forall_take | done |].
    destruct (enterFolders_new_folders (take (length segments - 1) segments)
                base zip) as [Hroot1 Hnew1];
      [by apply Forall_take | done | done |].
    rewrite Henter in *. cbn [fst] in *. intros [= <-].
    rewrite file_put_exact by done.
    intros name Hl. apply store_lookup_cases in Hl as [[_ [=]] | Hl].
    apply Hnew1 in Hl as [Hl | Hin]; [by left|]. right.
    unfold folder_names. rewrite length_take in Hin.
    rewrite Nat.min_l in Hin by lia.
    apply list_elem_of_fmap in Hin as (n & -> & Hn).
    apply list_elem_of_fmap. exists n. split; [|done].
    apply elem_of_seq in Hn. rewrite take_take. f_equal. f_equal. f_equal. lia.
  - intros [= <-].
    assert (relativePath filePath = default EmptyString (last segments)) as Hrel.
    { pose proof (segments_of_pathSegments (relativePath filePath)) as (_ & _ & Hj).
      fold segments in Hj. apply Nat.ltb_ge in Hlen.
      destruct segments as [|seg [|seg' rest]]; [done | | simpl in Hlen; lia].
      by rewrite <- Hj. }
    rewrite Hrel, file_put_exact by done.
    intros name Hl. apply store_lookup_cases in Hl as [[_ [=]] | Hl]. by left.
Qed.

Lemma zipFiles_new_folders `{Host} base files zip zip' :
  zip_inv zip → root_ok base zip →
  Forall (λ entry, is_project_path entry.1 = true) (text_entries files) →
  NoDup ((files_of zip).*1
         ++ ((λ entry, base +:+ relativePath entry.1) <$> text_entries files)) →
  zipFiles base files zip = Some zip' →
  new_folders_in zip zip'
    (text_entries files ≫=
       (λ entry, folder_names base (pathSegments (relativePath entry.1)))).
Proof.
  revert zip. induction files as [|[filePath dirent] rest IH];
    intros zip Hinv Hroot Hpaths Hnodup.
  - simpl. intros [= <-] name Hl. by left.
  - rewrite text_entries_cons in *. simpl zipFiles.
    destruct (text_file dirent) as [content|]; [|by apply IH].
    apply Forall_cons in Hpaths as [Hpath Hpaths]. simpl in Hpath.
    rewrite fmap_cons in Hnodup. cbn [fst] in Hnodup.
    destruct (zipTextFile_project_file base filePath content zip Hpath Hinv)
      as (zip1 & Hzip1 & Hinv1 & Hfiles1 & Hdirs1 & _).
    { apply NoDup_app in Hnodup as (_ & Hdisj & _).
      intros Hin. apply (Hdisj _ Hin). apply list_elem_of_here. }
    rewrite Hzip1. intros Hrest.
    pose proof (zipTextFile_new_folders base filePath content zip zip1
                  Hpath Hinv Hroot Hzip1) as Hnew1.
    assert (new_folders_in zip1 zip'
              (text_entries rest ≫=
                 (λ entry, folder_names base (pathSegments (relativePath entry.1)))))
      as Hnew.
    { apply IH; [done | by eapply root_ok_mono | done | | done].
      rewrite Hfiles1, fmap_app, <- app_assoc. done. }
    intros name Hl. rewrite bind_cons, elem_of_app.
    apply Hnew in Hl as [Hl | Hin]; [|by right; right].
    apply Hnew1 in Hl as [Hl | Hin]; [by left | by right; left].
Qed.

Lemma files_of_keys name data (zip : Files) :
  (name, data) ∈ files_of zip → name ∈ zip.*1.
Proof.
  induction zip as [|[n o] zip IH]; [by intros ?%elem_of_nil|].
  cbn. destruct o.
  - intros ?. right. by apply IH.
  - rewrite !elem_of_cons. intros [[= <- <-]|?]; [by left|].
    right. by apply IH.
Qed.

Lemma lookup_files_of name zip data :
  lookup name zip = Some (ZipFile data) → (name, data) ∈ files_of zip.
Proof.
  induction zip as [|[n o] zip IH]; [done|]. cbn [lookup].
  destruct (String.eqb_spec n name) as [->|Hne].
  - intros [= ->]. cbn. by left.
  - intros Hl. cbn. destruct o; [by apply IH|]. right. by apply IH.
Qed.

Lemma files_of_lookup name zip data :
  NoDup zip.*1 → (name, data) ∈ files_of zip →
  lookup name zip = Some (ZipFile data).
Proof.
  induction zip as [|[n o] zip IH]; [by intros _ ?%elem_of_nil|].
  cbn [fmap list_fmap fst]. rewrite NoDup_cons. intros [Hn Hnd].
  cbn [lookup]. destruct (String.eqb_spec n name) as [->|Hne].
  - destruct o; cbn.
    + intros Hin. exfalso. apply Hn. by eapply files_of_keys.
    + rewrite elem_of_cons. intros [[= <-]|Hin]; [done|].
      exfalso. apply Hn. by eapply files_of_keys.
  - destruct o; cbn.
    + by apply IH.
    + rewrite elem_of_cons. intros [[= -> ->]|?]; [done|]. by apply IH.
Qed.

Lemma folder_prefix_concat segments :
  segments ≠ [] →
  folder_prefix segments = String.concat "/" segments +:+ "/".
Proof.
  induction segments as [|x l IH]; [done|]. intros _.
  destruct l as [|y l]; [by cbn; rewrite str_app_empty|].
  change (folder_prefix (x :: y :: l))
    with (x +:+ "/" +:+ folder_prefix (y :: l)).
  rewrite IH by done.
  change (String.concat "/" (x :: y :: l))
    with (x +:+ "/" +:+ String.concat "/" (y :: l)).
  by rewrite !str_app_assoc.
Qed.

(** The file entries and the folder entries of an archive that holds
    the non-binary files of the project under [base]. *)
Lemma archived_entry base files name data :
  files_in_project files →
  (name, data)
  ∈ (λ entry, (base +:+ relativePath entry.1, entry.2)) <$> text_entries files ↔
  ∃ relative, name = base +:+ relative ∧
              (("/home/project/" +:+ relative)%string, data)
              ∈ non_binary_files files.
Proof.
  intros Hin.
  pose proof (files_in_project_wf _ Hin) as [_ Hpaths].
  rewrite <- text_entries_non_binary. rewrite Forall_forall in Hpaths.
  split.
  - intros Hl.
    apply list_elem_of_fmap in Hl as ([filePath content] & [= -> ->] & Hentry).
    exists (relativePath filePath). split; [done|]. cbn [fst snd].
    destruct (is_project_path_inv filePath (Hpaths _ Hentry)) as [<- _]. done.
  - intros (relative & -> & Hentry). apply list_elem_of_fmap.
    eexists. split; [|exact Hentry]. cbn [fst snd].
    by rewrite relativePath_project.
Qed.

Lemma archive_files base files zip :
  files_in_project files → NoDup zip.*1 →
  files_of zip =
    (λ entry, (base +:+ relativePath entry.1, entry.2)) <$> text_entries files →
  ∀ name data,
    lookup name zip = Some (ZipFile data) ↔
    ∃ relative, name = base +:+ relative ∧
                (("/home/project/" +:+ relative)%string, data)
                ∈ non_binary_files files.
Proof.
  intros Hin Hnodup Hfiles name data.
  rewrite <- (archived_entry base files name data Hin), <- Hfiles.
  split; [apply lookup_files_of | by apply files_of_lookup].
Qed.

Lemma archive_folders base files (zip : Files) :
  files_in_project files →
  (∀ entry folder,
     entry ∈ text_entries files →
     folder ∈ folder_names base (pathSegments (relativePath entry.1)) →
     lookup folder zip = Some ZipDir) →
  (∀ name, lookup name zip = Some ZipDir →
           name ∈ text_entries files ≫=
                    (λ entry, folder_names base
                                (pathSegments (relativePath entry.1)))) →
  ∀ name,
    lookup name zip = Some ZipDir ↔
    ∃ filePath data,
      (filePath, data) ∈ non_binary_files files ∧ folder_above base filePath name.
Proof.
  intros [_ Hin] Hfolders Hnew name.
  rewrite <- text_entries_non_binary in *. rewrite Forall_forall in Hin.
  split.
  - intros Hl%Hnew. apply list_elem_of_bind in Hl as ([filePath data] & Hname & Hentry).
    exists filePath, data. split; [done|].
    destruct (Hin _ Hentry) as [segments Hp].
    pose proof (project_file_path _ _ Hp) as [_ Hsegs].
    destruct Hp as (Hne & Hall & Hpath). cbn [fst] in *.
    rewrite Hsegs in Hname. unfold folder_names in Hname.
    apply list_elem_of_fmap in Hname as (n & -> & Hn). apply elem_of_seq in Hn.
    exists segments, (S n). split_and!; [| done | lia | lia |].
    + eapply Forall_impl; [exact Hall|]. by intros seg [_ ?].
    + rewrite folder_prefix_concat; [done|].
      destruct segments; [done | discriminate].
  - intros (filePath & data & Hentry & segments & n & Hall & -> & Hn & ->).
    apply (Hfolders _ _ Hentry). cbn [fst].
    rewrite relativePath_project, pathSegments_concat; [| |done].
    + unfold folder_names. apply list_elem_of_fmap. exists (n - 1)%nat.
      split; [|apply elem_of_seq; lia].
      replace (S (n - 1)) with n by lia.
      rewrite folder_prefix_concat; [done|].
      destruct segments; [simpl in Hn; lia|]. destruct n; [lia | discriminate].
    + intros ->. simpl in Hn. lia.
Qed.

(** C6, as the code has it.  When the files store holds each path once
    and its non-binary files are files of the project (their paths are
    '/home/project/' and then names that are not empty, separated by
    slashes), the archive that [downloadZip]
    saves as 'project.zip' has exactly one file entry for each entry of
    the store that is of type 'file' and not binary: it is named by the
    file's path without '/home/project/' and holds the file's content.
    Its other entries are the folders above these files, one for each
    proper prefix of the segments of a path.  Binary files and folder
    entries of the store add nothing. *)
Theorem downloadZip_archives_text_files `{Host} wb w :
  files_in_project (io FsFiles w).1 → downloadZip_spec wb w.
Proof.
  intros Hin. pose proof (files_in_project_wf _ Hin) as Hwf.
  unfold downloadZip_spec, downloadZip. cbn zeta. exec_step.
  destruct (zipFiles_project_files EmptyString (io FsFiles w).1 [])
    as (zip & Hzip & Hinv & Hfiles & _ & Hfolders).
  { apply zip_inv_nil. }
  { apply Hwf. }
  { apply (wf_archive_names EmptyString), Hwf. }
  pose proof (zipFiles_new_folders EmptyString (io FsFiles w).1 [] zip
                zip_inv_nil (or_introl eq_refl) (proj2 Hwf)
                (wf_archive_names EmptyString _ Hwf) Hzip) as Hnew.
  exists zip. rewrite Hzip. cbn [or_throw]. exec_seq. exec_step.
  cbv beta iota. exec_step.
  unfold outcome_of, store_of, calls_of. cbn [fst snd].
  split_and!; try done.
  - unit_reply.
  - apply Hinv.
  - by rewrite Hfiles, <- text_entries_non_binary, length_app, length_fmap.
  - intros name data.
    rewrite (archive_files EmptyString _ zip Hin (proj2 Hinv) Hfiles).
    split; [by intros (relative & -> & ?) | intros ?; by eexists].
  - apply (archive_folders EmptyString); [done | done |].
    intros name Hl. by destruct (Hnew name Hl).
Qed.

End Zip.

(** ** Backup *)

Section Backup.
Context `{Host}.
Import JSZip.

Lemma code_folder :
  folder EmptyString "code" [] = ([("code/", ZipDir)], Some "code/").
Proof. reflexivity. Qed.

Lemma zip_inv_code : zip_inv [("code/", ZipDir)].
Proof.
  split; [by repeat constructor|]. simpl. apply NoDup_singleton.
Qed.

Lemma projectName_of_title wb id :
  match artifacts wb !! id with
  | Some (Artifact first) =>
      projectName_of (Js.read (artifacts wb) id) = name_of_title (title first)
  | Some (Fragment {| new_title := Some title |}) =>
      projectName_of (Js.read (artifacts wb) id) = name_of_title title
  | _ => projectName_of (Js.read (artifacts wb) id) = "project"
  end.
Proof.
  unfold Js.read, projectName_of, name_of_title.
  destruct (artifacts wb !! id) as [[first | [[title|] ?]]|]; cbn.
  - by destruct (Str.replace_space_runs _ _ _).
  - by destruct (Str.replace_space_runs _ _ _).
  - done.
  - by case_bool_decide.
Qed.

Lemma exec_firstArtifact_bind {B} (f : Js.Property ArtifactObject → M B) wb w :
  exec (firstArtifact ≫= f) wb w =
  exec (f (Js.read (artifacts wb)
             (default "undefined" (artifactIdList wb !! 0)))) wb w.
Proof.
  unfold firstArtifact. rewrite exec_bind, exec_get_bind.
  unfold getArtifact. rewrite exec_get_bind, exec_ret.
  by destruct (exec (f _) wb w) as [[[o wb2] w2] t2].
Qed.

Lemma code_name_not x other :
  String.prefix "code/" other = false → "code/" +:+ x ≠ other.
Proof.
  intros Hp Heq. subst other.
  assert (∀ p, String.prefix p (p +:+ x) = true) as Hprefix.
  { induction p as [|c p IH]; [by destruct x|].
    rewrite str_app_cons. simpl. by destruct (Ascii.ascii_dec c c). }
  by rewrite Hprefix in Hp.
Qed.

Lemma not_in_code_names (entries : list (string * string)) other :
  String.prefix "code/" other = false →
  other ∉ ((λ entry, ("code/" +:+ relativePath entry.1, entry.2)) <$> entries).*1.
Proof.
  intros Hp Hin. apply list_elem_of_fmap in Hin as ([n d] & -> & Hin).
  apply list_elem_of_fmap in Hin as (entry & [= -> ->] & _).
  by eapply code_name_not.
Qed.

(** The run of [exportProject], call by call. *)
Lemma exportProject_run wb w :
  FileMap_wf (io FsFiles w).1 →
  let files := (io FsFiles w).1 in
  let first :=
    Js.read (artifacts wb) (default "undefined" (artifactIdList wb !! 0)) in
  let projectName := projectName_of first in
  let w1 := (io FsFiles w).2 in
  let now := (io DateNow w1).1 in
  let w2 := (io DateNow w1).2 in
  let db := (io Db w2).1 in
  let chatHistory := if db then (io DbGetAll (io Db w2).2).1 else None in
  let filename :=
    "backup-" +:+ projectName +:+ "-" +:+ datetime_of now +:+ ".zip" in
  ∃ zip exportDate w',
    exec exportProject wb w =
    (Returned tt, wb, w',
     [FsFiles; DateNow; Db]
     ++ (if db then
           DbGetAll :: match chatHistory with
                       | Some _ => []
                       | None => [Toast toast_error "Failed to export chat history"]
                       end
         else [])
     ++ [DateNow; SaveAs zip filename;
         Toast toast_success "Project exported successfully"]) ∧
    zip_inv zip ∧
    lookup "code/" zip = Some ZipDir ∧
    files_of zip =
      ((λ entry, ("code/" +:+ relativePath entry.1, entry.2)) <$> text_entries files)
      ++ match chatHistory with
         | Some chats => [("chat_history.json", JSON_stringify (JArr chats))]
         | None => []
         end
      ++ [("metadata.json", JSON_stringify (metadata_of exportDate projectName))].
Proof.
  intros Hwf. cbn zeta. unfold exportProject. rewrite exec_try_catch.
  exec_step.
  match goal with
  | |- context [@exec _ ?B (@mbind _ _ ?A ?B' ?f firstArtifact) ?b ?v] =>
      change (@exec _ B (@mbind _ _ A B' f firstArtifact) b v)
        with (@exec _ B (@mbind M _ (Js.Property ArtifactObject) B f firstArtifact) b v);
      rewrite (@exec_firstArtifact_bind B f b v)
  end.
  cbv beta zeta. exec_step. rewrite code_folder. cbv beta iota zeta.
  cbn [or_throw]. exec_step. cbv beta.
  destruct (zipFiles_project_files "code/" (io FsFiles w).1 [("code/", ZipDir)])
    as (zip1 & Hzip & Hinv1 & Hfiles1 & Hdirs1 & _).
  { apply zip_inv_code. }
  { apply Hwf. }
  { apply (wf_archive_names "code/"), Hwf. }
  rewrite Hzip. cbn [or_throw]. exec_step. cbv beta. exec_step.
  change (files_of [("code/", ZipDir)]) with (@nil (string * string)) in Hfiles1.
  rewrite app_nil_l in Hfiles1.
  specialize (Hdirs1 "code/" eq_refl).
  cbv beta iota zeta delta [Reply].
  set (zipc := λ chats : option (list JsValue),
         match chats with
         | Some chats => file_put "" "chat_history.json"
                           (JSON_stringify (JArr chats)) zip1
         | None => zip1
         end).
  assert (∀ chats, zip_inv (zipc chats) ∧
            lookup "code/" (zipc chats) = Some ZipDir ∧
            files_of (zipc chats) =
              files_of zip1 ++ match chats with
                               | Some chats =>
                                   [("chat_history.json", JSON_stringify (JArr chats))]
                               | None => []
                               end) as Hzipc.
  { intros [chats|]; simpl; [|by rewrite app_nil_r].
    destruct (file_put_new "" "chat_history.json"
                (JSON_stringify (JArr chats)) zip1) as (? & ? & ?);
      [done | done | | by auto].
    rewrite Hfiles1. by apply not_in_code_names. }
  assert (∀ chats exportDate projectName,
            let zip := file_put "" "metadata.json"
                         (JSON_stringify (metadata_of exportDate projectName))
                         (zipc chats) in
            zip_inv zip ∧ lookup "code/" zip = Some ZipDir ∧
            files_of zip =
              files_of zip1
              ++ match chats with
                 | Some chats =>
                     [("chat_history.json", JSON_stringify (JArr chats))]
                 | None => []
                 end
              ++ [("metadata.json",
                   JSON_stringify (metadata_of exportDate projectName))]) as Hmeta.
  { intros chats exportDate projectName. cbn zeta.
    destruct (Hzipc chats) as (Hinvc & Hcode & Hfilesc).
    destruct (file_put_new "" "metadata.json"
                (JSON_stringify (metadata_of exportDate projectName)) (zipc chats))
      as (? & Hf & ?); [done | done | | ].
    { rewrite Hfilesc, Hfiles1, fmap_app. apply not_elem_of_app. split.
      - by apply not_in_code_names.
      - destruct chats; simpl; [|apply not_elem_of_nil].
        by intros ?%list_elem_of_singleton. }
    split_and!; [done | by auto |].
    by rewrite Hf, Hfilesc, <- app_assoc. }
  rewrite Hfiles1 in Hmeta. clear Hzipc Hfiles1.
  exec_seq. cbv beta iota zeta delta [Reply].
  match goal with
  | |- context [exec (if ?b then _ else _) _ _] => destruct b
  end.
  - exec_step. cbv beta iota zeta delta [Reply].
    match goal with
    | |- context [exec (match ?c with Some _ => _ | None => _ end) _ _] =>
        destruct c as [chats|]
    end.
    + exec_step. cbv beta iota. do 3 (exec_step; cbv beta iota zeta).
      do 3 eexists. split; [|apply (Hmeta (Some chats))].
      match goal with
      | |- (Returned ?u, _, _, _) = _ => destruct u
      end; reflexivity.
    + exec_step. cbv beta iota. exec_step. cbv beta iota.
      do 3 (exec_step; cbv beta iota zeta).
      do 3 eexists. split; [|apply (Hmeta None)].
      match goal with
      | |- (Returned ?u, _, _, _) = _ => destruct u
      end; reflexivity.
  - exec_step. cbv beta iota. do 3 (exec_step; cbv beta iota zeta).
    do 3 eexists. split; [|apply (Hmeta None)].
    match goal with
    | |- (Returned ?u, _, _, _) = _ => destruct u
    end; reflexivity.
Qed.

(** C7, as the code has it.  When the files store holds each path once
    and its non-binary files are files of the project, [exportProject]
    saves one archive.  It holds the folder 'code' and these file
    entries and no other: under 'code', every non-binary file of the
    store at its path without '/home/project/', with its content;
    metadata.json with an export date, version '1.0' and the project
    name; and, when the database is available and reading it succeeds,
    chat_history.json with all stored chats.  The archive is saved as
    'backup-<projectName>-<datetime>.zip', where the project name is the
    first artifact's title lowercased with white-space runs replaced by
    '-' when that is not empty, and 'project' otherwise or when there is
    no title to read. *)
Theorem exportProject_backup wb w :
  files_in_project (io FsFiles w).1 → exportProject_spec wb w.
Proof.
  intros Hin. pose proof (files_in_project_wf _ Hin) as Hwf.
  unfold exportProject_spec. cbn zeta.
  destruct (exportProject_run wb w Hwf)
    as (zip & exportDate & w' & -> & Hinv & Hcode & Hfiles).
  eexists _, zip, exportDate.
  unfold outcome_of, store_of, calls_of. cbn [fst snd].
  split; [apply projectName_of_title|].
  split_and!; try done.
  - intros archive name.
    rewrite !elem_of_app, !elem_of_cons, !elem_of_nil. split.
    + intros Hsaved. destruct_or!; try discriminate; try done.
      * destruct (io Db _).1; [|by apply elem_of_nil in Hsaved].
        apply elem_of_cons in Hsaved as [? | Hsaved]; [done|].
        destruct (io DbGetAll _).1; [by apply elem_of_nil in Hsaved|].
        by apply list_elem_of_singleton in Hsaved.
      * by injection Hsaved as -> ->.
    + intros [-> ->]. right. right. right. by left.
  - rewrite !elem_of_app, !elem_of_cons. right. right. right. right. by left.
  - apply Hinv.
  - intros name data. split.
    + intros Hl%lookup_files_of. rewrite Hfiles in Hl.
      rewrite !elem_of_app in Hl. destruct Hl as [Hl | [Hl | Hl]].
      * left. by apply (archived_entry "code/").
      * right. right.
        match type of Hl with
        | context [match ?c with Some _ => _ | None => _ end] =>
            destruct c as [chats|]
        end; [|by apply elem_of_nil in Hl].
        apply list_elem_of_singleton in Hl as [= -> ->]. eauto.
      * right. left. by apply list_elem_of_singleton in Hl as [= -> ->].
    + intros Hentry. apply files_of_lookup; [apply Hinv|].
      rewrite Hfiles, !elem_of_app.
      destruct Hentry as [Hentry | [[-> ->] | (-> & chats & -> & ->)]].
      * left. by apply (archived_entry "code/").
      * right. right. by apply list_elem_of_singleton.
      * right. left. by apply list_elem_of_singleton.
Qed.

End Backup.

(** ** Restore *)

Section Validation.
Context `{Host}.

(** [folder] never answers [null]: the check of the code folder in
    [importProjectBackup] cannot fail. *)
Lemma folder_never_null root name zip :
  ∃ zip' root', JSZip.folder root name zip = (zip', Some root').
Proof.
  unfold JSZip.folder. destruct (Str.truthy name); by eauto.
Qed.

(** An archive without metadata.json or without chat_history.json is
    rejected before anything is restored. *)
Lemma importProjectBackup_requires_both_files file zip wb w :
  file_archive file = Some zip →
  JSZip.file_get EmptyString "metadata.json" zip = None ∨
  JSZip.file_get EmptyString "chat_history.json" zip = None →
  rejected_with "Invalid backup file format" file wb w.
Proof.
  intros Hzip Hmissing. unfold rejected_with, importProjectBackup. cbn zeta.
  rewrite exec_try_catch, Hzip. cbn [or_throw]. exec_step. cbv beta.
  destruct (folder_never_null EmptyString "code" zip) as (zip' & root' & ->).
  cbv beta iota.
  destruct (JSZip.file_get EmptyString "metadata.json" zip) as [m|];
    destruct (JSZip.file_get EmptyString "chat_history.json" zip) as [c|];
    try (by destruct Hmissing);
    cbv beta iota; exec_step; unfold outcome_of, store_of, calls_of; cbn [fst snd];
    (split_and!; [unit_reply | done | done]).
Qed.

(** A metadata.json without a version or without an export date is
    rejected before anything is restored. *)
Lemma importProjectBackup_requires_metadata_fields file zip metadata chatHistory
    metadataJson wb w :
  file_archive file = Some zip →
  JSZip.file_get EmptyString "metadata.json" zip = Some metadata →
  JSZip.file_get EmptyString "chat_history.json" zip = Some chatHistory →
  JSON_parse metadata = Some (JObj metadataJson) →
  Js.truthy (Js.assoc "version" metadataJson) = false ∨
  Js.truthy (Js.assoc "exportDate" metadataJson) = false →
  rejected_with "Invalid backup metadata" file wb w.
Proof.
  intros Hzip Hmeta Hchat Hparse Hfields.
  unfold rejected_with, importProjectBackup. cbn zeta.
  rewrite exec_try_catch, Hzip. cbn [or_throw]. exec_step. cbv beta.
  destruct (folder_never_null EmptyString "code" zip) as (zip' & root' & ->).
  rewrite Hmeta, Hchat. cbv beta iota. rewrite Hparse.
  cbn [or_throw]. exec_step. cbv beta. cbn [or_throw Js.get]. exec_step.
  cbv beta.
  destruct (Js.truthy (Js.assoc "version" metadataJson)); cbn [negb].
  - cbn [or_throw Js.get]. exec_step. cbv beta.
    destruct (Js.truthy (Js.assoc "exportDate" metadataJson)); cbn [negb];
      [by destruct Hfields|].
    exec_step. unfold outcome_of, store_of, calls_of; cbn [fst snd].
    split_and!; [unit_reply | done | done].
  - exec_step. unfold outcome_of, store_of, calls_of; cbn [fst snd].
    split_and!; [unit_reply | done | done].
Qed.

End Validation.

(** ** The theorems on concrete data *)

Section OnTheReferenceHost.
#[local] Existing Instance Demo.host.

Lemma demo_files_in_project : files_in_project Demo.files.
Proof.
  split.
  - apply (bool_decide_unpack _). vm_compute. exact I.
  - repeat constructor.
    + exists ["src"; "App.tsx"]. split_and!; [done | | done].
      repeat constructor; try done; compute_done.
    + exists ["package.json"]. split_and!; [done | | done].
      repeat constructor; try done; compute_done.
Qed.

Lemma runAction_dispatches_on_tag_witness :
  artifacts Demo.store !! messageId Demo.file_action = Some (Artifact Demo.artifact) ∧
  runAction_spec Demo.file_action false Demo.artifact Demo.store Demo.world.
Proof.
  split; [reflexivity|].
  apply (runAction_dispatches_on_tag Demo.file_action false Demo.artifact
           Demo.store Demo.world).
  reflexivity.
Defined.

Lemma unknown_artifact_is_rejected_witness :
  artifacts Demo.store !! messageId Demo.stray_action = None ∧
  artifact_not_found (addAction Demo.stray_action) Demo.store Demo.world ∧
  artifact_not_found (runAction Demo.stray_action true) Demo.store Demo.world.
Proof.
  split; [reflexivity|].
  apply (unknown_artifact_is_rejected Demo.stray_action true Demo.store Demo.world).
  - reflexivity.
  - compute_done.
Defined.

Lemma addArtifact_registers_once_witness :
  addArtifact_spec Demo.artifact_data (new_WorkbenchStore None) Demo.world.
Proof.
  apply (addArtifact_registers_once Demo.artifact_data
           (new_WorkbenchStore None) Demo.world).
  split; [apply NoDup_nil_2|].
  intros id Hin. inversion Hin.
Defined.

Lemma downloadZip_archives_text_files_witness :
  downloadZip_spec Demo.store Demo.world.
Proof.
  apply (downloadZip_archives_text_files Demo.store Demo.world).
  apply demo_files_in_project.
Defined.

Lemma exportProject_backup_witness :
  exportProject_spec Demo.store Demo.world.
Proof.
  apply (exportProject_backup Demo.store Demo.world).
  apply demo_files_in_project.
Defined.

Lemma setCurrentDocumentContent_tracks_unsaved_witness :
  tracks_unsaved "export default Todo" "/home/project/src/App.tsx"
    Demo.store Demo.world.
Proof.
  apply (setCurrentDocumentContent_tracks_unsaved "export default Todo"
           Demo.store Demo.world "/home/project/src/App.tsx"
           {| value := "export default App";
              doc_filePath := "/home/project/src/App.tsx" |}).
  - reflexivity.
  - reflexivity.
  - discriminate.
  - reflexivity.
Defined.

(** C2 at a message id that is the name of a property of
    [Object.prototype].  No artifact is registered under 'constructor',
    and yet neither method reports 'Artifact not found': the lookup on
    the plain object finds the inherited property, the guard passes,
    and reading the runner of what was found throws a [TypeError]. *)
Theorem inherited_name_is_not_rejected :
  artifacts Demo.store !! messageId Demo.inherited_action = None ∧
  exec (addAction Demo.inherited_action) Demo.store Demo.world
  = (Threw TypeError, Demo.store, Demo.world, []) ∧
  exec (runAction Demo.inherited_action false) Demo.store Demo.world
  = (Threw TypeError, Demo.store, Demo.world, []).
Proof. split_and!; reflexivity. Qed.

(** C3 at a message id that is the name of a property of
    [Object.prototype].  In the store that the constructor makes, no
    artifact exists under 'constructor', and [addArtifact] returns
    early all the same: the id is not listed and no artifact is
    registered. *)
Theorem addArtifact_skips_inherited_name :
  let r := exec (addArtifact Demo.inherited_data)
             (new_WorkbenchStore None) Demo.world in
  artifacts (new_WorkbenchStore None) !! a_messageId Demo.inherited_data = None ∧
  outcome_of r = Returned tt ∧
  artifactIdList (store_of r) = [] ∧
  artifacts (store_of r) !! a_messageId Demo.inherited_data = None ∧
  calls_of r = [].
Proof. cbn zeta. split_and!; reflexivity. Qed.

(** C9 at a path that is the name of a property of [Object.prototype].
    The editor has no document for 'constructor', and [saveFile] does
    not return early: it hands [undefined] to the files store and
    removes the path from [unsavedFiles]. *)
Theorem saveFile_saves_inherited_name :
  let r := exec (saveFile "constructor") Demo.marked Demo.world in
  (io EdDocuments Demo.world).1 !! "constructor" = None ∧
  calls_of r = [EdDocuments; FsSaveFile "constructor" None] ∧
  "constructor" ∈ unsavedFiles Demo.marked ∧
  "constructor" ∉ unsavedFiles (store_of r).
Proof.
  cbn zeta. split_and!; [reflexivity | reflexivity | compute_done | compute_done].
Qed.

(** C10 at a message id that is the name of a property of
    [Object.prototype].  No artifact is registered under 'constructor',
    and [updateArtifact] changes the store all the same: the artifacts
    object gets the key 'constructor', which holds the fields of the
    update. *)
Theorem updateArtifact_stores_for_inherited_name :
  let state := {| new_title := Some "Renamed"; new_closed := None |} in
  let r := exec (updateArtifact Demo.inherited_data state) Demo.store Demo.world in
  artifacts Demo.store !! a_messageId Demo.inherited_data = None ∧
  artifacts (store_of r) !! a_messageId Demo.inherited_data = Some (Fragment state) ∧
  dom (artifacts (store_of r)) ≠ dom (artifacts Demo.store).
Proof.
  cbn zeta. split_and!; [reflexivity | reflexivity |].
  intros Heq. assert ("constructor" ∈ dom (artifacts Demo.store)) as Hin.
  { rewrite <- Heq. compute_done. }
  revert Hin. compute_done.
Qed.

(** For a first artifact whose title is empty the archive is saved as
    'backup-project-...', not under the name made of the (empty)
    transformed title. *)
Lemma exportProject_untitled :
  let r := exec exportProject Demo.untitled Demo.world in
  is_Some (artifacts Demo.untitled !! "msg-1") ∧
  (∃ zip, SaveAs zip "backup-project-20240102030405.zip" ∈ calls_of r) ∧
  ¬ ∃ zip, SaveAs zip (Demo.documented_filename Demo.untitled
                         "2024-01-02T03:04:05.678Z") ∈ calls_of r.
Proof.
  cbn zeta.
  destruct (exportProject_run Demo.untitled Demo.world)
    as (zip & exportDate & w' & -> & _).
  { apply files_in_project_wf, demo_files_in_project. }
  unfold calls_of. cbn [snd].
  split_and!.
  - by eexists.
  - exists zip. rewrite !elem_of_app, !elem_of_cons. do 3 right. by left.
  - intros [zip' Hin]. revert Hin.
    rewrite !elem_of_app, !elem_of_cons, !elem_of_nil.
    intros Hin. destruct_or!; try discriminate; try done.
    vm_compute in Hin. apply elem_of_cons in Hin as [Hin | Hin];
      [discriminate | by apply elem_of_nil in Hin].
Qed.

(** C6, as the documentation words it, fails when a non-binary file is
    not a file of the project.  When a file of the same name lies
    outside of '/home/project/', the store has two non-binary files and
    the archive one entry, which holds the content of the file outside.
    When a path has an empty segment, the entry of the file is not at
    the path without the prefix. *)
Lemma downloadZip_counterexample :
  (non_binary_files (io FsFiles Demo.overlapping).1 =
     [("/home/project/notes.txt", "inside"); ("notes.txt", "outside")] ∧
   calls_of (exec downloadZip Demo.store Demo.overlapping) =
     [FsFiles; SaveAs [("notes.txt", JSZip.ZipFile "outside")] "project.zip"]) ∧
  (non_binary_files (io FsFiles Demo.empty_segment).1 =
     [("/home/project/docs//notes.txt", "inside")] ∧
   calls_of (exec downloadZip Demo.store Demo.empty_segment) =
     [FsFiles;
      SaveAs [("docs/", JSZip.ZipDir); ("docs/notes.txt", JSZip.ZipFile "inside")]
        "project.zip"]).
Proof. split_and!; reflexivity. Qed.

(** When a file of the same name lies outside of the project, the file
    of the project is not in the archive: the entry of its path holds
    the content of the other file. *)
Lemma exportProject_overlapping :
  ∃ zip name,
    calls_of (exec exportProject Demo.store Demo.overlapping) =
      [FsFiles; DateNow; Db; DbGetAll; DateNow; SaveAs zip name;
       Toast toast_success "Project exported successfully"] ∧
    ("/home/project/notes.txt", "inside")
    ∈ non_binary_files (io FsFiles Demo.overlapping).1 ∧
    JSZip.lookup "code/notes.txt" zip = Some (JSZip.ZipFile "outside").
Proof.
  eexists _, _. split_and!; [by vm_compute | | by vm_compute].
  apply list_elem_of_here.
Qed.

(** When a path has an empty segment, the entry of the file is not at
    the path without the prefix. *)
Lemma exportProject_empty_segment :
  ∃ zip name,
    calls_of (exec exportProject Demo.store Demo.empty_segment) =
      [FsFiles; DateNow; Db; DbGetAll; DateNow; SaveAs zip name;
       Toast toast_success "Project exported successfully"] ∧
    ("/home/project/docs//notes.txt", "inside")
    ∈ non_binary_files (io FsFiles Demo.empty_segment).1 ∧
    JSZip.lookup "code/docs//notes.txt" zip = None ∧
    JSZip.lookup "code/docs/notes.txt" zip = Some (JSZip.ZipFile "inside").
Proof.
  eexists _, _. split_and!; [by vm_compute | | by vm_compute..].
  apply list_elem_of_here.
Qed.

End OnTheReferenceHost.

Section OnAnUnreadableDatabase.
#[local] Existing Instance Demo.unreadable_host.

(** When the database is available and reading it fails, the archive
    has no chat_history.json. *)
Lemma exportProject_unreadable :
  ∃ zip name,
    calls_of (exec exportProject Demo.store Demo.unreadable_world) =
      [FsFiles; DateNow; Db; DbGetAll;
       Toast toast_error "Failed to export chat history";
       DateNow; SaveAs zip name;
       Toast toast_success "Project exported successfully"] ∧
    (io Db (io DateNow (io FsFiles Demo.unreadable_world).2).2).1 = true ∧
    JSZip.lookup "chat_history.json" zip = None.
Proof. eexists _, _. split_and!; by vm_compute. Qed.

End OnAnUnreadableDatabase.

(** C7, as the documentation words it, fails: for a first artifact whose
    title is empty the archive is named 'backup-project-...' and not by
    the empty transformed title; when the database is available and
    reading it fails the archive has no chat_history.json; a non-binary
    file of the project is missing from the archive when a file outside
    of the project has the same path without the prefix; and a file
    whose path has an empty segment is not at its path without the
    prefix. *)
Lemma exportProject_counterexample :
  (let r := @exec Demo.host _ (@exportProject Demo.host) Demo.untitled Demo.world in
   is_Some (artifacts Demo.untitled !! "msg-1") ∧
   (∃ zip, SaveAs zip "backup-project-20240102030405.zip" ∈ @calls_of Demo.host _ r) ∧
   ¬ ∃ zip, SaveAs zip (Demo.documented_filename Demo.untitled
                          "2024-01-02T03:04:05.678Z") ∈ @calls_of Demo.host _ r) ∧
  (∃ zip name,
     @calls_of Demo.unreadable_host _
       (@exec Demo.unreadable_host _ (@exportProject Demo.unreadable_host)
          Demo.store Demo.unreadable_world) =
       [FsFiles; DateNow; Db; DbGetAll;
        Toast toast_error "Failed to export chat history";
        DateNow; SaveAs zip name;
        Toast toast_success "Project exported successfully"] ∧
     (@io Demo.unreadable_host Db
        (@io Demo.unreadable_host DateNow
           (@io Demo.unreadable_host FsFiles Demo.unreadable_world).2).2).1 = true ∧
     JSZip.lookup "chat_history.json" zip = None) ∧
  (∃ zip name,
     @calls_of Demo.host _
       (@exec Demo.host _ (@exportProject Demo.host) Demo.store Demo.overlapping) =
       [FsFiles; DateNow; Db; DbGetAll; DateNow; SaveAs zip name;
        Toast toast_success "Project exported successfully"] ∧
     ("/home/project/notes.txt", "inside")
     ∈ non_binary_files (@io Demo.host FsFiles Demo.overlapping).1 ∧
     JSZip.lookup "code/notes.txt" zip = Some (JSZip.ZipFile "outside")) ∧
  (∃ zip name,
     @calls_of Demo.host _
       (@exec Demo.host _ (@exportProject Demo.host) Demo.store Demo.empty_segment) =
       [FsFiles; DateNow; Db; DbGetAll; DateNow; SaveAs zip name;
        Toast toast_success "Project exported successfully"] ∧
     ("/home/project/docs//notes.txt", "inside")
     ∈ non_binary_files (@io Demo.host FsFiles Demo.empty_segment).1 ∧
     JSZip.lookup "code/docs//notes.txt" zip = None ∧
     JSZip.lookup "code/docs/notes.txt" zip = Some (JSZip.ZipFile "inside")).
Proof.
  split_and!.
  - apply exportProject_untitled.
  - apply exportProject_unreadable.
  - apply exportProject_overlapping.
  - apply exportProject_empty_segment.
Qed.

Section Restoring.
#[local] Existing Instance Demo.restore_host.

(** C4 at an archive without a code folder.  The archive has a valid
    metadata.json and a chat_history.json, and no entry under 'code';
    the import does not stop with an error: it clears the chats of the
    database, removes /home/project, writes the entries of the archive
    into it and reports success. *)
Theorem importProjectBackup_without_code_folder :
  let r := exec (importProjectBackup Demo.backup_without_code)
             Demo.store Demo.restore_world in
  (∀ zip, file_archive Demo.backup_without_code = Some zip →
          Forall (λ e, String.prefix "code" e.1 = false) zip) ∧
  outcome_of r = Returned tt ∧
  calls_of r =
    [Toast toast_info "Starting project restore..."; Db; DbGetAll;
     DbDeleteById (JStr "chat-1");
     WcRm "/home/project"; WcMkdir "/home/project" false;
     WcWriteFile "/home/project/metadata.json" Demo.metadata_text;
     WcWriteFile "/home/project/chat_history.json" "[]";
     FsFiles;
     EdSetDocuments
       [("/home/project", Some DFolder);
        ("/home/project/metadata.json",
         Some (DFile {| content := Demo.metadata_text; isBinary := false |}));
        ("/home/project/chat_history.json",
         Some (DFile {| content := "[]"; isBinary := false |}))];
     FsFilesCount; EdCurrentDocument;
     EdSetSelectedFile (Some "/home/project/metadata.json");
     Toast toast_success "Project restored successfully"; ReloadLater].
Proof.
  cbn zeta. split_and!.
  - intros zip [= <-]. by repeat constructor.
  - by vm_compute.
  - by vm_compute.
Qed.

End Restoring.

(** * Further properties of the store *)

(** The next step of a run depends on a reply: the cases of the reply. *)
Ltac case_reply :=
  cbv beta iota zeta delta [Reply];
  match goal with
  | |- context [exec (match ?d with Some _ => _ | None => _ end) _ _] =>
      destruct d
  | |- context [exec (if ?b then _ else _) _ _] => destruct b
  end.

(** The type of every reply, written out, in the goal and the hypotheses. *)
Ltac plain_replies := cbv beta iota zeta delta [Reply] in *.

Ltac run_parts := unfold outcome_of, store_of, world_of, calls_of; cbn [fst snd].

(** ** Documents and saving *)

Section MoreDocuments.
Context `{Host}.

Lemma exec_selectFirstFile files wb w :
  ∃ w', exec (selectFirstFile files) wb w =
        (Returned tt, wb, w',
         match first_file files with
         | Some filePath => [EdSetSelectedFile (Some filePath)]
         | None => []
         end).
Proof.
  induction files as [|[filePath dirent] rest IH].
  - eexists. reflexivity.
  - destruct dirent as [[file|]|]; cbn [selectFirstFile]; [|apply IH..].
    unfold setSelectedFile. exec_step. unfold first_file. cbn.
    eexists. f_equal. f_equal. f_equal.
    match goal with |- Returned ?u = _ => by destruct u end.
Qed.

(** X1.  [setDocuments] hands the files to the editor and asks the
    files store for its count.  When the count is positive and the
    editor has no current document, it selects one file: the first
    entry of type 'file' in the order of the map, binary or not, and no
    file when the map has no such entry.  The store's fields are left
    as they are. *)
Theorem setDocuments_selects_first_file files wb w :
  setDocuments_spec files wb w.
Proof.
  unfold setDocuments_spec, setDocuments. cbn zeta.
  do 2 (exec_step; cbv beta iota zeta delta [Reply]).
  match goal with |- context [if ?b then _ else _] => destruct b end.
  - exec_step. cbv beta iota zeta delta [Reply].
    match goal with
    | |- context [exec (match ?d with Some _ => _ | None => _ end) _ _] =>
        destruct d as [doc|]
    end.
    + exec_step. unfold outcome_of, store_of, calls_of. by cbn.
    + destruct (exec_selectFirstFile files wb
                  (io EdCurrentDocument
                     (io FsFilesCount (io (EdSetDocuments files) w).2).2).2)
        as [w' Hselect].
      cbv beta iota zeta delta [Reply] in Hselect. rewrite Hselect.
      unfold outcome_of, store_of, calls_of. cbn.
      by destruct (first_file files).
  - exec_step. unfold outcome_of, store_of, calls_of. by cbn.
Qed.

Lemma saved_as_path documents filePath saved content :
  saved_as documents filePath = Some (saved, content) → saved = filePath.
Proof.
  unfold saved_as. destruct (documents !! filePath); [congruence|].
  case_bool_decide; congruence.
Qed.

Lemma saved_as_None documents filePath :
  saved_as documents filePath = None ↔
  documents !! filePath = None ∧ filePath ∉ Js.Object_prototype.
Proof.
  unfold saved_as. destruct (documents !! filePath); [by split; [|intros [? _]]|].
  case_bool_decide; by split; [|intros [_ ?]].
Qed.

Lemma exec_saveFile filePath wb w :
  exec (saveFile filePath) wb w =
  match saved_as (io EdDocuments w).1 filePath with
  | None => (Returned tt, wb, (io EdDocuments w).2, [EdDocuments])
  | Some (_, content) =>
      (Returned tt, set_unsavedFiles (unsavedFiles wb ∖ {[filePath]}) wb,
       (io (FsSaveFile filePath content) (io EdDocuments w).2).2,
       [EdDocuments; FsSaveFile filePath content])
  end.
Proof.
  unfold saveFile, saved_as, Js.read. exec_step.
  cbv beta iota zeta delta [Reply].
  destruct (_ !! filePath) as [document|]; [|case_bool_decide];
    cbv beta iota zeta.
  - exec_step. by rewrite exec_modify.
  - exec_step. by rewrite exec_modify.
  - by rewrite exec_ret.
Qed.

(** X2.  [saveCurrentDocument] saves nothing and changes nothing when
    the editor has no current document, or has one under whose path
    its documents have no property.  Otherwise it saves what the
    documents hold for the path of the current document (the value of
    the document; [undefined] when the path only names a property
    inherited from [Object.prototype]), and removes that path, and no
    other, from [unsavedFiles]. *)
Theorem saveCurrentDocument_saves_current_path wb w :
  saveCurrentDocument_spec wb w.
Proof.
  unfold saveCurrentDocument_spec, saveCurrentDocument. cbn zeta. exec_step.
  cbv beta iota zeta delta [Reply].
  case_reply; cbn [mbind option_bind].
  - rewrite exec_saveFile. cbv beta iota zeta delta [Reply].
    destruct (saved_as _ (doc_filePath _)) as [[saved content]|] eqn:Hsaved;
      [apply saved_as_path in Hsaved as ->|]; run_parts; by cbn.
  - exec_step. run_parts. by cbn.
Qed.

Lemma saves_of_app l1 l2 : saves_of (l1 ++ l2) = saves_of l1 ++ saves_of l2.
Proof. apply omap_app. Qed.

(** The loop of [saveAllFiles], for an editor whose documents stay as
    they are while files are saved. *)
Lemma exec_saveFiles paths wb w :
  reads_change_nothing → saving_keeps_documents →
  let documents := (io EdDocuments w).1 in
  ∃ wb' w' calls,
    exec (saveFiles paths) wb w = (Returned tt, wb', w', calls) ∧
    (io EdDocuments w').1 = documents ∧
    saves_of calls = omap (saved_as documents) paths ∧
    unsavedFiles wb' =
      unsavedFiles wb
      ∖ list_to_set (filter (λ filePath, is_Some (saved_as documents filePath))
                       paths) ∧
    artifacts wb' = artifacts wb ∧
    artifactIdList wb' = artifactIdList wb ∧
    currentView wb' = currentView wb ∧
    showWorkbench wb' = showWorkbench wb.
Proof.
  intros Hreads Hsaving. cbn zeta. revert wb w.
  induction paths as [|filePath rest IH]; intros wb w.
  - exists wb, w, []. split_and!; try done. cbn.
    by rewrite difference_empty_L.
  - cbn [saveFiles]. exec_seq. rewrite exec_saveFile.
    destruct (Hreads w) as (_ & Hdocs & _).
    destruct (saved_as (io EdDocuments w).1 filePath) as [[saved content]|]
      eqn:Hdoc.
    + pose proof (saved_as_path _ _ _ _ Hdoc) as ->.
      destruct (IH (set_unsavedFiles (unsavedFiles wb ∖ {[filePath]}) wb)
                  (io (FsSaveFile filePath content) (io EdDocuments w).2).2)
        as (wb' & w' & calls & -> & Hsame & Hsaves & Hunsaved & ? & ? & ? & ?).
      rewrite Hdocs, Hsaving in Hsame, Hsaves, Hunsaved.
      exists wb', w', ([EdDocuments; FsSaveFile filePath content] ++ calls).
      split_and!; try done.
      * rewrite saves_of_app, Hsaves. cbn. plain_replies. by rewrite Hdoc.
      * rewrite Hunsaved. cbn [unsavedFiles set_unsavedFiles].
        rewrite filter_cons_True by (by rewrite Hdoc).
        cbn [list_to_set]. by rewrite difference_difference_l_L.
    + destruct (IH wb (io EdDocuments w).2)
        as (wb' & w' & calls & -> & Hsame & Hsaves & Hunsaved & ? & ? & ? & ?).
      rewrite Hdocs in Hsame, Hsaves, Hunsaved.
      exists wb', w', ([EdDocuments] ++ calls).
      split_and!; try done.
      * rewrite saves_of_app, Hsaves. cbn. plain_replies. by rewrite Hdoc.
      * rewrite Hunsaved.
        rewrite filter_cons_False; [done|]. rewrite Hdoc. by intros [? ?].
Qed.

(** X3.  With an editor whose documents are not changed by reading them
    or by saving a file, [saveAllFiles] saves, for every unsaved path
    that has a document, the value of that document, in the order in
    which the set is walked; for an unsaved path without a document
    that is the name of a property of [Object.prototype] it hands
    [undefined] to the files store.  Afterwards the unsaved paths are
    exactly those that were unsaved and under which the documents have
    no property, own or inherited: such a path is skipped and stays
    marked. *)
Theorem saveAllFiles_saves_documents enumerate wb w :
  reads_change_nothing → saving_keeps_documents →
  enumerate (unsavedFiles wb) ≡ₚ elements (unsavedFiles wb) →
  saveAllFiles_spec enumerate wb w.
Proof.
  intros Hreads Hsaving Horder. unfold saveAllFiles_spec. cbn zeta.
  unfold saveAllFiles. exec_step.
  destruct (exec_saveFiles (enumerate (unsavedFiles wb)) wb w Hreads Hsaving)
    as (wb' & w' & calls & -> & _ & Hsaves & Hunsaved & ? & ? & ? & _).
  run_parts. split_and!; try done.
  intros filePath. rewrite Hunsaved, elem_of_difference, elem_of_list_to_set.
  rewrite list_elem_of_filter, Horder, elem_of_elements.
  rewrite <- not_eq_None_Some, <- saved_as_None. split.
  - intros [Hin Hnot]. split; [done|].
    destruct (saved_as _ filePath); [|done]. destruct Hnot. by split.
  - intros [Hin Hnone]. split; [done|]. intros [Hsome _]. by apply Hsome.
Qed.

(** X4.  With an editor and a files store that reading does not change:
    when the current document has a saved file, and stays the current
    document when the editor takes the saved content,
    [resetCurrentDocument] gives the editor the saved content and
    removes the path of the document, and no other path, from
    [unsavedFiles]. *)
Theorem resetCurrentDocument_reverts wb w doc file :
  reads_change_nothing →
  (io EdCurrentDocument w).1 = Some doc →
  doc_filePath doc ≠ EmptyString →
  (io (FsGetFile (doc_filePath doc)) w).1 = Some file →
  doc_filePath <$>
    (io EdCurrentDocument
       (io (EdUpdateFile (doc_filePath doc) (content file)) w).2).1
    = Some (doc_filePath doc) →
  resetCurrentDocument_spec (doc_filePath doc) (content file) wb w.
Proof.
  intros Hreads Hcurrent Hpath Hfile Hstays.
  unfold resetCurrentDocument_spec. cbn zeta.
  destruct (Hreads w) as (Hread1 & _ & Hread2).
  unfold resetCurrentDocument. exec_step. rewrite Hread1, Hcurrent.
  cbv beta iota. exec_step. rewrite Hread2, Hfile. cbv beta iota.
  rewrite exec_setCurrentDocumentContent. cbv zeta.
  rewrite Hread1, Hcurrent.
  cbn [fmap option_fmap option_map default from_option]. unfold Datatypes.id.
  rewrite Hread2, Hfile. cbn [fmap option_fmap option_map].
  rewrite String.eqb_refl. cbn [negb andb].
  destruct (doc_filePath doc) as [|c rest] eqn:Hp; [done|]. cbn [Str.truthy negb].
  match goal with
  | |- context [match ?d with Some _ => _ | None => wb end] =>
      destruct d as [current|]; [|done]
  end.
  cbn in Hstays. injection Hstays as Hstays. rewrite Hstays. run_parts.
  by split_and!.
Qed.

End MoreDocuments.

(** ** Actions and the registry *)

Section MoreActions.
Context `{Host}.

Lemma runs_of_app l1 l2 : runs_of (l1 ++ l2) = runs_of l1 ++ runs_of l2.
Proof. apply omap_app. Qed.

Lemma runs_of_no_runner_call calls :
  Forall (λ c, is_runner_call c = false) calls → runs_of calls = [].
Proof.
  induction 1 as [|c calls Hc _ IH]; [done|].
  destruct c; try discriminate; exact IH.
Qed.

(** X5.  How often [runAction] hands an action of a registered artifact
    to the artifact's runner.  A shell action: once.  A file action:
    once with the streaming flag of the call when the editor has no
    document for the file yet (its documents have no property of the
    name of the full path, own or inherited), and then once more,
    without a flag, when the call is not streaming.  So a file that is new to the
    editor reaches the runner twice when it is not streamed, and a
    streamed action for a file that the editor has does not reach the
    runner at all. *)
Theorem runAction_runner_calls data isStreaming artifact wb w :
  artifacts wb !! messageId data = Some (Artifact artifact) →
  runner_calls_spec data isStreaming artifact wb w.
Proof.
  intros Hart. unfold runner_calls_spec. cbn zeta.
  destruct (action data) as [filePath content | content] eqn:Hact.
  - destruct (runAction_file_run data isStreaming artifact filePath content
                wb w Hart Hact) as (wb' & w' & reset & -> & Hreset & _).
    run_parts. rewrite !runs_of_app. plain_replies. unfold Js.read.
    destruct (bool_decide (_ = Some _)); cbn [runs_of omap list_omap app];
      (match goal with
       | |- context [?m !! ?k] =>
           match type of (m !! k) with
           | option EditorDocument => destruct (m !! k)
           end
       end);
      try (destruct (bool_decide (_ ∈ Js.Object_prototype)));
      destruct isStreaming; cbn [runs_of omap list_omap app];
      rewrite ?runs_of_app, ?(runs_of_no_runner_call reset Hreset); done.
  - unfold runAction. exec_step. rewrite (read_own _ _ _ Hart), Hact.
    cbn [runner_of or_throw]. do 2 exec_step. by run_parts.
Qed.

(** X6.  A streamed file action of a registered artifact leaves the
    unsaved marks, the artifacts and their order alone: of the store's
    fields only the view can change, and it is 'code' afterwards.  The
    current document is not reset. *)
Theorem runAction_streaming_keeps_marks data artifact filePath content wb w :
  artifacts wb !! messageId data = Some (Artifact artifact) →
  action data = FileAction filePath content →
  streaming_spec data wb w.
Proof.
  intros Hart Hact. unfold streaming_spec. cbn zeta. unfold runAction.
  exec_step. rewrite (read_own _ _ _ Hart), Hact. cbn [runner_of or_throw].
  do 2 exec_step. cbv beta. exec_seq.
  cbv beta iota zeta delta [Reply].
  destruct (bool_decide _) eqn:Hsel; cbv beta iota;
    [exec_step | unfold setSelectedFile; exec_step]; cbv beta iota;
    (exec_step; cbv beta iota; exec_seq;
     destruct (currentView wb) eqn:Hview;
     exec_step; cbv beta iota; exec_step; exec_seq;
     cbv beta iota zeta delta [Reply];
     match goal with
     | |- context [exec (match ?x with
                         | Js.Own _ => _ | Js.Inherited => _ | Js.Undefined => _
                         end) _ _] =>
         destruct x as [d| |]
     end; cbv beta iota; repeat (exec_step; cbv beta iota);
     run_parts; cbn [app];
     split_and!; try done;
     repeat (apply not_elem_of_cons; split; [done|]); apply not_elem_of_nil).
Qed.

(** X7.  [addArtifact] followed by [addAction] for the same message
    never reports 'Artifact not found'.  When the message has an
    artifact, the action is added to its runner and the store stays as
    it is.  When the artifacts object has no property of the name of
    the message, own or inherited, this [addArtifact] registers an
    artifact and the action is added to the runner made for it.  In
    the cases that are left (the name is that of a property of
    [Object.prototype], or [updateArtifact] stored an object without a
    runner under it) nothing is registered, no runner is reached and
    the run ends with a [TypeError]. *)
Theorem addAction_after_addArtifact opened data wb w :
  messageId data = a_messageId opened →
  added_to_runner opened data wb w.
Proof.
  intros Hid. unfold added_to_runner. cbn zeta. exec_seq. rewrite Hid.
  destruct (artifacts wb !! a_messageId opened) as [[known|state]|] eqn:Hknown;
    [| |case_bool_decide as Hin].
  - rewrite exec_addArtifact_known by (left; by rewrite Hknown).
    unfold addAction. exec_step. rewrite Hid, (read_own _ _ _ Hknown).
    cbn [runner_of or_throw]. do 2 exec_step.
    run_parts. split; [unit_reply|done].
  - rewrite exec_addArtifact_known by (left; by rewrite Hknown).
    unfold addAction. exec_step. rewrite Hid, (read_own _ _ _ Hknown).
    cbn [runner_of or_throw]. exec_seq. exec_step. by run_parts.
  - rewrite exec_addArtifact_known by (by right).
    unfold addAction. exec_step. rewrite Hid, (read_inherited _ _ Hknown Hin).
    cbn [runner_of or_throw]. exec_seq. exec_step. by run_parts.
  - rewrite exec_addArtifact_fresh by done.
    unfold addAction. exec_step. rewrite Hid.
    cbn [artifacts set_artifacts].
    rewrite (read_own _ _ _ (lookup_insert_eq _ _ _)).
    cbn [runner_of or_throw]. do 2 exec_step.
    run_parts. by split; [unit_reply|].
Qed.

End MoreActions.

Section Registry.
Context `{Host}.

Lemma exec_firstArtifact wb w :
  exec firstArtifact wb w =
  (Returned (Js.read (artifacts wb)
               (default "undefined" (artifactIdList wb !! 0%nat))),
   wb, w, []).
Proof.
  unfold firstArtifact. exec_step. unfold getArtifact. exec_step. by exec_step.
Qed.

Lemma new_WorkbenchStore_exact : registry_exact (new_WorkbenchStore None).
Proof.
  split; [apply NoDup_nil_2|]. intros id. cbn. rewrite lookup_empty.
  split; [by intros ?%elem_of_nil | by intros [? ?]].
Qed.

(** One more artifact: the list grows at its end, by the new message
    only. *)
Lemma addArtifact_exact data wb w :
  registry_exact wb →
  ∃ wb' w' calls,
    exec (addArtifact data) wb w = (Returned tt, wb', w', calls) ∧
    registry_exact wb' ∧
    artifactIdList wb `prefix_of` artifactIdList wb' ∧
    (∀ id, id ∈ artifactIdList wb' ↔
           id ∈ artifactIdList wb
           ∨ (id = a_messageId data ∧ id ∉ Js.Object_prototype)) ∧
    (∀ id a, artifacts wb !! id = Some a → artifacts wb' !! id = Some a).
Proof.
  intros [Hnodup Hexact].
  destruct (artifacts wb !! a_messageId data) as [known|] eqn:Hknown;
    [|destruct (decide (a_messageId data ∈ Js.Object_prototype)) as [Hproto|Hproto]].
  - rewrite exec_addArtifact_known by (left; by rewrite Hknown).
    exists wb, w, []. split_and!; try done.
    intros id. split; [by left|]. intros [?| [-> _]]; [done|].
    apply Hexact. by rewrite Hknown.
  - rewrite exec_addArtifact_known by (by right).
    exists wb, w, []. split_and!; try done.
    intros id. split; [by left|]. by intros [?| [-> ?]].
  - rewrite exec_addArtifact_fresh by done.
    assert (a_messageId data ∉ artifactIdList wb) as Hnew.
    { rewrite Hexact, Hknown. by intros [? ?]. }
    rewrite bool_decide_eq_false_2 by done.
    do 3 eexists. split; [reflexivity|]. unfold registry_exact.
    cbn [artifactIdList artifacts set_artifacts set_artifactIdList].
    split_and!.
    + apply NoDup_app. split_and!; [done | | apply NoDup_singleton].
      intros id Hin ->%list_elem_of_singleton. done.
    + intros id. rewrite elem_of_app, list_elem_of_singleton, lookup_insert_is_Some.
      rewrite Hexact. destruct (decide (a_messageId data = id)) as [<-|Hne].
      * split; [by left | by right].
      * split; [intros [?|?]; [by right | congruence]
               | intros [?|[_ ?]]; [done | by left]].
    + by apply prefix_app_r.
    + intros id. rewrite elem_of_app, list_elem_of_singleton.
      split; [intros [?| ->]; [by left | by right] | intros [?|[? _]]; by eauto].
    + intros id a Ha. rewrite lookup_insert_ne; [done|]. congruence.
Qed.

Lemma addArtifacts_exact opened wb w :
  registry_exact wb →
  ∃ wb' w' calls,
    exec (addArtifacts opened) wb w = (Returned tt, wb', w', calls) ∧
    registry_exact wb' ∧
    artifactIdList wb `prefix_of` artifactIdList wb' ∧
    (∀ id, id ∈ artifactIdList wb' ↔
           id ∈ artifactIdList wb
           ∨ (id ∈ a_messageId <$> opened ∧ id ∉ Js.Object_prototype)) ∧
    (∀ id a, artifacts wb !! id = Some a → artifacts wb' !! id = Some a).
Proof.
  revert wb w. induction opened as [|data rest IH]; intros wb w Hwb.
  - exists wb, w, []. split_and!; try done.
    intros id. cbn. rewrite elem_of_nil. tauto.
  - cbn [addArtifacts]. exec_seq.
    destruct (addArtifact_exact data wb w Hwb)
      as (wb1 & w1 & calls1 & -> & Hwb1 & Hprefix1 & Hids1 & Hkeep1).
    destruct (IH wb1 w1 Hwb1)
      as (wb2 & w2 & calls2 & -> & Hwb2 & Hprefix2 & Hids2 & Hkeep2).
    do 3 eexists. split; [reflexivity|]. split_and!; try done.
    + by etrans.
    + intros id. rewrite Hids2, Hids1, fmap_cons, elem_of_cons. tauto.
    + eauto.
Qed.

(** X8.  In a store whose id list holds exactly the keys of the
    artifacts object, each once, a run of [addArtifact] calls keeps it
    so: the ids listed before stay where they are, the ids of the
    opened artifacts are listed after them, except for those that are
    names of properties of [Object.prototype], which are not listed,
    and nothing registered before is replaced. *)
Theorem addArtifacts_extend_the_registry opened wb w :
  registry_exact wb → registry_extended opened wb w.
Proof.
  intros Hwb. unfold registry_extended. cbn zeta.
  destruct (addArtifacts_exact opened wb w Hwb)
    as (wb' & w' & calls & -> & ? & ? & ? & ?).
  by run_parts.
Qed.

(** X9.  In a store made by the constructor without hot data, after
    a run of [addArtifact] calls whose first message id is not the
    name of a property of [Object.prototype], [firstArtifact] is the
    artifact of the first call: it has the id and the title given
    there, it is not closed, and its runner is the first runner
    made. *)
Theorem firstArtifact_is_first_opened first rest w :
  a_messageId first ∉ Js.Object_prototype →
  first_is_first_opened first rest w.
Proof.
  intros Hordinary. unfold first_is_first_opened.
  cbn zeta. exec_seq. cbn [addArtifacts]. exec_seq.
  rewrite exec_addArtifact_fresh by (done || (cbn; apply lookup_empty)).
  cbn [new_WorkbenchStore artifactIdList artifacts]. rewrite bool_decide_eq_false_2
    by apply not_elem_of_nil.
  set (wb1 := set_artifacts _ _).
  assert (registry_exact wb1) as Hwb1.
  { split; [apply NoDup_singleton|]. intros id. subst wb1. cbn.
    rewrite list_elem_of_singleton, lookup_insert_is_Some, lookup_empty.
    split; [by left|]. intros [?|[_ [? ?]]]; done. }
  destruct (addArtifacts_exact rest wb1 (io NewActionRunner w).2 Hwb1)
    as (wb2 & w2 & calls & -> & _ & [tail Htail] & _ & Hkeep).
  rewrite exec_firstArtifact, Htail.
  subst wb1. cbn [artifactIdList set_artifacts set_artifactIdList app lookup
                    list_lookup default from_option].
  erewrite read_own; [by run_parts|].
  apply Hkeep. cbn. by rewrite lookup_insert_eq.
Qed.

(** X10.  After a hot reload the artifacts are those of the store
    before, and the id list is empty.  [addArtifact] for a message
    that has an artifact leaves the list empty, so that
    [firstArtifact] is undefined although artifacts are registered
    (no message being called 'undefined', which is not the name of a
    property of [Object.prototype] either). *)
Theorem hot_reload_forgets_the_order hot data w :
  is_Some (artifacts hot !! a_messageId data) →
  artifacts hot !! "undefined" = None →
  order_forgotten hot data w.
Proof.
  intros Hknown Hundefined. unfold order_forgotten. cbn zeta. exec_seq.
  rewrite exec_addArtifact_known by (by left).
  rewrite exec_firstArtifact.
  cbn [new_WorkbenchStore artifactIdList artifacts set_artifactIdList lookup
         list_lookup default from_option].
  rewrite (read_undefined _ _ Hundefined) by compute_done. by run_parts.
Qed.

End Registry.

(** ** Archives, whatever the files *)

Section AnyFiles.
Context `{Host}.
Import JSZip.

Lemma enterFolders_total segments root zip :
  ∃ zip' root', enterFolders segments root zip = (zip', Some root').
Proof.
  revert root zip. induction segments as [|segment rest IH]; intros root zip.
  - by eexists _, _.
  - cbn [enterFolders].
    destruct (folder_never_null root segment zip) as (zip1 & root1 & ->).
    apply IH.
Qed.

Lemma zipTextFile_total base filePath content zip :
  is_Some (zipTextFile base filePath content zip).
Proof.
  unfold zipTextFile. cbv zeta. destruct (_ <? _)%nat; [|done].
  by destruct (enterFolders_total
                 (take (length (pathSegments (relativePath filePath)) - 1)
                    (pathSegments (relativePath filePath))) base zip)
    as (zip' & root' & ->).
Qed.

Lemma zipFiles_total base files zip : is_Some (zipFiles base files zip).
Proof.
  revert zip. induction files as [|[filePath dirent] rest IH]; intros zip; [done|].
  cbn [zipFiles]. destruct (text_file dirent) as [content|]; [|apply IH].
  destruct (zipTextFile_total base filePath content zip) as [zip' ->]. apply IH.
Qed.

(** The run of [exportProject], call by call, for any files. *)
Lemma exportProject_run_any wb w :
  let files := (io FsFiles w).1 in
  let first :=
    Js.read (artifacts wb) (default "undefined" (artifactIdList wb !! 0%nat)) in
  let projectName := projectName_of first in
  let w1 := (io FsFiles w).2 in
  let now := (io DateNow w1).1 in
  let w2 := (io DateNow w1).2 in
  let db := (io Db w2).1 in
  let w3 := (io Db w2).2 in
  let chatHistory := if db then (io DbGetAll w3).1 else None in
  let w4 :=
    if db then
      match (io DbGetAll w3).1 with
      | Some _ => (io DbGetAll w3).2
      | None =>
          (io (Toast toast_error "Failed to export chat history")
             (io DbGetAll w3).2).2
      end
    else w3 in
  let exportDate := (io DateNow w4).1 in
  let filename :=
    "backup-" +:+ projectName +:+ "-" +:+ datetime_of now +:+ ".zip" in
  ∃ zip1 w',
    zipFiles "code/" files [("code/", ZipDir)] = Some zip1 ∧
    exec exportProject wb w =
    (Returned tt, wb, w',
     [FsFiles; DateNow; Db]
     ++ (if db then
           DbGetAll :: match chatHistory with
                       | Some _ => []
                       | None => [Toast toast_error "Failed to export chat history"]
                       end
         else [])
     ++ [DateNow;
         SaveAs (store "metadata.json"
                   (ZipFile (JSON_stringify (metadata_of exportDate projectName)))
                   match chatHistory with
                   | Some chats =>
                       store "chat_history.json"
                         (ZipFile (JSON_stringify (JArr chats))) zip1
                   | None => zip1
                   end)
           filename;
         Toast toast_success "Project exported successfully"]).
Proof.
  cbn zeta. unfold exportProject. rewrite exec_try_catch.
  exec_step.
  match goal with
  | |- context [@exec _ ?B (@mbind _ _ ?A ?B' ?f firstArtifact) ?b ?v] =>
      change (@exec _ B (@mbind _ _ A B' f firstArtifact) b v)
        with (@exec _ B (@mbind M _ (Js.Property ArtifactObject) B f firstArtifact) b v);
      rewrite (@exec_firstArtifact_bind _ B f b v)
  end.
  cbv beta zeta. exec_step. rewrite code_folder. cbv beta iota zeta.
  cbn [or_throw]. exec_step. cbv beta.
  destruct (zipFiles_total "code/" (io FsFiles w).1 [("code/", ZipDir)])
    as [zip1 Hzip].
  exists zip1. rewrite Hzip. cbn [or_throw]. exec_step. cbv beta. exec_step.
  cbv beta iota zeta delta [Reply].
  change (file_put "" "metadata.json")
    with (λ data zip, store "metadata.json" (ZipFile data) zip).
  change (file_put "" "chat_history.json")
    with (λ data zip, store "chat_history.json" (ZipFile data) zip).
  cbv beta.
  exec_seq. cbv beta iota zeta delta [Reply].
  match goal with
  | |- context [exec (if ?b then _ else _) _ _] => destruct b
  end.
  - exec_step. cbv beta iota zeta delta [Reply].
    match goal with
    | |- context [exec (match ?c with Some _ => _ | None => _ end) _ _] =>
        destruct c as [chats|]
    end.
    + exec_step. cbv beta iota. do 3 (exec_step; cbv beta iota zeta).
      eexists. split; [done|].
      match goal with
      | |- (Returned ?u, _, _, _) = _ => destruct u
      end; reflexivity.
    + exec_step. cbv beta iota. exec_step. cbv beta iota.
      do 3 (exec_step; cbv beta iota zeta).
      eexists. split; [done|].
      match goal with
      | |- (Returned ?u, _, _, _) = _ => destruct u
      end; reflexivity.
  - exec_step. cbv beta iota. do 3 (exec_step; cbv beta iota zeta).
    eexists. split; [done|].
    match goal with
    | |- (Returned ?u, _, _, _) = _ => destruct u
    end; reflexivity.
Qed.

(** X11.  No folder of an archive can fail to be made.  Whatever the
    files store holds, [downloadZip] reads the files and saves one
    archive as 'project.zip', and [exportProject] saves one archive
    and then reports success: it does not report 'Failed to export
    project'.  The exported archive has the entry metadata.json, made
    with the project name of the file name.  Neither method changes
    the store. *)
Theorem archives_are_always_saved wb w :
  let download := exec downloadZip wb w in
  let export := exec exportProject wb w in
  outcome_of download = Returned tt ∧ store_of download = wb ∧
  (∃ zip, calls_of download = [FsFiles; SaveAs zip "project.zip"]) ∧
  outcome_of export = Returned tt ∧ store_of export = wb ∧
  (Toast toast_error "Failed to export project" ∉ calls_of export) ∧
  ∃ zip exportDate projectName before,
    calls_of export =
      before ++ [SaveAs zip ("backup-" +:+ projectName +:+ "-"
                             +:+ datetime_of (io DateNow (io FsFiles w).2).1
                             +:+ ".zip");
                 Toast toast_success "Project exported successfully"] ∧
    lookup "metadata.json" zip =
      Some (ZipFile (JSON_stringify (metadata_of exportDate projectName))).
Proof.
  cbn zeta.
  assert (∃ zip w', exec downloadZip wb w =
                    (Returned tt, wb, w', [FsFiles; SaveAs zip "project.zip"]))
    as (zipd & wd & ->).
  { unfold downloadZip. exec_step.
    destruct (zipFiles_total EmptyString (io FsFiles w).1 []) as [zip Hzip].
    rewrite Hzip. cbn [or_throw]. exec_seq. exec_step.
    cbv beta iota. exec_step. eexists _, _.
    match goal with
    | |- (Returned ?u, _, _, _) = _ => destruct u
    end; reflexivity. }
  destruct (exportProject_run_any wb w) as (zip1 & w' & _ & ->).
  run_parts. split_and!; try done.
  - by exists zipd.
  - rewrite !elem_of_app, !elem_of_cons, !elem_of_nil.
    intros Hin. destruct_or!; try discriminate.
    destruct (io Db _).1; [|by apply elem_of_nil in Hin].
    apply elem_of_cons in Hin as [? | Hin]; [done|].
    destruct (io DbGetAll _).1; [by apply elem_of_nil in Hin|].
    by apply list_elem_of_singleton in Hin.
  - assert (∀ (l x : list Call) d s t,
              l ++ x ++ [d; s; t] = (l ++ x ++ [d]) ++ [s; t]) as ->
      by (intros; by rewrite <- !app_assoc).
    eexists _, _, _, _. split; [reflexivity | apply lookup_store_eq].
Qed.

End AnyFiles.

(** ** The name of a backup *)

Section Names.

Lemma app_char c s : String c EmptyString +:+ s = String c s.
Proof. reflexivity. Qed.

Lemma remove_all_app cls a b :
  Str.remove_all cls (a +:+ b) = Str.remove_all cls a +:+ Str.remove_all cls b.
Proof.
  induction a as [|c a IH]; [done|]. rewrite str_app_cons. cbn [Str.remove_all].
  destruct (cls c); [done|]. by rewrite str_app_cons, IH.
Qed.

Lemma remove_all_none cls s :
  (∀ c, Str.has_char c s = true → cls c = false) → Str.remove_all cls s = s.
Proof.
  induction s as [|c s IH]; intros Hs; [done|]. cbn [Str.remove_all].
  rewrite (Hs c) by (cbn; by rewrite Ascii.eqb_refl).
  f_equal. apply IH. intros c' Hc'. apply Hs. cbn. rewrite Hc'.
  by destruct (Ascii.eqb c c').
Qed.

Lemma digits_has_char c s :
  digits s = true → Str.has_char c s = true →
  (48 ≤ nat_of_ascii c ≤ 57)%nat.
Proof.
  induction s as [|a s IH]; [done|]. cbn [digits Str.has_char].
  intros [Ha Hs]%andb_true_iff [Hc|Hc]%orb_true_iff; [|by apply IH].
  apply Ascii.eqb_eq in Hc as <-.
  apply andb_true_iff in Ha as [?%Nat.leb_le ?%Nat.leb_le]. done.
Qed.

Lemma digits_no_char c s :
  digits s = true → (nat_of_ascii c < 48 ∨ 57 < nat_of_ascii c)%nat →
  Str.has_char c s = false.
Proof.
  intros Hs Hc. destruct (Str.has_char c s) eqn:Hin; [|done].
  pose proof (digits_has_char c s Hs Hin). lia.
Qed.

Lemma head_split sep a b :
  Str.has_char sep a = false →
  head (Str.split sep (a +:+ String sep b)) = Some a.
Proof.
  induction a as [|c a IH]; cbn [Str.has_char].
  - intros _. change ("" +:+ String sep b) with (String sep b).
    cbn [Str.split]. by rewrite Ascii.eqb_refl.
  - intros [Hc Ha]%orb_false_iff. rewrite str_app_cons. cbn [Str.split].
    rewrite Hc. specialize (IH Ha).
    destruct (Str.split sep (a +:+ String sep b)) as [|seg segs]; [done|].
    cbn in *. congruence.
Qed.

Lemma digits_app a b : digits (a +:+ b) = digits a && digits b.
Proof.
  induction a as [|c a IH]; [done|]. rewrite str_app_cons. cbn [digits].
  by rewrite IH, andb_assoc.
Qed.

(** X12.  The date and time in the name of a backup.  From an instant
    written as [year-month-dayThour:minute:second.rest], with digits in
    the six fields, [exportProject] makes the fourteen digits
    [yearmonthdayhourminutesecond]: the dashes, the colons and the 'T'
    are removed, and so is everything from the dot on. *)
Theorem datetime_of_iso_instant year month day hour minute second rest :
  digits year = true → digits month = true → digits day = true →
  digits hour = true → digits minute = true → digits second = true →
  datetime_of (iso_instant year month day hour minute second rest)
  = year +:+ month +:+ day +:+ hour +:+ minute +:+ second.
Proof.
  intros Hy Hmo Hd Hh Hmi Hs. unfold datetime_of, iso_instant.
  set (cls := λ c, _).
  assert (∀ s, digits s = true → Str.remove_all cls s = s) as Hkeep.
  { intros s Hdigits. apply remove_all_none. intros c Hc.
    pose proof (digits_has_char c s Hdigits Hc) as Hrange. unfold cls.
    destruct (Ascii.eqb_spec c ":") as [->|_];
      [change (nat_of_ascii ":") with 58%nat in Hrange; lia|].
    destruct (Ascii.eqb_spec c "-") as [->|_];
      [change (nat_of_ascii "-") with 45%nat in Hrange; lia|].
    destruct (Ascii.eqb_spec c "T") as [->|_];
      [change (nat_of_ascii "T") with 84%nat in Hrange; lia|]. done. }
  rewrite !remove_all_app.
  rewrite (Hkeep year), (Hkeep month), (Hkeep day), (Hkeep hour),
    (Hkeep minute), (Hkeep second) by done.
  change (Str.remove_all cls "-") with "".
  change (Str.remove_all cls "T") with "".
  change (Str.remove_all cls ":") with "".
  change (Str.remove_all cls ".") with ".".
  repeat change ("" +:+ ?s) with s.
  rewrite <- !str_app_assoc. rewrite (str_app_assoc _ "." _).
  rewrite app_char, head_split; [done|].
  apply digits_no_char; [|change (nat_of_ascii ".") with 46%nat; lia].
  rewrite !digits_app, Hy, Hmo, Hd, Hh, Hmi, Hs. done.
Qed.

Lemma replace_space_runs_no_space in_run s c :
  Str.has_char c (Str.replace_space_runs "-" in_run s) = true →
  Str.is_space c = false.
Proof.
  revert in_run. induction s as [|a s IH]; intros in_run; [done|].
  cbn [Str.replace_space_runs]. destruct (Str.is_space a) eqn:Ha.
  - destruct in_run; [apply IH|]. rewrite app_char. cbn [Str.has_char].
    intros [Hc|Hc]%orb_true_iff; [|by eapply IH].
    by apply Ascii.eqb_eq in Hc as <-.
  - cbn [Str.has_char]. intros [Hc|Hc]%orb_true_iff; [|by eapply IH].
    by apply Ascii.eqb_eq in Hc as <-.
Qed.

(** X13.  The project name that [exportProject] puts into the name of a
    backup is never empty and holds no white space, whatever the title
    of the first artifact. *)
Theorem projectName_of_is_a_name first :
  projectName_of first ≠ EmptyString ∧
  ∀ c, Str.has_char c (projectName_of first) = true → Str.is_space c = false.
Proof.
  assert (∀ c, Str.has_char c "project" = true → Str.is_space c = false)
    as Hproject.
  { intros c. apply (replace_space_runs_no_space false "project"). }
  unfold projectName_of, Str.or_else.
  destruct (title_of first) as [title|]; [|done].
  cbn [fmap option_fmap option_map default from_option]. unfold Datatypes.id.
  destruct (Str.replace_space_runs "-" false (Str.toLowerCase title))
    as [|c0 name] eqn:Hname; [done|].
  cbn [Str.truthy]. split; [done|]. intros c. rewrite <- Hname.
  apply replace_space_runs_no_space.
Qed.
End Names.

(** ** Restoring a backup *)

Section Restore.
Context `{Host}.


















Lemma exec_clearHistory existingHistory wb w :
  ∃ o w' calls,
    exec (clearHistory existingHistory) wb w = (o, wb, w', calls) ∧
    calls `prefix_of` delete_calls existingHistory ∧
    (o = Returned tt → calls = delete_calls existingHistory).
Proof.
  revert w. induction existingHistory as [|item rest IH]; intros w.
  - by exists (Returned tt), w, [].
  - cbn [clearHistory]. unfold delete_calls. cbn [omap list_omap].
    fold (delete_calls rest).
    destruct (Js.get "id" item) as [id|]; cbn [or_throw fmap option_fmap option_map].
    + exec_step. cbv beta. exec_step.
      destruct (io (DbDeleteById id) w) as [deleted w1]. cbn [fst snd].
      destruct deleted; cbv beta iota.
      * destruct (IH w1) as (o & w' & calls & -> & Hprefix & Hall).
        exists o, w', (DbDeleteById id :: calls). split_and!; [done | |].
        -- by apply prefix_cons.
        -- intros Ho. by rewrite Hall.
      * rewrite exec_throw. eexists _, _, _. split_and!; [done | | done].
        apply prefix_cons, prefix_nil.
    + rewrite exec_bind, exec_throw. eexists _, _, _.
      split_and!; [done | | done]. apply prefix_nil.
Qed.

Lemma exec_restoreHistory chatHistoryJson wb w :
  ∃ o w' calls,
    exec (restoreHistory chatHistoryJson) wb w = (o, wb, w', calls) ∧
    calls `prefix_of` store_calls chatHistoryJson ∧
    (o = Returned tt → calls = store_calls chatHistoryJson).
Proof.
  revert w. induction chatHistoryJson as [|item rest IH]; intros w.
  - by exists (Returned tt), w, [].
  - cbn [restoreHistory]. unfold store_calls. cbn [omap list_omap].
    fold (store_calls rest).
    destruct (Js.get "id" item) as [id|]; cbn [or_throw mbind option_bind];
      [|rewrite exec_bind, exec_throw; eexists _, _, _;
        split_and!; [done | apply prefix_nil | done]].
    exec_step. cbv beta.
    destruct (Js.get "messages" item) as [messages|]; cbn [or_throw mbind option_bind];
      [|rewrite exec_bind, exec_throw; eexists _, _, _;
        split_and!; [done | apply prefix_nil | done]].
    exec_step. cbv beta.
    destruct (Js.get "urlId" item) as [urlId|]; cbn [or_throw mbind option_bind];
      [|rewrite exec_bind, exec_throw; eexists _, _, _;
        split_and!; [done | apply prefix_nil | done]].
    exec_step. cbv beta.
    destruct (Js.get "description" item) as [description|];
      cbn [or_throw mbind option_bind];
      [|rewrite exec_bind, exec_throw; eexists _, _, _;
        split_and!; [done | apply prefix_nil | done]].
    exec_step. cbv beta. exec_step.
    destruct (io (DbSetMessages id messages urlId description) w) as [stored w1].
    cbn [fst snd]. destruct stored; cbv beta iota.
    + destruct (IH w1) as (o & w' & calls & -> & Hprefix & Hall).
      exists o, w', (DbSetMessages id messages urlId description :: calls).
      split_and!; [done | |].
      * by apply prefix_cons.
      * intros Ho. by rewrite Hall.
    + rewrite exec_throw. eexists _, _, _. split_and!; [done | | done].
      apply prefix_cons, prefix_nil.
Qed.

Lemma delete_calls_db existingHistory :
  Forall (λ c, is_db_call c = true) (delete_calls existingHistory).
Proof.
  apply Forall_forall. intros c (item & _ & Hc)%list_elem_of_omap.
  by destruct (Js.get "id" item); simplify_eq/=.
Qed.

Lemma store_calls_db chatHistoryJson :
  Forall (λ c, is_db_call c = true) (store_calls chatHistoryJson).
Proof.
  apply Forall_forall. intros c (item & _ & Hc)%list_elem_of_omap.
  destruct (Js.get "id" item), (Js.get "messages" item), (Js.get "urlId" item),
    (Js.get "description" item); by simplify_eq/=.
Qed.

Lemma Forall_prefix {A} (P : A → Prop) (l k : list A) :
  l `prefix_of` k → Forall P k → Forall P l.
Proof. intros [tail ->] Hk. by apply Forall_app in Hk as [? _]. Qed.

(** The run of the first inner block of [importProjectBackup]: the
    calls to the database are the start of the full sequence, and are
    the full sequence when the block returns with a database. *)
Lemma exec_restoreChatHistory chatHistoryContent wb w :
  ∃ o w' calls,
    exec (restoreChatHistory chatHistoryContent) wb w = (o, wb, w', calls) ∧
    Forall (λ c, is_db_call c = true) calls ∧
    ∀ items,
      JSON_parse chatHistoryContent = Some (JArr items) →
      let existingHistory := default [] (io DbGetAll (io Db w).2).1 in
      let all := [Db; DbGetAll] ++ delete_calls existingHistory ++ store_calls items in
      calls `prefix_of` all ∧
      ((io Db w).1 = false → calls = [Db] ∧ o = Returned tt) ∧
      ((io Db w).1 = true → o = Returned tt → calls = all).
Proof.
  unfold restoreChatHistory.
  destruct (JSON_parse chatHistoryContent) as [v|]; cbn [or_throw];
    [|rewrite exec_bind, exec_throw; eexists _, _, _;
      split_and!; [done | constructor | done]].
  exec_step. cbv beta. exec_seq.
  destruct v as [| |b|n|text|items|fields]; cbn [Js.nullish Js.as_array];
    try (rewrite exec_throw; eexists _, _, _;
         split_and!; [done | constructor | done]);
    try (rewrite !exec_ret; eexists _, _, _;
         split_and!; [done | constructor | done]).
  rewrite exec_ret. exec_step.
  destruct (io Db w) as [db w1]. cbn [fst snd]. destruct db; cbv beta iota.
  - exec_step. destruct (io DbGetAll w1) as [existing w2]. cbn [fst snd].
    destruct existing as [existing|]; cbn [or_throw default from_option].
    + exec_step. cbv beta. exec_seq.
      destruct (exec_clearHistory existing wb w2)
        as (o1 & w3 & calls1 & -> & Hprefix1 & Hall1).
      destruct o1 as [[]|e].
      * destruct (exec_restoreHistory items wb w3)
          as (o2 & w4 & calls2 & -> & Hprefix2 & Hall2).
        rewrite (Hall1 eq_refl) in *. eexists _, _, _. split; [done|].
        assert ((Db :: DbGetAll :: delete_calls existing ++ calls2)
                `prefix_of` ([Db; DbGetAll] ++ delete_calls existing ++ store_calls items))
          as Hprefix.
        { cbn [app]. do 2 apply prefix_cons. by apply prefix_app. }
        split; [|intros ? [= <-]; cbn zeta; split_and!].
        -- eapply Forall_prefix; [exact Hprefix|]. repeat constructor; try done.
           apply Forall_app. split; [apply delete_calls_db | apply store_calls_db].
        -- by rewrite app_nil_l.
        -- done.
        -- intros _ Ho. rewrite app_nil_l. cbn [app]. by rewrite (Hall2 Ho).
      * eexists _, _, _. split; [done|].
        assert ((Db :: DbGetAll :: calls1)
                `prefix_of` ([Db; DbGetAll] ++ delete_calls existing ++ []))
          as Hprefix.
        { cbn [app]. do 2 apply prefix_cons. by rewrite app_nil_r. }
        split; [|intros ? [= <-]; cbn zeta; split_and!].
        -- eapply Forall_prefix; [exact Hprefix|]. repeat constructor; try done.
           rewrite app_nil_r. apply delete_calls_db.
        -- cbn [app]. do 2 apply prefix_cons. by apply prefix_app_r.
        -- done.
        -- done.
    + rewrite exec_bind, exec_throw. eexists _, _, _. split; [done|].
      split; [by repeat constructor|]. intros ? [= <-]. cbn zeta. split_and!.
      * cbn [app]. do 2 apply prefix_cons. apply prefix_nil.
      * done.
      * done.
  - rewrite exec_ret. eexists _, _, _. split; [done|].
    split; [by repeat constructor|]. intros ? [= <-]. cbn zeta. split_and!.
    + apply prefix_cons, prefix_nil.
    + done.
    + done.
Qed.

Lemma exec_restoreEntries entries wb w :
  ∃ w', exec (restoreEntries entries) wb w =
        (Returned tt, wb, w', files_of entries ≫= restore_calls).
Proof.
  revert w. induction entries as [|[path [|content]] rest IH]; intros w.
  - by exists w.
  - apply IH.
  - cbn [restoreEntries]. unfold files_of. cbn [omap list_omap].
    fold (files_of rest). cbn [mbind list_bind]. unfold restore_calls at 1.
    cbn [fst snd]. cbv zeta. exec_seq.
    destruct (String.eqb _ "/home/project").
    + rewrite exec_ret. exec_step. cbv beta.
      destruct (IH (io (WcWriteFile ("/home/project/" +:+ Str.drop_leading_slashes path)
                          content) w).2) as [w' ->].
      by exists w'.
    + exec_step. exec_step. cbv beta.
      match goal with
      | |- context [exec (restoreEntries rest) wb ?v] =>
          destruct (IH v) as [w' ->]
      end.
      by exists w'.
Qed.

Lemma setDocuments_run files wb w :
  ∃ w' calls,
    exec (setDocuments files) wb w = (Returned tt, wb, w', calls) ∧
    Forall (λ c, is_wc_call c = false ∧ is_db_call c = false) calls.
Proof.
  unfold setDocuments. do 2 exec_step. cbv beta.
  destruct (io FsFilesCount (io (EdSetDocuments files) w).2) as [filesCount w1].
  cbn [fst snd]. destruct (0 <? filesCount)%nat.
  - exec_step. destruct (io EdCurrentDocument w1) as [currentDocument w2].
    cbn [fst snd]. destruct currentDocument as [doc|].
    + rewrite exec_ret. eexists _, _. split; [done|]. by repeat constructor.
    + destruct (exec_selectFirstFile files wb w2) as [w' ->].
      eexists _, _. split; [done|].
      destruct (first_file files); by repeat constructor.
  - rewrite exec_ret. eexists _, _. split; [done|]. by repeat constructor.
Qed.

(** The run of the second inner block of [importProjectBackup]. *)
Lemma exec_restoreCodeFiles zip wb w :
  ∃ w' shown,
    exec (restoreCodeFiles zip) wb w =
    (Returned tt, wb, w',
     [WcRm "/home/project"; WcMkdir "/home/project" false]
     ++ (files_of (JSZip.entries zip) ≫= restore_calls)
     ++ FsFiles :: shown
     ++ [Toast toast_success "Project restored successfully"; ReloadLater]) ∧
    Forall (λ c, is_wc_call c = false ∧ is_db_call c = false) shown.
Proof.
  unfold restoreCodeFiles. do 2 exec_step. cbv beta. exec_seq.
  match goal with
  | |- context [exec (restoreEntries ?entries) wb ?v] =>
      destruct (exec_restoreEntries entries wb v) as [w1 ->]
  end.
  exec_step. cbv beta. exec_seq.
  match goal with
  | |- context [exec (setDocuments ?files) wb ?v] =>
      destruct (setDocuments_run files wb v) as (w2 & shown & -> & Hshown)
  end.
  do 2 exec_step. eexists _, shown. split; [|done].
  cbn [app].
  match goal with |- (Returned ?u, _, _, _) = _ => by destruct u end.
Qed.

(** The run of [importProjectBackup] on a backup that passes its
    checks: the notice, the restore of the chats and, unless that
    failed, the restore of the files. *)
Lemma importProjectBackup_run file zip chatHistory wb w :
  valid_backup file zip chatHistory →
  let w1 := (io (Toast toast_info "Starting project restore...") w).2 in
  ∃ o w2 chat_calls w' rest,
    exec (restoreChatHistory chatHistory) wb w1 = (o, wb, w2, chat_calls) ∧
    exec (importProjectBackup file) wb w =
      (Returned tt, wb, w',
       Toast toast_info "Starting project restore..." :: chat_calls ++ rest) ∧
    match o with
    | Returned _ =>
        ∃ shown,
          rest =
            [WcRm "/home/project"; WcMkdir "/home/project" false]
            ++ (files_of (JSZip.entries (JSZip.folder EmptyString "code" zip).1)
                ≫= restore_calls)
            ++ FsFiles :: shown
            ++ [Toast toast_success "Project restored successfully"; ReloadLater] ∧
          Forall (λ c, is_wc_call c = false ∧ is_db_call c = false) shown
    | Threw _ => rest = [Toast toast_error "Failed to restore chat history"]
    end.
Proof.
  intros (Hzip & Hchat & metadata & fields & Hmeta & Hparse & Hversion & Hdate).
  cbn zeta. unfold importProjectBackup.
  rewrite exec_try_catch, Hzip. cbn [or_throw]. exec_step. cbv beta.
  destruct (folder_never_null EmptyString "code" zip) as (zip' & root' & Hfolder).
  rewrite Hfolder, Hmeta, Hchat. cbn [fst]. cbv beta iota. rewrite Hparse.
  cbn [or_throw]. exec_step. cbv beta. cbn [or_throw Js.get]. exec_step.
  cbv beta. rewrite Hversion. cbn [negb]. cbn [or_throw Js.get]. exec_step.
  cbv beta. rewrite Hdate. cbn [negb]. exec_step. exec_seq.
  rewrite exec_try_catch. exec_seq.
  destruct (exec_restoreChatHistory chatHistory wb
              (io (Toast toast_info "Starting project restore...") w).2)
    as (o & w2 & chat_calls & Hrun & _).
  rewrite Hrun. exists o, w2, chat_calls. destruct o as [[]|e].
  - rewrite exec_ret. cbv beta iota. rewrite exec_try_catch.
    destruct (exec_restoreCodeFiles zip' wb w2) as (w3 & shown & -> & Hshown).
    eexists _, _. split; [done|]. split; [by rewrite app_nil_r|].
    by exists shown.
  - exec_step. rewrite exec_ret. cbv beta iota. rewrite exec_ret.
    eexists _, _. split; [done|]. split; [|done].
    by rewrite app_nil_r.
Qed.

Lemma filter_all (f : Call → bool) calls :
  Forall (λ c, f c = true) calls → List.filter f calls = calls.
Proof. induction 1 as [|c l Hc _ IH]; [done|]. cbn. by rewrite Hc, IH. Qed.

Lemma filter_none (f : Call → bool) calls :
  Forall (λ c, f c = false) calls → List.filter f calls = [].
Proof. induction 1 as [|c l Hc _ IH]; [done|]. cbn. by rewrite Hc. Qed.


Lemma restore_calls_wc entries :
  Forall (λ c, is_wc_call c = true) (entries ≫= restore_calls).
Proof.
  induction entries as [|entry rest IH]; [constructor|].
  cbn [mbind list_bind]. apply Forall_app. split; [|exact IH].
  unfold restore_calls. cbv zeta. destruct (String.eqb _ _); by repeat constructor.
Qed.

Lemma restore_calls_not_db entries :
  Forall (λ c, is_db_call c = false) (entries ≫= restore_calls).
Proof.
  eapply Forall_impl; [apply restore_calls_wc|]. by intros [].
Qed.

(** X15.  The chats of a backup replace the stored ones.  In an import
    of a backup that passes the checks and whose chat_history.json is
    an array, the calls to the database are, in this order: the test
    for the database, the reading of all stored chats, one deletion
    for each stored chat, one write for each chat of the backup.  A
    failure cuts the sequence short; without a database nothing is
    read, deleted or written; and when the import ends with success
    and there is a database, the sequence is complete. *)
Theorem importProjectBackup_replaces_chats file zip chatHistory items wb w :
  valid_backup file zip chatHistory →
  JSON_parse chatHistory = Some (JArr items) →
  chats_replaced file items wb w.
Proof.
  intros Hvalid Hitems. unfold chats_replaced. cbn zeta.
  destruct (importProjectBackup_run file zip chatHistory wb w Hvalid)
    as (o & w2 & chat_calls & w' & rest & Hchat & -> & Hrest).
  destruct (exec_restoreChatHistory chatHistory wb
              (io (Toast toast_info "Starting project restore...") w).2)
    as (o' & w2' & calls' & Hchat' & Hdb & Hitems').
  rewrite Hchat in Hchat'. injection Hchat' as <- <- <-.
  destruct (Hitems' items Hitems) as (Hprefix & Hnone & Hall). clear Hitems'.
  run_parts.
  assert (List.filter is_db_call
            (Toast toast_info "Starting project restore..." :: chat_calls ++ rest)
          = chat_calls) as ->.
  { cbn [List.filter is_db_call]. rewrite List.filter_app, (filter_all _ _ Hdb).
    destruct o as [[]|e].
    - destruct Hrest as (shown & -> & Hshown).
      cbn [app List.filter is_db_call]. rewrite !List.filter_app.
      rewrite (filter_none _ _ (restore_calls_not_db _)).
      cbn [app List.filter is_db_call]. rewrite List.filter_app, filter_none.
      + by rewrite app_nil_r.
      + eapply Forall_impl; [exact Hshown|]. by intros c [_ ?].
    - subst rest. by rewrite app_nil_r. }
  split_and!; [done | by intros [-> _]%Hnone |].
  intros Hyes Hsuccess. apply Hall; [done|].
  destruct o as [[]|e]; [done|]. exfalso. subst rest.
  apply elem_of_cons in Hsuccess as [?|Hsuccess]; [done|].
  apply elem_of_app in Hsuccess as [Hsuccess|Hsuccess].
  - rewrite Forall_forall in Hdb. by apply Hdb in Hsuccess.
  - by apply list_elem_of_singleton in Hsuccess.
Qed.


End Restore.

(** ** The further theorems on concrete data *)

Section MoreOnTheReferenceHost.
#[local] Existing Instance Demo.host.

Lemma reference_reads_change_nothing : reads_change_nothing.
Proof. intros w. split_and!; reflexivity. Qed.

Lemma saveAllFiles_saves_documents_witness :
  saveAllFiles_spec elements Cases.unsaved Cases.edited.
Proof.
  apply saveAllFiles_saves_documents.
  - apply reference_reads_change_nothing.
  - intros w filePath [content|]; reflexivity.
  - reflexivity.
Defined.

Lemma resetCurrentDocument_reverts_witness :
  resetCurrentDocument_spec "/home/project/src/App.tsx" "export default App"
    Cases.unsaved Cases.edited.
Proof.
  apply (resetCurrentDocument_reverts Cases.unsaved Cases.edited
           {| value := "export default Todo";
              doc_filePath := "/home/project/src/App.tsx" |}
           {| content := "export default App"; isBinary := false |}).
  - apply reference_reads_change_nothing.
  - vm_compute. reflexivity.
  - discriminate.
  - reflexivity.
  - vm_compute. reflexivity.
Defined.

Lemma runAction_runner_calls_witness :
  runner_calls_spec Cases.new_file_action false Demo.artifact
    Demo.store Demo.world.
Proof. apply runAction_runner_calls. reflexivity. Defined.

Lemma runAction_streaming_keeps_marks_witness :
  streaming_spec Demo.file_action Demo.store Demo.world.
Proof.
  apply (runAction_streaming_keeps_marks Demo.file_action Demo.artifact
           "src/App.tsx" "export default Todo"); reflexivity.
Defined.

Lemma addAction_after_addArtifact_witness :
  added_to_runner Demo.artifact_data Demo.shell_action
    (new_WorkbenchStore None) Demo.world.
Proof. apply addAction_after_addArtifact. reflexivity. Defined.

Lemma addArtifacts_extend_the_registry_witness :
  registry_extended
    [Demo.artifact_data; Demo.inherited_data; Cases.second_artifact;
     Demo.artifact_data]
    (new_WorkbenchStore None) Demo.world.
Proof.
  apply addArtifacts_extend_the_registry, new_WorkbenchStore_exact.
Defined.

Lemma firstArtifact_is_first_opened_witness :
  first_is_first_opened Demo.artifact_data
    [Demo.inherited_data; Cases.second_artifact] Demo.world.
Proof. apply firstArtifact_is_first_opened. compute_done. Defined.

Lemma hot_reload_forgets_the_order_witness :
  order_forgotten Demo.store Demo.artifact_data Demo.world.
Proof.
  apply hot_reload_forgets_the_order; [by eexists | reflexivity].
Defined.

Lemma datetime_of_iso_instant_witness :
  datetime_of (iso_instant "2024" "01" "02" "03" "04" "05" "678Z")
  = "20240102030405".
Proof.
  exact (datetime_of_iso_instant "2024" "01" "02" "03" "04" "05" "678Z"
           eq_refl eq_refl eq_refl eq_refl eq_refl eq_refl).
Defined.

End MoreOnTheReferenceHost.

Section RestoreOnTheReferenceHost.
#[local] Existing Instance Cases.restore_host.

Lemma reference_backup_valid :
  valid_backup Cases.backup Cases.archive Cases.chats_text.
Proof.
  split_and!; [reflexivity | reflexivity |].
  eexists _, _. split_and!; reflexivity.
Qed.

Lemma importProjectBackup_replaces_chats_witness :
  chats_replaced Cases.backup [Demo.chat] Demo.store Cases.restore_world.
Proof.
  apply (importProjectBackup_replaces_chats Cases.backup Cases.archive
           Cases.chats_text).
  - apply reference_backup_valid.
  - reflexivity.
Defined.

End RestoreOnTheReferenceHost.
